(** * sona-router: the translation and streaming-relay core, embedded in Rocq

    The development follows the TypeScript sources file by file:
    - [JS]      the JavaScript primitives the sources rely on (truthiness of
                strings, [||], [split], [join], [startsWith], number printing);
    - [Float64] Numbers: the value of a number literal and [Number::toString];
    - [Json]    [JSON.parse] and [JSON.stringify];
    - [Config]  src/config.ts: the routing table and [resolveModel];
    - [Base]    src/providers/base.ts: request and response translation;
    - [Relay]   the [stream] method of src/providers/ollama.ts and
                src/providers/lmstudio.ts (the two bodies are identical);
    - [Wire]    a decoder of stream chunks from their JSON text, for running
                sessions on wire bytes;
    - [Ollama]  src/providers/ollama.ts: [ensureModelReady] and the name test
                of [isModelAvailable];
    - [Server]  src/server.ts: the token count of [/v1/messages/count_tokens];
    - [ConfigFile]  src/config.ts: [loadConfig], [saveConfig], [initConfig]
                and the setters, on the file and [DEFAULT_CONFIG].

    Strings are byte strings (the UTF-8 text of the JavaScript string). *)

From Stdlib Require Import ZArith String Ascii DecimalString DecimalZ QArith.
From stdpp Require Import base gmap strings list.

Set Warnings "-register-all".

(** ** JavaScript primitives *)

Module JS.

(** [Boolean(s)] for a string: every string but the empty one is truthy. *)
Definition truthy (s : string) : bool := negb (String.eqb s "").

(** [Boolean(v)] for a value of type [string | null | undefined]. *)
Definition truthy_opt (o : option string) : bool :=
  match o with
  | Some s => truthy s
  | None => false
  end.

(** [o || d] where [o : string | null | undefined] and [d : string]. *)
Definition or_else (o : option string) (d : string) : string :=
  match o with
  | Some s => if truthy s then s else d
  | None => d
  end.

(** [o || null] where [o : string]. *)
Definition or_null (s : string) : option string :=
  if truthy s then Some s else None.

(** [n || d] for numbers: [0] and [undefined] are falsy. *)
Definition num_or_else (o : option Z) (d : Z) : Z :=
  match o with
  | Some n => if (n =? 0)%Z then d else n
  | None => d
  end.

(** [s.startsWith(pattern)]. *)
Definition startsWith (s pattern : string) : bool := String.prefix pattern s.

(** [s.slice(n)] for [0 <= n]. *)
Fixpoint slice_from (n : nat) (s : string) : string :=
  match n, s with
  | O, _ => s
  | S _, EmptyString => EmptyString
  | S n', String _ r => slice_from n' r
  end.

Definition newline : ascii := "010"%char.

(** [s.split('\n')]: never empty; the last element is the text after the
    last newline. *)
Fixpoint split_newline (s : string) : list string :=
  match s with
  | EmptyString => [EmptyString]
  | String c r =>
      if Ascii.eqb c newline then EmptyString :: split_newline r
      else match split_newline r with
           | l :: ls => String c l :: ls
           | [] => [String c EmptyString]
           end
  end.

(** Whether a text has no line break in it. *)
Fixpoint no_newline (s : string) : bool :=
  match s with
  | EmptyString => true
  | String c r => negb (Ascii.eqb c newline) && no_newline r
  end.

(** Whether character [c] occurs in [s]. *)
Fixpoint has_char (c : ascii) (s : string) : bool :=
  match s with
  | EmptyString => false
  | String c' r => Ascii.eqb c' c || has_char c r
  end.

(** [l.join(sep)]. *)
Definition join (sep : string) (l : list string) : string := String.concat sep l.

(** Template-literal printing of an integral number. *)
Definition Number_toString (z : Z) : string := NilZero.string_of_int (Z.to_int z).

(** Whether a property key is an array index: the canonical decimal of a
    number below 2^32 - 1.  An object lists such keys first, in ascending
    order. *)
Definition array_index (key : string) : option N :=
  match NilEmpty.uint_of_string key with
  | Some u =>
      let n := N.of_uint u in
      if String.eqb (NilZero.string_of_uint (N.to_uint n)) key && (n <=? 4294967294)%N
      then Some n else None
  | None => None
  end.

(** Errors the modelled code can raise. *)
Inductive Error : Type :=
| SyntaxError                       (* raised by [JSON.parse] *)
| TypeError                         (* raised by a property read on [null] *)
| Error_msg (message : string).     (* [new Error(message)] *)

(** Outcome of a call that may throw. *)
Inductive Completion (A : Type) : Type :=
| Return (a : A)
| Throw (e : Error).
Global Arguments Return {A} a.
Global Arguments Throw {A} e.

Definition bind {A B : Type} (c : Completion A) (k : A -> Completion B) : Completion B :=
  match c with
  | Return a => k a
  | Throw e => Throw e
  end.

(** [s.length]: the number of UTF-16 code units of the text whose UTF-8 bytes
    are [s].  A byte that continues a character (10xxxxxx) counts for nothing,
    the first byte of a character outside the basic plane (11110xxx) for the
    two halves of its surrogate pair, every other byte for one. *)
Fixpoint String_length (s : string) : nat :=
  match s with
  | EmptyString => 0
  | String c r =>
      let n := nat_of_ascii c in
      (if (128 <=? n) && (n <? 192) then 0 else if 240 <=? n then 2 else 1) + String_length r
  end.

(** [Math.ceil(n / d)] for a count [n] and [0 < d]. *)
Definition Math_ceil_div (n d : nat) : nat := (n + (d - 1)) / d.

(** [s.split(':')[0]]: the text before the first colon, all of [s] if it has
    none. *)
Fixpoint before_colon (s : string) : string :=
  match s with
  | EmptyString => EmptyString
  | String c r => if Ascii.eqb c ":"%char then EmptyString else String c (before_colon r)
  end.

(** [toLowerCase] on the letters A to Z, every other byte kept: what
    [String.prototype.toLowerCase] does to a text of the Basic Latin block. *)
Definition ascii_toLowerCase (c : ascii) : ascii :=
  let n := nat_of_ascii c in
  if (65 <=? n) && (n <=? 90) then ascii_of_nat (n + 32) else c.

Fixpoint Latin_toLowerCase (s : string) : string :=
  match s with
  | EmptyString => EmptyString
  | String c r => String (ascii_toLowerCase c) (Latin_toLowerCase r)
  end.

(** *** [buffer.toString()]

    A [Buffer] is the byte string it holds, and [toString()] decodes it as
    UTF-8 on its own: every byte sequence that is not the encoding of a
    character, an unfinished one at the end of the buffer included, comes out
    as U+FFFD.  The decoder reads byte after byte, [pending] being the bytes
    of the character it is in the middle of; the result is the text, in
    UTF-8 again. *)

(** The length of the sequence a byte begins: 1 for 00..7F, 2 for C2..DF,
    3 for E0..EF, 4 for F0..F4; no other byte begins one. *)
Definition utf8_length (lead : ascii) : option nat :=
  let n := nat_of_ascii lead in
  if (n <? 128)%nat then Some 1%nat
  else if (194 <=? n)%nat && (n <=? 223)%nat then Some 2%nat
  else if (224 <=? n)%nat && (n <=? 239)%nat then Some 3%nat
  else if (240 <=? n)%nat && (n <=? 244)%nat then Some 4%nat
  else None.

(** Whether [c] goes on with the unfinished character [pending]: a byte of
    80..BF, of A0..BF right after E0, 80..9F after ED, 90..BF after F0 and
    80..8F after F4. *)
Definition utf8_continues (pending : string) (c : ascii) : bool :=
  let n := nat_of_ascii c in
  match pending with
  | String lead EmptyString =>
      let l := nat_of_ascii lead in
      ((if (l =? 224)%nat then 160 else if (l =? 240)%nat then 144 else 128) <=? n)%nat
      && (n <=? (if (l =? 237)%nat then 159 else if (l =? 244)%nat then 143 else 191))%nat
  | _ => (128 <=? n)%nat && (n <=? 191)%nat
  end.

(** U+FFFD in UTF-8. *)
Definition replacement : string :=
  String (ascii_of_nat 239) (String (ascii_of_nat 191) (String (ascii_of_nat 189) EmptyString)).

(** A byte met between characters: what is emitted, and what is pending. *)
Definition utf8_start (c : ascii) : string * string :=
  match utf8_length c with
  | Some 1%nat => (String c EmptyString, EmptyString)
  | Some _ => (EmptyString, String c EmptyString)
  | None => (replacement, EmptyString)
  end.

(** A byte met with [pending] unfinished: it completes the character, goes
    on with it, or breaks it off, and then is read as a byte between
    characters. *)
Definition utf8_step (pending : string) (c : ascii) : string * string :=
  match pending with
  | EmptyString => utf8_start c
  | String lead _ =>
      if utf8_continues pending c then
        let seen := pending +:+ String c EmptyString in
        if (String.length seen =? default 0%nat (utf8_length lead))%nat
        then (seen, EmptyString)
        else (EmptyString, seen)
      else
        let '(out, p) := utf8_start c in (replacement +:+ out, p)
  end.

Fixpoint utf8_decode (pending : string) (bytes : string) : string :=
  match bytes with
  | EmptyString => match pending with EmptyString => EmptyString | _ => replacement end
  | String c rest => let '(out, p) := utf8_step pending c in out +:+ utf8_decode p rest
  end.

Definition Buffer_toString (bytes : string) : string := utf8_decode EmptyString bytes.

(** The bytes of the character [bytes] ends in the middle of, if it does. *)
Fixpoint utf8_pending (pending : string) (bytes : string) : string :=
  match bytes with
  | EmptyString => pending
  | String c rest => utf8_pending (utf8_step pending c).2 rest
  end.

(** Whether a buffer ends between two characters. *)
Definition ends_between_characters (bytes : string) : bool :=
  String.eqb (utf8_pending EmptyString bytes) EmptyString.

End JS.

(** ** Numbers: IEEE 754 binary64, [StringToNumber] and [Number::toString] *)

Module Float64.
Local Open Scope string_scope.
Local Open Scope Z_scope.

(** A Number other than NaN.  [Finite negative m e] is [m * 2^e] with
    [2^52 <= m < 2^53] and [-1074 <= e <= 971], or [0 < m < 2^52] and
    [e = -1074]. *)
Inductive Double : Type :=
| Zero (negative : bool)
| Finite (negative : bool) (mantissa exponent : Z)
| Infinity (negative : bool).

Definition Double_eqb (x y : Double) : bool :=
  match x, y with
  | Zero a, Zero b => Bool.eqb a b
  | Finite a m e, Finite b m' e' => Bool.eqb a b && (m =? m') && (e =? e')
  | Infinity a, Infinity b => Bool.eqb a b
  | _, _ => false
  end.

(** [2^k <= p/q] *)
Definition at_least_pow2 (p q k : Z) : bool :=
  if 0 <=? k then q * 2 ^ k <=? p else q <=? p * 2 ^ (- k).

(** The integer part of the binary logarithm of [p/q]. *)
Definition log2_ratio (p q : Z) : Z :=
  let k := Z.log2 p - Z.log2 q in
  if at_least_pow2 p q k then k else k - 1.

(** [num/den] rounded to the nearest integer, a tie to the even one. *)
Definition round_half_even (num den : Z) : Z :=
  let m := num / den in
  match 2 * (num mod den) ?= den with
  | Lt => m
  | Gt => m + 1
  | Eq => if Z.even m then m else m + 1
  end.

(** The Number value for the fraction [p/q], [0 <= p] and [0 < q]: the
    nearest binary64 value, a tie to the one with the even mantissa, and
    infinity from [2^1024 - 2^970] on. *)
Definition Double_round (negative : bool) (p q : Z) : Double :=
  if p =? 0 then Zero negative
  else
    let e := Z.max (log2_ratio p q - 52) (-1074) in
    let m := if 0 <=? e then round_half_even p (q * 2 ^ e)
             else round_half_even (p * 2 ^ (- e)) q in
    let e := if m =? 2 ^ 53 then e + 1 else e in
    let m := if m =? 2 ^ 53 then 2 ^ 52 else m in
    if m =? 0 then Zero negative
    else if 971 <? e then Infinity negative
    else Finite negative m e.

(** The Number value of an integer. *)
Definition Double_of_Z (z : Z) : Double := Double_round (z <? 0) (Z.abs z) 1.

(** The integer a Number is, if it is one. *)
Definition Double_to_Z (x : Double) : option Z :=
  match x with
  | Zero _ => Some 0
  | Finite negative m e =>
      let sign := if negative then -1 else 1 in
      if 0 <=? e then Some (sign * (m * 2 ^ e))
      else if m mod 2 ^ (- e) =? 0 then Some (sign * (m / 2 ^ (- e)))
      else None
  | Infinity _ => None
  end.

(** [c * 10^d] as a fraction. *)
Definition times_pow10 (c d : Z) : Z * Z :=
  if 0 <=? d then (c * 10 ^ d, 1) else (c, 10 ^ (- d)).

(** The decimal digits of a natural number. *)
Definition decimal (z : Z) : string := NilZero.string_of_uint (N.to_uint (Z.to_N z)).

(** The number a string of decimal digits writes. *)
Definition Z_of_digits (digits : string) : Z :=
  match NilEmpty.uint_of_string digits with
  | Some u => Z.of_N (N.of_uint u)
  | None => 0
  end.

Definition count_digits (z : Z) : Z := Z.of_nat (String.length (decimal z)).

(** The [n] with [10^(n-1) <= p/q < 10^n], for [0 < p] and [0 < q]. *)
Definition decimal_exponent (p q : Z) : Z :=
  if q <=? p then count_digits (p / q)
  else 1 - count_digits ((q + p - 1) / p - 1).

(** The digits of [Number::toString] for [x = p/q], [10^(n-1) <= x < 10^n]:
    the fewest digits [k], from [k] on, such that one of the two [k]-digit
    decimals [c * 10^(n-k)] next to [x] has [x] as its Number value; of the
    two the nearer one if both have, the even one if they are as near.
    Seventeen digits always do. *)
Fixpoint shortest_digits (fuel : nat) (k : Z) (x : Double) (p q n : Z) : Z * Z :=
  let num := if 0 <=? n - k then p else p * 10 ^ (k - n) in
  let den := if 0 <=? n - k then q * 10 ^ (n - k) else q in
  let lo := num / den in
  let hi := lo + 1 in
  let nearest := round_half_even num den in
  let reads_as c :=
    let '(a, b) := times_pow10 c (n - k) in Double_eqb (Double_round false a b) x in
  match fuel with
  | O => (nearest, k)
  | S fuel' =>
      if reads_as lo && reads_as hi then (nearest, k)
      else if reads_as lo then (lo, k)
      else if reads_as hi then (hi, k)
      else shortest_digits fuel' (k + 1) x p q n
  end.

(** A digit string without the zeros at its end. *)
Fixpoint strip_zeros (digits : string) : string :=
  match digits with
  | EmptyString => EmptyString
  | String c r =>
      match strip_zeros r with
      | EmptyString => if Ascii.eqb c "0" then EmptyString else String c EmptyString
      | r' => String c r'
      end
  end.

Fixpoint zeros (n : nat) : string :=
  match n with
  | O => EmptyString
  | S n' => String "0" (zeros n')
  end.

Fixpoint take (n : nat) (s : string) : string :=
  match n, s with
  | S n', String c r => String c (take n' r)
  | _, _ => EmptyString
  end.

Fixpoint drop (n : nat) (s : string) : string :=
  match n, s with
  | S n', String _ r => drop n' r
  | _, _ => s
  end.

(** The text of [Number::toString] for the digits of [s] and the exponent
    [n]: plain digits up to [10^21], a decimal point inside or after [0.]
    and up to six zeros, the exponent form otherwise. *)
Definition format_digits (digits : string) (n : Z) : string :=
  let k := Z.of_nat (String.length digits) in
  if (k <=? n) && (n <=? 21) then digits +:+ zeros (Z.to_nat (n - k))
  else if (0 <? n) && (n <=? 21) then
    take (Z.to_nat n) digits +:+ "." +:+ drop (Z.to_nat n) digits
  else if (-6 <? n) && (n <=? 0) then "0." +:+ zeros (Z.to_nat (- n)) +:+ digits
  else
    (if k =? 1 then digits else take 1 digits +:+ "." +:+ drop 1 digits)
    +:+ "e" +:+ (if n - 1 <? 0 then "-" else "+") +:+ decimal (Z.abs (n - 1)).

(** [Number::toString(x)], radix 10. *)
Definition Double_toString (x : Double) : string :=
  match x with
  | Zero _ => "0"
  | Infinity negative => (if negative then "-" else "") +:+ "Infinity"
  | Finite negative m e =>
      let '(p, q) := if 0 <=? e then (m * 2 ^ e, 1) else (m, 2 ^ (- e)) in
      let n := decimal_exponent p q in
      let '(s, k) := shortest_digits 16 1 (Double_round false p q) p q n in
      (* digits 9.9... that read as 10^n come out as the k+1 digits of 10^k *)
      let n := n + count_digits s - k in
      (if negative then "-" else "") +:+ format_digits (strip_zeros (decimal s)) n
  end.

End Float64.

(** ** JSON values, [JSON.parse] and [JSON.stringify] *)

Module Json.
Import JS Float64.

(** The values [JSON.parse] returns.  A number is a Number; a string is the
    UTF-8 text of the JavaScript string, a surrogate that is not half of a
    pair written as the three bytes of its code unit; an object is its own
    properties in property order (array indices in ascending order first,
    then the other keys in the order they were created), no key twice. *)
Inductive json : Type :=
| JNull
| JBool (b : bool)
| JNumber (x : Double)
| JString (s : string)
| JArray (items : list json)
| JObject (members : list (string * json)).

Definition dquote : ascii := "034"%char.
Definition backslash : ascii := "092"%char.

Definition is_ws (c : ascii) : bool :=
  let n := nat_of_ascii c in
  (n =? 32) || (n =? 9) || (n =? 10) || (n =? 13).

Definition is_digit (c : ascii) : bool :=
  let n := nat_of_ascii c in (48 <=? n) && (n <=? 57).

Fixpoint skip_ws (s : string) : string :=
  match s with
  | EmptyString => EmptyString
  | String c r => if is_ws c then skip_ws r else s
  end.

Fixpoint take_digits (s : string) : string * string :=
  match s with
  | EmptyString => (EmptyString, EmptyString)
  | String c r =>
      if is_digit c then let '(d, r') := take_digits r in (String c d, r')
      else (EmptyString, s)
  end.

(** number = [ "-" ] int [ "." digits ] [ ("e"|"E") ["+"|"-"] digits ] *)

(** The digits of the fraction, none if there is no fraction. *)
Definition parse_fraction (s : string) : option (string * string) :=
  match s with
  | String c r =>
      if Ascii.eqb c "."%char then
        let '(d, r') := take_digits r in
        if String.eqb d "" then None else Some (d, r')
      else Some (EmptyString, s)
  | EmptyString => Some (EmptyString, s)
  end.

(** The exponent, 0 if there is none. *)
Definition parse_exponent (s : string) : option (Z * string) :=
  match s with
  | String c r =>
      if Ascii.eqb c "e"%char || Ascii.eqb c "E"%char then
        let '(negative, r1) :=
          match r with
          | String c1 r1 =>
              if Ascii.eqb c1 "-"%char then (true, r1)
              else if Ascii.eqb c1 "+"%char then (false, r1)
              else (false, r)
          | EmptyString => (false, r)
          end in
        let '(d, r2) := take_digits r1 in
        if String.eqb d "" then None
        else Some (if negative then (- Z_of_digits d)%Z else Z_of_digits d, r2)
      else Some (0%Z, s)
  | EmptyString => Some (0%Z, s)
  end.

(** A number literal and its Number value: the digits of the integer part
    and of the fraction as one integer, times the power of ten the exponent
    and the length of the fraction make. *)
Definition parse_number (s : string) : option (Double * string) :=
  let '(negative, s1) :=
    match s with
    | String c r => if Ascii.eqb c "-"%char then (true, r) else (false, s)
    | EmptyString => (false, s)
    end in
  let '(int, s2) := take_digits s1 in
  match int with
  | EmptyString => None
  | String d more =>
      if Ascii.eqb d "0"%char && negb (String.eqb more "") then None
      else
        match parse_fraction s2 with
        | None => None
        | Some (frac, s3) =>
            match parse_exponent s3 with
            | None => None
            | Some (ex, s4) =>
                let '(p, q) :=
                  times_pow10 (Z_of_digits (int +:+ frac))
                    (ex - Z.of_nat (String.length frac))%Z in
                Some (Double_round negative p q, s4)
            end
        end
  end.

Definition hex_value (c : ascii) : option nat :=
  let n := nat_of_ascii c in
  if (48 <=? n) && (n <=? 57) then Some (n - 48)
  else if (65 <=? n) && (n <=? 70) then Some (n - 55)
  else if (97 <=? n) && (n <=? 102) then Some (n - 87)
  else None.

(** UTF-8 bytes of one UTF-16 code unit (surrogate halves one by one). *)
Definition utf8_of_code_unit (n : nat) : string :=
  if n <? 128 then String (ascii_of_nat n) EmptyString
  else if n <? 2048 then
    String (ascii_of_nat (192 + n / 64)) (String (ascii_of_nat (128 + n mod 64)) EmptyString)
  else
    String (ascii_of_nat (224 + n / 4096))
      (String (ascii_of_nat (128 + (n / 64) mod 64))
         (String (ascii_of_nat (128 + n mod 64)) EmptyString)).

(** UTF-8 bytes of a character outside the basic plane. *)
Definition utf8_of_astral (n : N) : string :=
  String (ascii_of_N (240 + n / 262144))
    (String (ascii_of_N (128 + (n / 4096) mod 64))
       (String (ascii_of_N (128 + (n / 64) mod 64))
          (String (ascii_of_N (128 + n mod 64)) EmptyString))).

(** A high surrogate followed by a low one is one character: the three
    bytes of the one and the three bytes of the other become the four bytes
    of the character. *)
Fixpoint pair_surrogates (s : string) : string :=
  match s with
  | EmptyString => EmptyString
  | String a r =>
      match r with
      | String b (String c (String d (String e (String f rest)))) =>
          let nb := N_of_ascii b in
          let ne := N_of_ascii e in
          if ((N_of_ascii a =? 237) && (160 <=? nb) && (nb <=? 175)
              && (N_of_ascii d =? 237) && (176 <=? ne) && (ne <=? 191))%N
          then
            let high := ((nb - 160) * 64 + (N_of_ascii c - 128))%N in
            let low := ((ne - 176) * 64 + (N_of_ascii f - 128))%N in
            utf8_of_astral (65536 + high * 1024 + low)%N +:+ pair_surrogates rest
          else String a (pair_surrogates r)
      | _ => String a (pair_surrogates r)
      end
  end.

Definition simple_escape (c : ascii) : option ascii :=
  if Ascii.eqb c dquote then Some dquote
  else if Ascii.eqb c backslash then Some backslash
  else if Ascii.eqb c "/"%char then Some "/"%char
  else if Ascii.eqb c "b"%char then Some "008"%char
  else if Ascii.eqb c "f"%char then Some "012"%char
  else if Ascii.eqb c "n"%char then Some "010"%char
  else if Ascii.eqb c "r"%char then Some "013"%char
  else if Ascii.eqb c "t"%char then Some "009"%char
  else None.

(** The characters of a string literal after its opening quote, up to and
    including the closing quote, every [\u] escape as the bytes of its code
    unit. *)
Fixpoint parse_string_chars (s : string) : option (string * string) :=
  match s with
  | EmptyString => None
  | String c r =>
      if Ascii.eqb c dquote then Some (EmptyString, r)
      else if Ascii.eqb c backslash then
        match r with
        | EmptyString => None
        | String e r1 =>
            if Ascii.eqb e "u"%char then
              match r1 with
              | String h1 (String h2 (String h3 (String h4 r2))) =>
                  match hex_value h1, hex_value h2, hex_value h3, hex_value h4 with
                  | Some a, Some b, Some c', Some d =>
                      match parse_string_chars r2 with
                      | Some (t, rest) =>
                          Some (utf8_of_code_unit (a * 4096 + b * 256 + c' * 16 + d) +:+ t, rest)
                      | None => None
                      end
                  | _, _, _, _ => None
                  end
              | _ => None
              end
            else
              match simple_escape e with
              | Some ch =>
                  match parse_string_chars r1 with
                  | Some (t, rest) => Some (String ch t, rest)
                  | None => None
                  end
              | None => None
              end
        end
      else if nat_of_ascii c <? 32 then None
      else
        match parse_string_chars r with
        | Some (t, rest) => Some (String c t, rest)
        | None => None
        end
  end.

(** A string literal after its opening quote, and the string it writes. *)
Definition parse_string (s : string) : option (string * string) :=
  match parse_string_chars s with
  | Some (t, rest) => Some (pair_surrogates t, rest)
  | None => None
  end.

(** [expect word s]: [s] with the literal [word] removed from its front. *)
Definition expect (word s : string) : option string :=
  if String.prefix word s then Some (slice_from (String.length word) s) else None.

(** *** The properties of an object

    [JSON.parse] creates the properties of an object in text order.  A key
    the object has keeps its place and takes the new value; an array index
    goes among the index keys in ascending order, ahead of every other key;
    any other key goes last. *)

Definition Object_has (members : list (string * json)) (key : string) : bool :=
  existsb (fun kv => String.eqb (fst kv) key) members.

Definition Object_replace (members : list (string * json)) (key : string) (value : json)
  : list (string * json) :=
  List.map (fun kv => if String.eqb (fst kv) key then (fst kv, value) else kv) members.

Fixpoint Object_insert_index (n : N) (key : string) (value : json)
    (members : list (string * json)) : list (string * json) :=
  match members with
  | [] => [(key, value)]
  | (k, v) :: rest =>
      match array_index k with
      | Some m =>
          if (m <? n)%N then (k, v) :: Object_insert_index n key value rest
          else (key, value) :: (k, v) :: rest
      | None => (key, value) :: (k, v) :: rest
      end
  end.

(** [CreateDataProperty(object, key, value)] *)
Definition CreateDataProperty (members : list (string * json)) (kv : string * json)
  : list (string * json) :=
  let '(key, value) := kv in
  if Object_has members key then Object_replace members key value
  else match array_index key with
       | Some n => Object_insert_index n key value members
       | None => members ++ [(key, value)]
       end.

(** The object with the members of a text, in text order. *)
Definition Object_of_members (members : list (string * json)) : json :=
  JObject (fold_left CreateDataProperty members []).

Fixpoint parse_value (fuel : nat) (s : string) : option (json * string) :=
  match fuel with
  | O => None
  | S fuel' =>
      match skip_ws s with
      | EmptyString => None
      | String c r =>
          if Ascii.eqb c "{"%char then
            match skip_ws r with
            | String c1 r1 =>
                if Ascii.eqb c1 "}"%char then Some (JObject [], r1)
                else parse_members fuel' r []
            | EmptyString => None
            end
          else if Ascii.eqb c "["%char then
            match skip_ws r with
            | String c1 r1 =>
                if Ascii.eqb c1 "]"%char then Some (JArray [], r1)
                else parse_elements fuel' r []
            | EmptyString => None
            end
          else if Ascii.eqb c dquote then
            match parse_string r with
            | Some (t, rest) => Some (JString t, rest)
            | None => None
            end
          else if Ascii.eqb c "t"%char then
            option_map (fun rest => (JBool true, rest)) (expect "true" (String c r))
          else if Ascii.eqb c "f"%char then
            option_map (fun rest => (JBool false, rest)) (expect "false" (String c r))
          else if Ascii.eqb c "n"%char then
            option_map (fun rest => (JNull, rest)) (expect "null" (String c r))
          else
            match parse_number (String c r) with
            | Some (x, rest) => Some (JNumber x, rest)
            | None => None
            end
      end
  end
with parse_elements (fuel : nat) (s : string) (acc : list json) : option (json * string) :=
  match fuel with
  | O => None
  | S fuel' =>
      match parse_value fuel' s with
      | None => None
      | Some (v, r) =>
          match skip_ws r with
          | String c r1 =>
              if Ascii.eqb c ","%char then parse_elements fuel' r1 (v :: acc)
              else if Ascii.eqb c "]"%char then Some (JArray (rev (v :: acc)), r1)
              else None
          | EmptyString => None
          end
      end
  end
with parse_members (fuel : nat) (s : string) (acc : list (string * json)) : option (json * string) :=
  match fuel with
  | O => None
  | S fuel' =>
      match skip_ws s with
      | String c r =>
          if Ascii.eqb c dquote then
            match parse_string r with
            | None => None
            | Some (k, r1) =>
                match skip_ws r1 with
                | String c2 r2 =>
                    if Ascii.eqb c2 ":"%char then
                      match parse_value fuel' r2 with
                      | None => None
                      | Some (v, r3) =>
                          match skip_ws r3 with
                          | String c3 r4 =>
                              if Ascii.eqb c3 ","%char then parse_members fuel' r4 ((k, v) :: acc)
                              else if Ascii.eqb c3 "}"%char
                              then Some (Object_of_members (rev ((k, v) :: acc)), r4)
                              else None
                          | EmptyString => None
                          end
                      end
                    else None
                | EmptyString => None
                end
            end
          else None
      | EmptyString => None
      end
  end.

(** [JSON.parse(text)]: [None] stands for the [SyntaxError] it throws.  Every
    step of the descent either consumes a character or is followed by one that
    does, so twice the length of the text is enough fuel. *)
Definition JSON_parse (text : string) : option json :=
  match parse_value (2 * String.length text + 2) text with
  | Some (v, rest) => if String.eqb (skip_ws rest) "" then Some v else None
  | None => None
  end.

Definition hex_digit (n : nat) : ascii :=
  if n <? 10 then ascii_of_nat (48 + n) else ascii_of_nat (87 + n).

Definition escape_char (c : ascii) : string :=
  let n := nat_of_ascii c in
  if Ascii.eqb c dquote then String backslash (String dquote EmptyString)
  else if Ascii.eqb c backslash then String backslash (String backslash EmptyString)
  else if n =? 8 then String backslash "b"
  else if n =? 12 then String backslash "f"
  else if n =? 10 then String backslash "n"
  else if n =? 13 then String backslash "r"
  else if n =? 9 then String backslash "t"
  else if n <? 32 then
    String backslash ("u00" +:+ String (hex_digit (n / 16)) (String (hex_digit (n mod 16)) EmptyString))
  else String c EmptyString.

(** The escape [\udxxx] of the surrogate whose three bytes are [237], [b]
    and [c]. *)
Definition escape_surrogate (b c : ascii) : string :=
  let n := (nat_of_ascii b - 128) * 64 + (nat_of_ascii c - 128) in
  String backslash
    ("ud" +:+ String (hex_digit (n / 256))
       (String (hex_digit ((n / 16) mod 16)) (String (hex_digit (n mod 16)) EmptyString))).

(** The characters of a string as [JSON.stringify] writes them between the
    quotes: the quote, the backslash and the control characters escaped, a
    surrogate without its other half escaped, everything else as it is. *)
Fixpoint quote_chars (s : string) : string :=
  match s with
  | EmptyString => EmptyString
  | String a r =>
      match r with
      | String b (String c rest) =>
          if (nat_of_ascii a =? 237) && (160 <=? nat_of_ascii b)
          then escape_surrogate b c +:+ quote_chars rest
          else escape_char a +:+ quote_chars r
      | _ => escape_char a +:+ quote_chars r
      end
  end.

Definition QuoteJSONString (s : string) : string :=
  String dquote (quote_chars s +:+ String dquote EmptyString).

(** A number as [JSON.stringify] writes it: [null] for an infinity. *)
Definition SerializeJSONNumber (x : Double) : string :=
  match x with
  | Infinity _ => "null"
  | _ => Double_toString x
  end.

(** [JSON.stringify(value)] without indentation. *)
Fixpoint JSON_stringify (j : json) : string :=
  match j with
  | JNull => "null"
  | JBool true => "true"
  | JBool false => "false"
  | JNumber x => SerializeJSONNumber x
  | JString s => QuoteJSONString s
  | JArray items => "[" +:+ join "," (List.map JSON_stringify items) +:+ "]"
  | JObject members =>
      "{" +:+ join ","
        (List.map (fun kv => QuoteJSONString (fst kv) +:+ ":" +:+ JSON_stringify (snd kv)) members)
      +:+ "}"
  end.

(** The empty object [{}]. *)
Definition empty_object : json := JObject [].

(** JSON text for the worked examples, written with ['] for the double
    quote. *)
Fixpoint wire (s : string) : string :=
  match s with
  | EmptyString => EmptyString
  | String c r => String (if Ascii.eqb c "'"%char then dquote else c) (wire r)
  end.

End Json.

(** ** src/config.ts *)

Module Config.
Import JS.

Inductive Provider : Type := lmstudio | ollama.

(** [ModelRouting]: the routing object's own entries, in the order
    [Object.entries] lists them.  The index signature gives every own
    property the type [string].  The object is a plain one (an object
    literal, or a map of the YAML document), so it inherits the members of
    [Object.prototype], which are not entries but are found by a property
    read. *)
Definition ModelRouting : Type := list (string * string).

(** The names of the properties of [Object.prototype]: eleven functions, and
    the accessor [__proto__], which reads as [Object.prototype] itself. *)
Definition Object_prototype_members : list string :=
  ["constructor"; "__defineGetter__"; "__defineSetter__"; "hasOwnProperty";
   "__lookupGetter__"; "__lookupSetter__"; "isPrototypeOf"; "propertyIsEnumerable";
   "toString"; "valueOf"; "__proto__"; "toLocaleString"].

(** What a property read on the routing object evaluates to, and so what
    [resolveModel], declared to return [string], can return. *)
Inductive Value : Type :=
| str (s : string)          (* a string *)
| member (name : string)    (* the property [name] of [Object.prototype] *)
| undefined.

(** [Boolean(v)]: functions and objects are truthy. *)
Definition Value_truthy (v : Value) : bool :=
  match v with
  | str s => truthy s
  | member _ => true
  | undefined => false
  end.

Record ProviderConfig : Type := {
  baseUrl : string;
  model : string;
  apiKey : option string;
  modelRouting : option ModelRouting
}.

Record Config : Type := {
  provider : Provider;
  port : Z;
  Config_lmstudio : ProviderConfig;
  Config_ollama : ProviderConfig
}.

(** [config[config.provider]] *)
Definition provider_config (config : Config) : ProviderConfig :=
  match provider config with
  | lmstudio => Config_lmstudio config
  | ollama => Config_ollama config
  end.

(** The value of the own property [name] of the routing object. *)
Fixpoint own_entry (routing : ModelRouting) (name : string) : option string :=
  match routing with
  | [] => None
  | (key, value) :: rest =>
      if String.eqb key name then Some value else own_entry rest name
  end.

(** [routing[name]]: the own property if there is one, else the inherited
    one, else [undefined]. *)
Definition routing_get (routing : ModelRouting) (name : string) : Value :=
  match own_entry routing name with
  | Some value => str value
  | None =>
      if bool_decide (name ∈ Object_prototype_members) then member name else undefined
  end.

(** The [for ... of Object.entries(routing)] loop of [resolveModel]: the
    value of the first entry whose key the requested name starts with. *)
Fixpoint first_prefix_match (entries : ModelRouting) (requestedModel : string) : option string :=
  match entries with
  | [] => None
  | (pattern, localModel) :: rest =>
      if startsWith requestedModel pattern then Some localModel
      else first_prefix_match rest requestedModel
  end.

Definition resolveModel (config : Config) (requestedModel : string) : Value :=
  let providerConfig := provider_config config in
  let routing := default [] (modelRouting providerConfig) in
  if Value_truthy (routing_get routing requestedModel) then
    routing_get routing requestedModel
  else
    match first_prefix_match routing requestedModel with
    | Some localModel => str localModel
    | None => str (model providerConfig)
    end.

Definition DEFAULT_CONFIG : Config := {|
  provider := lmstudio;
  port := 9001;
  Config_lmstudio := {|
    baseUrl := "http://localhost:1234/v1";
    model := "local-model";
    apiKey := None;
    modelRouting := Some [
      ("claude-opus-4", "local-model");
      ("claude-sonnet-4", "local-model");
      ("claude-3-5-sonnet", "local-model");
      ("claude-3-5-haiku", "local-model");
      ("claude-3-opus", "local-model");
      ("claude-3-sonnet", "local-model");
      ("claude-3-haiku", "local-model")]
  |};
  Config_ollama := {|
    baseUrl := "http://localhost:11434/v1";
    model := "llama3:8b";
    apiKey := None;
    modelRouting := Some [
      ("claude-opus-4", "llama3:70b");
      ("claude-sonnet-4", "llama3:8b");
      ("claude-3-5-sonnet", "llama3:8b");
      ("claude-3-5-haiku", "phi3:mini");
      ("claude-3-opus", "llama3:70b");
      ("claude-3-sonnet", "llama3:8b");
      ("claude-3-haiku", "phi3:mini")]
  |}
|}.


(** [setProvider] without the file I/O around it. *)
Definition with_provider (p : Provider) (config : Config) : Config :=
  {| provider := p; port := port config;
     Config_lmstudio := Config_lmstudio config;
     Config_ollama := Config_ollama config |}.

End Config.

(** ** src/providers/base.ts *)

Module Base.
Import JS Float64 Json Config.

(** *** Client side (src/types.ts) *)

Inductive ClaudeRole : Type := role_user | role_assistant.

(** [string | ClaudeTextBlock[]]: a text block is kept as its [text]. *)
Inductive ToolResultContent : Type :=
| ResultString (s : string)
| ResultBlocks (texts : list string).

Inductive ClaudeContentBlock : Type :=
| ClaudeTextBlock (text : string)
| ClaudeToolUseBlock (id name : string) (input : json)
| ClaudeToolResultBlock (tool_use_id : string) (content : ToolResultContent) (is_error : option bool)
| ClaudeImageBlock (source : json)
| ClaudeThinkingBlock (thinking signature : string)
| ClaudeRedactedThinkingBlock (data : string)
| ClaudeDocumentBlock (source : json) (cache_control : option json).

(** [string | ClaudeContentBlock[]] *)
Inductive MessageContent : Type :=
| ContentString (s : string)
| ContentBlocks (blocks : list ClaudeContentBlock).

Record ClaudeMessage : Type := {
  role : ClaudeRole;
  content : MessageContent
}.

Record ClaudeSystemBlock : Type := {
  sys_text : string;
  sys_cache_control : option json
}.

Inductive ClaudeSystem : Type :=
| SystemString (s : string)
| SystemBlocks (blocks : list ClaudeSystemBlock).

Record ClaudeTool : Type := {
  tool_name : string;
  tool_description : string;
  tool_input_schema : json
}.

(** The argument of [convertClaudeToolChoiceToOpenAI]: [{ type: string; name?: string }]. *)
Record ClaudeToolChoice : Type := {
  choice_type : string;
  choice_name : option string
}.

Record ClaudeRequest : Type := {
  req_model : string;
  req_max_tokens : Z;
  req_messages : list ClaudeMessage;
  req_system : option ClaudeSystem;
  req_temperature : option Q;
  req_top_p : option Q;
  req_top_k : option Q;
  req_stream : option bool;
  req_tools : option (list ClaudeTool);
  req_tool_choice : option ClaudeToolChoice;
  req_stop_sequences : option (list string)
}.

Record ClaudeUsage : Type := {
  input_tokens : Z;
  output_tokens : Z
}.

(** [type] is always ['message'] and [role] always ['assistant']. *)
Record ClaudeResponse : Type := {
  resp_id : string;
  resp_content : list ClaudeContentBlock;
  resp_model : string;
  resp_stop_reason : option string;
  resp_stop_sequence : option string;
  resp_usage : ClaudeUsage
}.

(** *** Backend side (src/types.ts) *)

Inductive OpenAIRole : Type := system | user | assistant | tool.

(** [type] is always ['function']. *)
Record OpenAIToolCall : Type := {
  call_id : string;
  function_name : string;
  function_arguments : string
}.

Record OpenAIMessage : Type := {
  msg_role : OpenAIRole;
  msg_content : option string;
  msg_tool_calls : option (list OpenAIToolCall);
  msg_tool_call_id : option string
}.

Record OpenAITool : Type := {
  fn_name : string;
  fn_description : string;
  fn_parameters : json
}.

Inductive OpenAIToolChoice : Type :=
| choice_auto
| choice_none
| choice_required
| choice_function (name : string).

Record OpenAIRequest : Type := {
  oa_model : string;
  oa_messages : list OpenAIMessage;
  oa_max_tokens : option Z;
  oa_temperature : option Q;
  oa_top_p : option Q;
  oa_top_k : option Q;
  oa_stream : option bool;
  oa_tools : option (list OpenAITool);
  oa_tool_choice : option OpenAIToolChoice;
  oa_stop : option (list string)
}.

(** The [message] of a choice; the code reads it through [?.]. *)
Record OpenAIChoiceMessage : Type := {
  cm_content : option string;
  cm_tool_calls : option (list OpenAIToolCall)
}.

Record OpenAIChoice : Type := {
  choice_message : option OpenAIChoiceMessage;
  choice_finish_reason : option string
}.

Record OpenAIUsage : Type := {
  prompt_tokens : option Z;
  completion_tokens : option Z
}.

Record OpenAIResponse : Type := {
  oa_id : string;
  oa_choices : list OpenAIChoice;
  oa_usage : option OpenAIUsage
}.

(** *** class BaseProvider *)

Record BaseProvider : Type := {
  config : ProviderConfig;
  modelOverride : option string
}.

Definition setModelOverride (self : BaseProvider) (m : string) : BaseProvider :=
  {| config := config self; modelOverride := Some m |}.

Definition clearModelOverride (self : BaseProvider) : BaseProvider :=
  {| config := config self; modelOverride := None |}.

Definition getEffectiveModel (self : BaseProvider) : string :=
  or_else (modelOverride self) (model (config self)).

Definition extractSystemContent (sys : ClaudeSystem) : string :=
  match sys with
  | SystemString s => s
  | SystemBlocks blocks => join (String newline (String newline EmptyString)) (List.map sys_text blocks)
  end.

(** The three arrays the grouping loop of [convertClaudeMessageToOpenAI] fills. *)
Record BlockGroups : Type := {
  textBlocks : list string;
  toolUseBlocks : list (string * string * json);
  toolResultBlocks : list (string * ToolResultContent)
}.

Definition no_groups : BlockGroups :=
  {| textBlocks := []; toolUseBlocks := []; toolResultBlocks := [] |}.

(** One iteration of [for (const block of msg.content)]. *)
Definition group_block (g : BlockGroups) (block : ClaudeContentBlock) : BlockGroups :=
  match block with
  | ClaudeTextBlock t =>
      {| textBlocks := textBlocks g ++ [t];
         toolUseBlocks := toolUseBlocks g;
         toolResultBlocks := toolResultBlocks g |}
  | ClaudeToolUseBlock i n inp =>
      {| textBlocks := textBlocks g;
         toolUseBlocks := toolUseBlocks g ++ [(i, n, inp)];
         toolResultBlocks := toolResultBlocks g |}
  | ClaudeToolResultBlock i c _ =>
      {| textBlocks := textBlocks g;
         toolUseBlocks := toolUseBlocks g;
         toolResultBlocks := toolResultBlocks g ++ [(i, c)] |}
  | _ => g
  end.

Definition group_blocks (blocks : list ClaudeContentBlock) : BlockGroups :=
  fold_left group_block blocks no_groups.

Definition toolCall_of (b : string * string * json) : OpenAIToolCall :=
  let '(i, n, inp) := b in
  {| call_id := i; function_name := n; function_arguments := JSON_stringify inp |}.

Definition resultContent (c : ToolResultContent) : string :=
  match c with
  | ResultString s => s
  | ResultBlocks texts => join (String newline EmptyString) texts
  end.

Definition tool_message (b : string * ToolResultContent) : OpenAIMessage :=
  {| msg_role := tool;
     msg_content := Some (resultContent (snd b));
     msg_tool_calls := None;
     msg_tool_call_id := Some (fst b) |}.

(** [role: msg.role] *)
Definition OpenAIRole_of (r : ClaudeRole) : OpenAIRole :=
  match r with
  | role_user => user
  | role_assistant => assistant
  end.

Definition convertClaudeMessageToOpenAI (msg : ClaudeMessage) : list OpenAIMessage :=
  match content msg with
  | ContentString s =>
      [ {| msg_role := OpenAIRole_of (role msg); msg_content := Some s;
           msg_tool_calls := None; msg_tool_call_id := None |} ]
  | ContentBlocks blocks =>
      let g := group_blocks blocks in
      match role msg with
      | role_assistant =>
          let textContent := or_null (join (String newline EmptyString) (textBlocks g)) in
          if (0 <? length (toolUseBlocks g))%nat then
            [ {| msg_role := assistant; msg_content := textContent;
                 msg_tool_calls := Some (List.map toolCall_of (toolUseBlocks g));
                 msg_tool_call_id := None |} ]
          else
            [ {| msg_role := assistant; msg_content := Some (or_else textContent EmptyString);
                 msg_tool_calls := None; msg_tool_call_id := None |} ]
      | role_user =>
          List.map tool_message (toolResultBlocks g) ++
          (if (0 <? length (textBlocks g))%nat then
             [ {| msg_role := user;
                  msg_content := Some (join (String newline EmptyString) (textBlocks g));
                  msg_tool_calls := None; msg_tool_call_id := None |} ]
           else [])
      end
  end.

Definition convertClaudeToolsToOpenAI (tools : list ClaudeTool) : list OpenAITool :=
  List.map (fun t => {| fn_name := tool_name t; fn_description := tool_description t;
                        fn_parameters := tool_input_schema t |}) tools.

Definition convertClaudeToolChoiceToOpenAI (toolChoice : ClaudeToolChoice) : OpenAIToolChoice :=
  if String.eqb (choice_type toolChoice) "auto" then choice_auto
  else if String.eqb (choice_type toolChoice) "any" then choice_required
  else if String.eqb (choice_type toolChoice) "tool" then
    if truthy_opt (choice_name toolChoice)
    then choice_function (default EmptyString (choice_name toolChoice))
    else choice_required
  else choice_auto.

(** [if (request.system)]: an empty string is falsy, an array never is. *)
Definition system_present (sys : option ClaudeSystem) : bool :=
  match sys with
  | Some (SystemString s) => truthy s
  | Some (SystemBlocks _) => true
  | None => false
  end.

(** [if (xs && xs.length > 0)] *)
Definition non_empty {A : Type} (xs : option (list A)) : option (list A) :=
  match xs with
  | Some (x :: rest) => Some (x :: rest)
  | _ => None
  end.

Definition convertClaudeToOpenAI (self : BaseProvider) (request : ClaudeRequest) : OpenAIRequest :=
  let system_messages :=
    if system_present (req_system request) then
      match req_system request with
      | Some sys => [ {| msg_role := system; msg_content := Some (extractSystemContent sys);
                         msg_tool_calls := None; msg_tool_call_id := None |} ]
      | None => []
      end
    else [] in
  {| oa_model := getEffectiveModel self;
     oa_messages :=
       system_messages ++ List.concat (List.map convertClaudeMessageToOpenAI (req_messages request));
     oa_max_tokens := Some (req_max_tokens request);
     oa_temperature := req_temperature request;
     oa_top_p := req_top_p request;
     oa_top_k := req_top_k request;
     oa_stream := req_stream request;
     oa_tools := option_map convertClaudeToolsToOpenAI (non_empty (req_tools request));
     oa_tool_choice := option_map convertClaudeToolChoiceToOpenAI (req_tool_choice request);
     oa_stop := non_empty (req_stop_sequences request) |}.

Definition mapFinishReason (reason : option string) : string :=
  match reason with
  | Some r =>
      if String.eqb r "stop" then "end_turn"
      else if String.eqb r "length" then "max_tokens"
      else if String.eqb r "content_filter" then "stop_sequence"
      else if String.eqb r "tool_calls" then "tool_use"
      else "end_turn"
  | None => "end_turn"
  end.

(** [JSON.parse(toolCall.function.arguments || '{}')], [None] when it throws. *)
Definition decoded_input (toolCall : OpenAIToolCall) : option json :=
  JSON_parse (or_else (Some (function_arguments toolCall)) "{}").

(** The [for (const toolCall of choice.message.tool_calls)] loop: the first
    argument string [JSON.parse] rejects throws out of the whole translation. *)
Fixpoint tool_use_blocks (tool_calls : list OpenAIToolCall) : Completion (list ClaudeContentBlock) :=
  match tool_calls with
  | [] => Return []
  | toolCall :: rest =>
      match decoded_input toolCall with
      | None => Throw SyntaxError
      | Some input =>
          bind (tool_use_blocks rest) (fun blocks =>
            Return (ClaudeToolUseBlock (call_id toolCall) (function_name toolCall) input :: blocks))
      end
  end.

Definition convertOpenAIToClaude (response : OpenAIResponse) (originalModel : string)
  : Completion ClaudeResponse :=
  let choice := head (oa_choices response) in
  let message := choice ≫= choice_message in
  let text_part :=
    match message ≫= cm_content with
    | Some c => if truthy c then [ClaudeTextBlock c] else []
    | None => []
    end in
  bind (tool_use_blocks (default [] (message ≫= cm_tool_calls))) (fun tool_part =>
    let content := text_part ++ tool_part in
    let content := if (length content =? 0)%nat then [ClaudeTextBlock EmptyString] else content in
    Return {|
      resp_id := "msg_" +:+ oa_id response;
      resp_content := content;
      resp_model := originalModel;
      resp_stop_reason := Some (mapFinishReason (choice ≫= choice_finish_reason));
      resp_stop_sequence := None;
      resp_usage := {|
        input_tokens := num_or_else (oa_usage response ≫= prompt_tokens) 0;
        output_tokens := num_or_else (oa_usage response ≫= completion_tokens) 0 |}
    |}).

(** *** [LMStudioProvider.complete] (src/providers/lmstudio.ts)

    [makeRequest] is the backend's answer to the translated request and
    [getHelpfulError] the diagnostic that may replace a thrown error; both
    are I/O and enter as functions. *)
Definition with_stream (r : OpenAIRequest) (s : option bool) : OpenAIRequest :=
  {| oa_model := oa_model r; oa_messages := oa_messages r; oa_max_tokens := oa_max_tokens r;
     oa_temperature := oa_temperature r; oa_top_p := oa_top_p r; oa_top_k := oa_top_k r;
     oa_stream := s; oa_tools := oa_tools r; oa_tool_choice := oa_tool_choice r;
     oa_stop := oa_stop r |}.

Definition complete (self : BaseProvider)
    (makeRequest : OpenAIRequest -> Completion OpenAIResponse)
    (getHelpfulError : Error -> Error)
    (request : ClaudeRequest) : Completion ClaudeResponse :=
  let openAIRequest := with_stream (convertClaudeToOpenAI self request) (Some false) in
  match bind (makeRequest openAIRequest)
             (fun response => convertOpenAIToClaude response (req_model request)) with
  | Return r => Return r
  | Throw e => Throw (getHelpfulError e)
  end.

(** *** Vocabulary for stating properties of the translators *)

Definition is_text_block (b : ClaudeContentBlock) : bool :=
  match b with ClaudeTextBlock _ => true | _ => false end.

Definition is_tool_use_block (b : ClaudeContentBlock) : bool :=
  match b with ClaudeToolUseBlock _ _ _ => true | _ => false end.

Definition is_tool_result_block (b : ClaudeContentBlock) : bool :=
  match b with ClaudeToolResultBlock _ _ _ => true | _ => false end.

(** The block types the request translator reads. *)
Definition is_translated (b : ClaudeContentBlock) : bool :=
  is_text_block b || is_tool_use_block b || is_tool_result_block b.

(** The text blocks of a content array, in order. *)
Definition block_texts (blocks : list ClaudeContentBlock) : list string :=
  omap (fun b => match b with ClaudeTextBlock t => Some t | _ => None end) blocks.

(** Its tool-use blocks: id, name, input. *)
Definition block_tool_uses (blocks : list ClaudeContentBlock) : list (string * string * json) :=
  omap (fun b => match b with ClaudeToolUseBlock i n inp => Some (i, n, inp) | _ => None end) blocks.

(** Its tool-result blocks: tool-use id, content. *)
Definition block_tool_results (blocks : list ClaudeContentBlock)
  : list (string * ToolResultContent) :=
  omap (fun b => match b with ClaudeToolResultBlock i c _ => Some (i, c) | _ => None end) blocks.

(** A message without the blocks the translator does not read. *)
Definition prune_message (msg : ClaudeMessage) : ClaudeMessage :=
  match content msg with
  | ContentString _ => msg
  | ContentBlocks blocks =>
      {| role := role msg; content := ContentBlocks (List.filter is_translated blocks) |}
  end.

Definition prune_request (request : ClaudeRequest) : ClaudeRequest :=
  {| req_model := req_model request; req_max_tokens := req_max_tokens request;
     req_messages := List.map prune_message (req_messages request);
     req_system := req_system request; req_temperature := req_temperature request;
     req_top_p := req_top_p request; req_top_k := req_top_k request;
     req_stream := req_stream request; req_tools := req_tools request;
     req_tool_choice := req_tool_choice request;
     req_stop_sequences := req_stop_sequences request |}.

(** The backend message of role [user] carrying [texts]. *)
Definition user_text_message (texts : list string) : OpenAIMessage :=
  {| msg_role := user; msg_content := Some (join (String newline EmptyString) texts);
     msg_tool_calls := None; msg_tool_call_id := None |}.

(** *** The scenario of the specification's §8 *)

Definition hello_request : ClaudeRequest :=
  {| req_model := "claude-3-5-sonnet-20241022"; req_max_tokens := 1024;
     req_messages := [ {| role := role_user; content := ContentString "hi" |} ];
     req_system := None; req_temperature := None; req_top_p := None; req_top_k := None;
     req_stream := Some false; req_tools := None; req_tool_choice := None;
     req_stop_sequences := None |}.

(** The same request for another model. *)
Definition request_for (name : string) : ClaudeRequest :=
  {| req_model := name; req_max_tokens := 1024;
     req_messages := [ {| role := role_user; content := ContentString "hi" |} ];
     req_system := None; req_temperature := None; req_top_p := None; req_top_k := None;
     req_stream := Some false; req_tools := None; req_tool_choice := None;
     req_stop_sequences := None |}.

Definition hello_response : OpenAIResponse :=
  {| oa_id := "chatcmpl-1";
     oa_choices := [ {| choice_message := Some {| cm_content := Some "hello"; cm_tool_calls := None |};
                        choice_finish_reason := Some "stop" |} ];
     oa_usage := Some {| prompt_tokens := Some 5%Z; completion_tokens := Some 3%Z |} |}.

(** The Ollama provider as the server leaves it after
    [provider.setModelOverride(resolvedModel)], for a model name. *)
Definition routed_provider (resolvedModel : string) : BaseProvider :=
  setModelOverride
    {| config := Config_ollama DEFAULT_CONFIG; modelOverride := None |}
    resolvedModel.

(** A response whose only tool call carries an argument string with blanks,
    a number written with an exponent, a key twice and an index key. *)
Definition spaced_response : OpenAIResponse :=
  {| oa_id := "chatcmpl-4";
     oa_choices :=
       [ {| choice_message :=
              Some {| cm_content := None;
                      cm_tool_calls :=
                        Some [ {| call_id := "call_1"; function_name := "get_weather";
                                  function_arguments :=
                                    wire "{ 'city' : 'Rome', 'days' : 2.50e+1, 'city' : 'Paris', '7' : true }" |} ] |};
            choice_finish_reason := Some "tool_calls" |} ];
     oa_usage := None |}.

(** A response whose only tool call carries an argument string cut short. *)
Definition truncated_arguments_response : OpenAIResponse :=
  {| oa_id := "chatcmpl-2";
     oa_choices :=
       [ {| choice_message :=
              Some {| cm_content := None;
                      cm_tool_calls :=
                        Some [ {| call_id := "call_1"; function_name := "get_weather";
                                  function_arguments := "{" |} ] |};
            choice_finish_reason := Some "tool_calls" |} ];
     oa_usage := None |}.

(** [extractTextContent] *)
Definition extractTextContent (content : MessageContent) : string :=
  match content with
  | ContentString s => s
  | ContentBlocks blocks =>
      join (String newline EmptyString)
        (List.map (fun b => match b with ClaudeTextBlock t => t | _ => EmptyString end)
           (List.filter is_text_block blocks))
  end.

(** [createProvider] of src/providers/index.ts, on the state every provider
    class inherits from [BaseProvider]. *)
Definition createProvider (config : Config) : BaseProvider :=
  {| Base.config := provider_config config; modelOverride := None |}.

(** The stop reasons the translators can report. *)
Definition stop_reasons : list string := ["end_turn"; "max_tokens"; "stop_sequence"; "tool_use"].

(** The message [convertClaudeToOpenAI] puts first for a system prompt. *)
Definition system_message (text : string) : OpenAIMessage :=
  {| msg_role := system; msg_content := Some text; msg_tool_calls := None;
     msg_tool_call_id := None |}.

(** A tool input, an assistant turn that uses it, and the backend response
    that answers with the same turn. *)
Definition weather_input : json :=
  JObject [("city", JString "Paris"); ("days", JNumber (Double_of_Z 3));
           ("units", JArray [JString "C"; JNull; JBool true; JNumber (Double_of_Z (-1500))])].

Definition weather_turn : list ClaudeContentBlock :=
  [ClaudeTextBlock "Let me check."; ClaudeToolUseBlock "call_1" "get_weather" weather_input].

Definition weather_response : OpenAIResponse :=
  {| oa_id := "chatcmpl-3";
     oa_choices :=
       [ {| choice_message :=
              Some {| cm_content := Some "Let me check.";
                      cm_tool_calls :=
                        Some [ {| call_id := "call_1"; function_name := "get_weather";
                                  function_arguments := JSON_stringify weather_input |} ] |};
            choice_finish_reason := Some "tool_calls" |} ];
     oa_usage := None |}.

End Base.

(** ** The streaming relay: [stream] of src/providers/ollama.ts and
       src/providers/lmstudio.ts *)

Module Relay.
Import JS Json Base.

(** *** Backend stream chunks (src/types.ts) *)

Record StreamFunction : Type := {
  delta_name : option string;
  delta_arguments : option string
}.

Record OpenAIStreamToolCall : Type := {
  index : Z;
  delta_id : option string;
  delta_function : option StreamFunction
}.

(** An element of [tool_calls] is a fragment or [null] ([None]): the handler
    reads [toolCallDelta.index] of every element, which throws on [null]. *)
Record StreamDelta : Type := {
  delta_content : option string;
  delta_tool_calls : option (list (option OpenAIStreamToolCall))
}.

Record StreamChoice : Type := {
  sc_delta : option StreamDelta;
  sc_finish_reason : option string
}.

Record StreamUsage : Type := {
  su_prompt_tokens : option Z
}.

Record OpenAIStreamChunk : Type := {
  chunk_choices : list StreamChoice;
  chunk_usage : option StreamUsage
}.

(** *** Client events: the objects [res.write] serialises *)

Inductive ContentBlockStart : Type :=
| start_text (text : string)
| start_tool_use (id name : string).      (* [input: {}] *)

Inductive BlockDelta : Type :=
| text_delta (text : string)
| input_json_delta (partial_json : string).

Inductive Event : Type :=
| message_start (id model : string)
| content_block_start (idx : nat) (content_block : ContentBlockStart)
| content_block_delta (idx : nat) (delta : BlockDelta)
| content_block_stop (idx : nat)
| message_delta (stop_reason : string) (output_tokens : Z)
| message_stop.

(** *** Session state: the locals of the [httpModule.request] callback *)

Record StreamingToolCall : Type := {
  tc_id : string;
  tc_name : string;
  tc_arguments : string
}.

(** [toolCalls : Map<number, StreamingToolCall>] keeps its entries in the
    order their keys were first set; [clock] counts the [Date.now()] calls
    made so far and [written] is what [res.write] has sent, oldest first. *)
Record Session : Type := {
  inputTokens : Z;
  outputTokens : Z;
  buffer : string;
  hasStartedTextBlock : bool;
  currentBlockIndex : nat;
  finishReason : string;
  toolCalls : list (Z * StreamingToolCall);
  hasToolCalls : bool;
  clock : nat;
  written : list Event
}.

Definition set_inputTokens (v : Z) (s : Session) : Session :=
  {| inputTokens := v; outputTokens := outputTokens s; buffer := buffer s;
     hasStartedTextBlock := hasStartedTextBlock s; currentBlockIndex := currentBlockIndex s;
     finishReason := finishReason s; toolCalls := toolCalls s; hasToolCalls := hasToolCalls s;
     clock := clock s; written := written s |}.

Definition set_outputTokens (v : Z) (s : Session) : Session :=
  {| inputTokens := inputTokens s; outputTokens := v; buffer := buffer s;
     hasStartedTextBlock := hasStartedTextBlock s; currentBlockIndex := currentBlockIndex s;
     finishReason := finishReason s; toolCalls := toolCalls s; hasToolCalls := hasToolCalls s;
     clock := clock s; written := written s |}.

Definition set_buffer (v : string) (s : Session) : Session :=
  {| inputTokens := inputTokens s; outputTokens := outputTokens s; buffer := v;
     hasStartedTextBlock := hasStartedTextBlock s; currentBlockIndex := currentBlockIndex s;
     finishReason := finishReason s; toolCalls := toolCalls s; hasToolCalls := hasToolCalls s;
     clock := clock s; written := written s |}.

Definition set_hasStartedTextBlock (v : bool) (s : Session) : Session :=
  {| inputTokens := inputTokens s; outputTokens := outputTokens s; buffer := buffer s;
     hasStartedTextBlock := v; currentBlockIndex := currentBlockIndex s;
     finishReason := finishReason s; toolCalls := toolCalls s; hasToolCalls := hasToolCalls s;
     clock := clock s; written := written s |}.

Definition set_currentBlockIndex (v : nat) (s : Session) : Session :=
  {| inputTokens := inputTokens s; outputTokens := outputTokens s; buffer := buffer s;
     hasStartedTextBlock := hasStartedTextBlock s; currentBlockIndex := v;
     finishReason := finishReason s; toolCalls := toolCalls s; hasToolCalls := hasToolCalls s;
     clock := clock s; written := written s |}.

Definition set_finishReason (v : string) (s : Session) : Session :=
  {| inputTokens := inputTokens s; outputTokens := outputTokens s; buffer := buffer s;
     hasStartedTextBlock := hasStartedTextBlock s; currentBlockIndex := currentBlockIndex s;
     finishReason := v; toolCalls := toolCalls s; hasToolCalls := hasToolCalls s;
     clock := clock s; written := written s |}.

Definition set_toolCalls (v : list (Z * StreamingToolCall)) (s : Session) : Session :=
  {| inputTokens := inputTokens s; outputTokens := outputTokens s; buffer := buffer s;
     hasStartedTextBlock := hasStartedTextBlock s; currentBlockIndex := currentBlockIndex s;
     finishReason := finishReason s; toolCalls := v; hasToolCalls := hasToolCalls s;
     clock := clock s; written := written s |}.

Definition set_hasToolCalls (v : bool) (s : Session) : Session :=
  {| inputTokens := inputTokens s; outputTokens := outputTokens s; buffer := buffer s;
     hasStartedTextBlock := hasStartedTextBlock s; currentBlockIndex := currentBlockIndex s;
     finishReason := finishReason s; toolCalls := toolCalls s; hasToolCalls := v;
     clock := clock s; written := written s |}.

Definition set_clock (v : nat) (s : Session) : Session :=
  {| inputTokens := inputTokens s; outputTokens := outputTokens s; buffer := buffer s;
     hasStartedTextBlock := hasStartedTextBlock s; currentBlockIndex := currentBlockIndex s;
     finishReason := finishReason s; toolCalls := toolCalls s; hasToolCalls := hasToolCalls s;
     clock := v; written := written s |}.

(** [res.write(...)] *)
Definition write (e : Event) (s : Session) : Session :=
  {| inputTokens := inputTokens s; outputTokens := outputTokens s; buffer := buffer s;
     hasStartedTextBlock := hasStartedTextBlock s; currentBlockIndex := currentBlockIndex s;
     finishReason := finishReason s; toolCalls := toolCalls s; hasToolCalls := hasToolCalls s;
     clock := clock s; written := written s ++ [e] |}.

(** *** [Map<number, StreamingToolCall>] *)

Definition Map_has (m : list (Z * StreamingToolCall)) (k : Z) : bool :=
  existsb (fun kv => (fst kv =? k)%Z) m.

Fixpoint Map_get (m : list (Z * StreamingToolCall)) (k : Z) : option StreamingToolCall :=
  match m with
  | [] => None
  | (k', v) :: rest => if (k' =? k)%Z then Some v else Map_get rest k
  end.

(** [m.set(k, v)] for a key [m] does not have yet. *)
Definition Map_set_new (m : list (Z * StreamingToolCall)) (k : Z) (v : StreamingToolCall)
  : list (Z * StreamingToolCall) := m ++ [(k, v)].

(** In-place mutation of the object stored under [k]. *)
Definition Map_mutate (m : list (Z * StreamingToolCall)) (k : Z)
    (f : StreamingToolCall -> StreamingToolCall) : list (Z * StreamingToolCall) :=
  List.map (fun kv => if (fst kv =? k)%Z then (fst kv, f (snd kv)) else kv) m.

Section stream.

(** [Date_now n] is what the [n]-th call of [Date.now()] in the session
    returns; [JSON_parse_chunk data] is [JSON.parse(data) as OpenAIStreamChunk],
    [None] when the [try] block is left for its [catch] before it changes
    anything ([JSON.parse] throws, or [parsed.choices] is not there to index).
    Past that point the block changes the session as it goes, and what it has
    done by the time it throws is not undone. *)
Variable Date_now : nat -> Z.
Variable JSON_parse_chunk : string -> option OpenAIStreamChunk.

(** [`toolu_${Date.now()}_${tcIndex}`] *)
Definition generated_id (now tcIndex : Z) : string :=
  "toolu_" +:+ Number_toString now +:+ "_" +:+ Number_toString tcIndex.

(** The updates of one [toolCallDelta] to the object [tc] it addresses. *)
Definition merge_delta (toolCallDelta : OpenAIStreamToolCall) (tc : StreamingToolCall)
  : StreamingToolCall :=
  {| tc_id := or_else (delta_id toolCallDelta) (tc_id tc);
     tc_name := or_else (delta_function toolCallDelta ≫= delta_name) (tc_name tc);
     tc_arguments :=
       tc_arguments tc +:+ or_else (delta_function toolCallDelta ≫= delta_arguments) EmptyString |}.

(** Body of [for (const toolCallDelta of deltaToolCalls)], on what it reads
    and changes: the map and the number of [Date.now()] calls made. *)
Definition tool_call_step (st : list (Z * StreamingToolCall) * nat)
    (toolCallDelta : OpenAIStreamToolCall) : list (Z * StreamingToolCall) * nat :=
  let tcIndex := index toolCallDelta in
  let st1 :=
    if Map_has st.1 tcIndex then st
    else
      let name := or_else (delta_function toolCallDelta ≫= delta_name) EmptyString in
      if truthy_opt (delta_id toolCallDelta) then
        (Map_set_new st.1 tcIndex
           {| tc_id := default EmptyString (delta_id toolCallDelta);
              tc_name := name; tc_arguments := EmptyString |}, st.2)
      else
        (Map_set_new st.1 tcIndex
           {| tc_id := generated_id (Date_now st.2) tcIndex;
              tc_name := name; tc_arguments := EmptyString |}, S st.2) in
  (Map_mutate st1.1 tcIndex (merge_delta toolCallDelta), st1.2).

Definition handle_tool_call_delta (s : Session) (toolCallDelta : OpenAIStreamToolCall) : Session :=
  let st := tool_call_step (toolCalls s, clock s) toolCallDelta in
  set_clock st.2 (set_toolCalls st.1 s).

(** [if (content) { ... }] *)
Definition handle_content (s : Session) (content : option string) : Session :=
  if truthy_opt content then
    let s1 :=
      if hasStartedTextBlock s then s
      else set_hasStartedTextBlock true
             (write (content_block_start (currentBlockIndex s) (start_text EmptyString)) s) in
    let s2 := set_outputTokens (outputTokens s1 + 1) s1 in
    write (content_block_delta (currentBlockIndex s2)
             (text_delta (default EmptyString content))) s2
  else s.

(** [for (const toolCallDelta of deltaToolCalls) { ... }]: the loop stops at
    the first [null], where [toolCallDelta.index] throws, with the session as
    the elements before it have left it. *)
Fixpoint handle_tool_call_deltas (s : Session) (deltaToolCalls : list (option OpenAIStreamToolCall))
  : Completion unit * Session :=
  match deltaToolCalls with
  | [] => (Return tt, s)
  | Some toolCallDelta :: rest =>
      handle_tool_call_deltas (handle_tool_call_delta s toolCallDelta) rest
  | None :: _ => (Throw TypeError, s)
  end.

(** [if (deltaToolCalls && deltaToolCalls.length > 0) { ... }] *)
Definition handle_tool_calls (s : Session)
    (deltaToolCalls : option (list (option OpenAIStreamToolCall)))
  : Completion unit * Session :=
  match deltaToolCalls with
  | Some (d :: ds) => handle_tool_call_deltas (set_hasToolCalls true s) (d :: ds)
  | _ => (Return tt, s)
  end.

(** The [try] block, once [JSON.parse] has answered: the text, the tool
    calls, the finish reason, the usage.  When the tool-call loop throws, the
    rest of the block is not run. *)
Definition handle_chunk (s : Session) (parsed : OpenAIStreamChunk) : Completion unit * Session :=
  let choice := head (chunk_choices parsed) in
  let content := (choice ≫= sc_delta) ≫= delta_content in
  let deltaToolCalls := (choice ≫= sc_delta) ≫= delta_tool_calls in
  let s1 := handle_content s content in
  match handle_tool_calls s1 deltaToolCalls with
  | (Throw e, s2) => (Throw e, s2)
  | (Return _, s2) =>
      let s3 :=
        if truthy_opt (choice ≫= sc_finish_reason)
        then set_finishReason (mapFinishReason (choice ≫= sc_finish_reason)) s2
        else s2 in
      (Return tt,
       match chunk_usage parsed with
       | Some usage => set_inputTokens (num_or_else (su_prompt_tokens usage) (inputTokens s3)) s3
       | None => s3
       end)
  end.

(** Body of [for (const line of lines)].  The [catch] is empty: a block that
    threw leaves the session as it was at the throw. *)
Definition handle_line (s : Session) (line : string) : Session :=
  if startsWith line "data: " then
    let data := slice_from 6 line in
    if String.eqb data "[DONE]" then s
    else
      match JSON_parse_chunk data with
      | Some parsed => (handle_chunk s parsed).2
      | None => s
      end
  else s.

(** [upstream.on('data', (chunk: Buffer) => ...)] *)
Definition on_data (s : Session) (chunk : string) : Session :=
  let lines := split_newline (buffer s +:+ Buffer_toString chunk) in
  let s1 := set_buffer (List.last lines EmptyString) s in
  fold_left handle_line (removelast lines) s1.

(** One round of [for (const [, tc] of toolCalls)]. *)
Definition emit_tool_block (s : Session) (tc : StreamingToolCall) : Session :=
  let s1 := write (content_block_start (currentBlockIndex s)
                     (start_tool_use (tc_id tc) (tc_name tc))) s in
  let s2 :=
    if truthy (tc_arguments tc)
    then write (content_block_delta (currentBlockIndex s1) (input_json_delta (tc_arguments tc))) s1
    else s1 in
  let s3 := write (content_block_stop (currentBlockIndex s2)) s2 in
  set_currentBlockIndex (S (currentBlockIndex s3)) s3.

(** [upstream.on('end', ...)] *)
Definition on_end (s : Session) : Session :=
  let s1 :=
    if hasStartedTextBlock s then
      let s' := write (content_block_stop (currentBlockIndex s)) s in
      set_currentBlockIndex (S (currentBlockIndex s')) s'
    else s in
  let s2 :=
    if hasToolCalls s1 then fold_left emit_tool_block (List.map snd (toolCalls s1)) s1
    else s1 in
  let s3 :=
    if negb (hasStartedTextBlock s2) && negb (hasToolCalls s2) then
      write (content_block_stop 0) (write (content_block_start 0 (start_text EmptyString)) s2)
    else s2 in
  write message_stop (write (message_delta (finishReason s3) (outputTokens s3)) s3).

(** The session as the response callback sets it up, [message_start] sent. *)
Definition session_start (messageId requestModel : string) : Session :=
  {| inputTokens := 0; outputTokens := 0; buffer := EmptyString;
     hasStartedTextBlock := false; currentBlockIndex := 0; finishReason := "end_turn";
     toolCalls := []; hasToolCalls := false; clock := 0;
     written := [message_start messageId requestModel] |}.

(** The session after the backend's chunks, each the bytes of one [Buffer],
    before the stream ends. *)
Definition data_phase (messageId requestModel : string) (chunks : list string) : Session :=
  fold_left on_data chunks (session_start messageId requestModel).

(** Everything written to the client in a session whose backend stream
    delivers [chunks] and then ends. *)
Definition stream (messageId requestModel : string) (chunks : list string) : list Event :=
  written (on_end (data_phase messageId requestModel chunks)).

(** *** What a session received, for stating properties *)

(** The complete lines the [data] handler loops over, chunk after chunk,
    from a pending [buffer]. *)
Fixpoint session_lines (pending : string) (chunks : list string) : list string :=
  match chunks with
  | [] => []
  | chunk :: rest =>
      let lines := split_newline (pending +:+ Buffer_toString chunk) in
      removelast lines ++ session_lines (List.last lines EmptyString) rest
  end.

(** The chunk a line hands to the [try] block, if any. *)
Definition line_chunk (line : string) : option OpenAIStreamChunk :=
  if startsWith line "data: " then
    let data := slice_from 6 line in
    if String.eqb data "[DONE]" then None else JSON_parse_chunk data
  else None.

Definition session_chunks (chunks : list string) : list OpenAIStreamChunk :=
  omap line_chunk (session_lines EmptyString chunks).

(** The text a chunk carries, when it is truthy. *)
Definition chunk_text (parsed : OpenAIStreamChunk) : option string :=
  or_null (default EmptyString ((head (chunk_choices parsed) ≫= sc_delta) ≫= delta_content)).

(** The elements of a [tool_calls] array the loop gets through: those before
    its first [null]. *)
Fixpoint read_fragments (deltaToolCalls : list (option OpenAIStreamToolCall))
  : list OpenAIStreamToolCall :=
  match deltaToolCalls with
  | Some toolCallDelta :: rest => toolCallDelta :: read_fragments rest
  | _ => []
  end.

(** The [tool_calls] array of a chunk, empty when it has none. *)
Definition chunk_tool_calls (parsed : OpenAIStreamChunk) : list (option OpenAIStreamToolCall) :=
  default [] ((head (chunk_choices parsed) ≫= sc_delta) ≫= delta_tool_calls).

(** The tool-call delta fragments of a chunk that the handler reads. *)
Definition chunk_fragments (parsed : OpenAIStreamChunk) : list OpenAIStreamToolCall :=
  read_fragments (chunk_tool_calls parsed).

(** Whether the [try] block throws on the chunk: its [tool_calls] hold a
    [null]. *)
Definition chunk_throws (parsed : OpenAIStreamChunk) : bool :=
  existsb (fun d => negb (bool_decide (is_Some d))) (chunk_tool_calls parsed).

(** The text fragments of a session, in arrival order. *)
Definition session_texts (chunks : list string) : list string :=
  omap chunk_text (session_chunks chunks).

(** Its tool-call delta fragments, in arrival order. *)
Definition session_fragments (chunks : list string) : list OpenAIStreamToolCall :=
  List.concat (List.map chunk_fragments (session_chunks chunks)).

(** The tool calls they accumulate to, in the order the slots first appear. *)
Definition session_tool_calls (chunks : list string) : list (Z * StreamingToolCall) :=
  (fold_left tool_call_step (session_fragments chunks) ([], 0%nat)).1.

(** Whether a chunk of the session had a [tool_calls] array that is not
    empty: what [hasToolCalls] records. *)
Definition session_hasToolCalls (chunks : list string) : bool :=
  existsb (fun parsed => negb (bool_decide (chunk_tool_calls parsed = [])))
    (session_chunks chunks).

End stream.

(** The argument text of the fragments addressed to [slot], in arrival order. *)
Definition fragment_arguments (d : OpenAIStreamToolCall) : string :=
  or_else (delta_function d ≫= delta_arguments) EmptyString.

Fixpoint slot_arguments (slot : Z) (fragments : list OpenAIStreamToolCall) : string :=
  match fragments with
  | [] => EmptyString
  | d :: rest =>
      (if (index d =? slot)%Z then fragment_arguments d else EmptyString)
      +:+ slot_arguments slot rest
  end.

(** The stop reason after a chunk, [reason] being the one before it: a
    chunk the handler throws on does not get as far as its finish reason. *)
Definition chunk_stop_reason (reason : string) (parsed : OpenAIStreamChunk) : string :=
  if chunk_throws parsed then reason
  else if truthy_opt (head (chunk_choices parsed) ≫= sc_finish_reason)
  then mapFinishReason (head (chunk_choices parsed) ≫= sc_finish_reason)
  else reason.

(** The stop reason of a session: the last one a chunk brought, translated,
    and ["end_turn"] if none did. *)
Definition session_stop_reason (JSON_parse_chunk : string -> option OpenAIStreamChunk)
    (chunks : list string) : string :=
  fold_left chunk_stop_reason (session_chunks JSON_parse_chunk chunks) "end_turn".

(** The last truthy value [get] finds in the fragments addressed to [slot]. *)
Fixpoint slot_last (get : OpenAIStreamToolCall -> option string) (slot : Z)
    (fragments : list OpenAIStreamToolCall) : option string :=
  match fragments with
  | [] => None
  | d :: rest =>
      match slot_last get slot rest with
      | Some v => Some v
      | None => if (index d =? slot)%Z && truthy_opt (get d) then get d else None
      end
  end.

Definition fragment_name (d : OpenAIStreamToolCall) : option string :=
  delta_function d ≫= delta_name.

(** The accumulator [tc0] after the fragments addressed to [slot] have been
    merged into it. *)
Definition settle (tc0 : StreamingToolCall) (slot : Z)
    (fragments : list OpenAIStreamToolCall) : StreamingToolCall :=
  {| tc_id := default (tc_id tc0) (slot_last delta_id slot fragments);
     tc_name := default (tc_name tc0) (slot_last fragment_name slot fragments);
     tc_arguments := tc_arguments tc0 +:+ slot_arguments slot fragments |}.

(** An accumulator with a generated id and nothing merged into it yet. *)
Definition blank_call (generated : string) : StreamingToolCall :=
  {| tc_id := generated; tc_name := EmptyString; tc_arguments := EmptyString |}.

(** Whether a fragment is addressed to [slot]. *)
Definition addressed (slot : Z) (fragments : list OpenAIStreamToolCall) : bool :=
  existsb (fun d => (index d =? slot)%Z) fragments.

(** *** The event grammar of §3, for stating properties *)

Record Block : Type := {
  block_start : ContentBlockStart;
  block_deltas : list BlockDelta
}.

Definition render_block (i : nat) (b : Block) : list Event :=
  content_block_start i (block_start b)
  :: List.map (content_block_delta i) (block_deltas b) ++ [content_block_stop i].

(** Blocks numbered [i], [i+1], ... one after the other. *)
Fixpoint render_blocks (i : nat) (blocks : list Block) : list Event :=
  match blocks with
  | [] => []
  | b :: rest => render_block i b ++ render_blocks (S i) rest
  end.

(** The grammar as a check over an event sequence.  [next] is the index the
    next block must take and [open] tells whether a block is open: a start
    is accepted only when none is open and must carry [next]; a delta or a
    stop only inside the open block and with its index; a stop closes it and
    moves [next] on; the message-level events only between blocks; and no
    block may stay open at the end. *)
Fixpoint well_bracketed (next : nat) (open : bool) (events : list Event) : bool :=
  match events with
  | [] => negb open
  | content_block_start i _ :: rest =>
      negb open && (i =? next)%nat && well_bracketed next true rest
  | content_block_delta i _ :: rest =>
      open && (i =? next)%nat && well_bracketed next true rest
  | content_block_stop i :: rest =>
      open && (i =? next)%nat && well_bracketed (S next) false rest
  | _ :: rest => negb open && well_bracketed next open rest
  end.

Definition start_indices (events : list Event) : list nat :=
  omap (fun e => match e with content_block_start i _ => Some i | _ => None end) events.

Definition stop_indices (events : list Event) : list nat :=
  omap (fun e => match e with content_block_stop i => Some i | _ => None end) events.

(** The deltas sent for block [i]. *)
Definition deltas_at (i : nat) (events : list Event) : list BlockDelta :=
  omap (fun e => match e with
                 | content_block_delta j d => if (j =? i)%nat then Some d else None
                 | _ => None
                 end) events.

(** What the [data] handler writes for the text fragments [texts]: nothing
    for none, else the start of block 0 and one delta per fragment. *)
Definition text_events (texts : list string) : list Event :=
  match texts with
  | [] => []
  | _ :: _ =>
      content_block_start 0 (start_text EmptyString)
      :: List.map (fun t => content_block_delta 0 (text_delta t)) texts
  end.

(** The block the [end] handler writes for an accumulated tool call. *)
Definition tool_block (tc : StreamingToolCall) : Block :=
  {| block_start := start_tool_use (tc_id tc) (tc_name tc);
     block_deltas := if truthy (tc_arguments tc) then [input_json_delta (tc_arguments tc)] else [] |}.

(** The blocks of a session that received [texts], met a [tool_calls] array
    or not ([hasToolCalls]) and ended with the tool calls [calls]. *)
Definition session_blocks (texts : list string) (hasToolCalls : bool)
    (calls : list (Z * StreamingToolCall)) : list Block :=
  match texts, hasToolCalls with
  | [], false => [ {| block_start := start_text EmptyString; block_deltas := [] |} ]
  | _, _ =>
      match texts with
      | [] => []
      | _ :: _ => [ {| block_start := start_text EmptyString;
                       block_deltas := List.map text_delta texts |} ]
      end ++ List.map (fun kv => tool_block kv.2) calls
  end.

(** What the [data] handler maintains: the session [s] has so far received
    the text fragments [texts] and the tool-call fragments [fragments], after
    a [tool_calls] array that was not empty or none ([has]). *)
Record received (Date_now : nat -> Z) (messageId requestModel : string)
    (texts : list string) (fragments : list OpenAIStreamToolCall) (has : bool)
    (reason : string) (s : Session) : Prop := {
  rcv_written : written s = message_start messageId requestModel :: text_events texts;
  rcv_started : hasStartedTextBlock s = negb (bool_decide (texts = []));
  rcv_index : currentBlockIndex s = 0%nat;
  rcv_tokens : outputTokens s = Z.of_nat (length texts);
  rcv_hasToolCalls : hasToolCalls s = has;
  rcv_fragments : has = false → fragments = [];
  rcv_tools : (toolCalls s, clock s) = fold_left (tool_call_step Date_now) fragments ([], 0%nat);
  rcv_finish : finishReason s = reason
}.

(** Events that belong to a tool-use block by their payload. *)
Definition is_tool_use_event (e : Event) : bool :=
  match e with
  | content_block_start _ (start_tool_use _ _) => true
  | content_block_delta _ (input_json_delta _) => true
  | _ => false
  end.

(** The text of complete lines, each ended by its line break. *)
Definition terminated (lines : list string) : string :=
  fold_right (fun line rest => line +:+ String newline rest) EmptyString lines.

(** The text fragments an output forwards, each with the index of its block. *)
Definition text_deltas (events : list Event) : list (nat * string) :=
  omap (fun e => match e with
                 | content_block_delta i (text_delta t) => Some (i, t)
                 | _ => None
                 end) events.

(** The tool-use blocks an output starts, each with its index. *)
Definition tool_use_blocks_started (events : list Event) : list (nat * (string * string)) :=
  omap (fun e => match e with
                 | content_block_start i (start_tool_use id name) => Some (i, (id, name))
                 | _ => None
                 end) events.

(** The distinct slots of a sequence, in the order they first appear. *)
Definition first_seen (slots : list Z) : list Z :=
  fold_left (fun seen k => if bool_decide (k ∈ seen) then seen else seen ++ [k]) slots [].

(** A chunk cut down to what the handler reads: its first choice. *)
Definition first_choice_only (parsed : OpenAIStreamChunk) : OpenAIStreamChunk :=
  {| chunk_choices := take 1 (chunk_choices parsed); chunk_usage := None |}.

End Relay.

(** ** A decoder for stream chunks

    [chunk_of_json] reads a parsed JSON value at the type the source casts it
    to ([as OpenAIStreamChunk]); [decode] is an instance of the relay's
    [JSON_parse_chunk] and is what the worked sessions below run on. *)

Module Wire.
Import JS Float64 Json Relay.

(** [obj[key]]; a repeated member's last value wins. *)
Definition field (key : string) (j : json) : option json :=
  match j with
  | JObject members =>
      snd <$> List.find (fun kv => String.eqb (fst kv) key) (rev members)
  | _ => None
  end.

(** A member of type [string | null | undefined]. *)
Definition string_field (key : string) (j : json) : option (option string) :=
  match field key j with
  | None | Some JNull => Some None
  | Some (JString s) => Some (Some s)
  | Some _ => None
  end.

Definition int_field (key : string) (j : json) : option (option Z) :=
  match field key j with
  | None | Some JNull => Some None
  | Some (JNumber x) => Some <$> Double_to_Z x
  | Some _ => None
  end.

(** A member that is an object (or absent), read by [f]. *)
Definition object_field {A : Type} (f : json -> option A) (key : string) (j : json)
  : option (option A) :=
  match field key j with
  | None | Some JNull => Some None
  | Some (JObject ms) => Some <$> f (JObject ms)
  | Some _ => None
  end.

(** A member that is an array (or absent), its items read by [f]. *)
Definition array_field {A : Type} (f : json -> option A) (key : string) (j : json)
  : option (option (list A)) :=
  match field key j with
  | None | Some JNull => Some None
  | Some (JArray items) => Some <$> mapM f items
  | Some _ => None
  end.

Definition function_of_json (j : json) : option StreamFunction :=
  n ← string_field "name" j;
  a ← string_field "arguments" j;
  Some {| delta_name := n; delta_arguments := a |}.

Definition tool_call_of_json (j : json) : option OpenAIStreamToolCall :=
  i ← int_field "index" j;
  i ← i;
  d ← string_field "id" j;
  f ← object_field function_of_json "function" j;
  Some {| index := i; delta_id := d; delta_function := f |}.

(** An element of [tool_calls]: [null], or a fragment. *)
Definition tool_call_item_of_json (j : json) : option (option OpenAIStreamToolCall) :=
  match j with
  | JNull => Some None
  | _ => Some <$> tool_call_of_json j
  end.

Definition delta_of_json (j : json) : option StreamDelta :=
  c ← string_field "content" j;
  t ← array_field tool_call_item_of_json "tool_calls" j;
  Some {| delta_content := c; delta_tool_calls := t |}.

Definition choice_of_json (j : json) : option StreamChoice :=
  d ← object_field delta_of_json "delta" j;
  f ← string_field "finish_reason" j;
  Some {| sc_delta := d; sc_finish_reason := f |}.

Definition usage_of_json (j : json) : option StreamUsage :=
  p ← int_field "prompt_tokens" j;
  Some {| su_prompt_tokens := p |}.

Definition chunk_of_json (j : json) : option OpenAIStreamChunk :=
  c ← array_field choice_of_json "choices" j;
  c ← c;
  u ← object_field usage_of_json "usage" j;
  Some {| chunk_choices := c; chunk_usage := u |}.

Definition decode (data : string) : option OpenAIStreamChunk :=
  JSON_parse data ≫= chunk_of_json.

(** One server-sent event carrying [json_text]. *)
Definition sse (json_text : string) : string :=
  "data: " +:+ wire json_text +:+ String newline (String newline EmptyString).

(** A clock for the worked sessions. *)
Definition clock_from (t0 : Z) (n : nat) : Z := (t0 + Z.of_nat n)%Z.

(** A backend stream that says nothing: a role announcement, a finish
    reason, the sentinel. *)
Definition silent_session : list string :=
  [ sse "{'choices':[{'delta':{'role':'assistant'},'finish_reason':null}]}";
    sse "{'choices':[{'delta':{},'finish_reason':'stop'}]}";
    "data: [DONE]" +:+ String newline (String newline EmptyString) ].

(** One tool call whose arguments arrive in three fragments at slot 0,
    without an id; the byte chunks cut the second event in two. *)
Definition weather_session : list string :=
  [ sse "{'choices':[{'delta':{'tool_calls':[{'index':0,'function':{'name':'get_weather','arguments':'{\'city\':'}}]}}]}";
    "data: " +:+ wire "{'choices':[{'delta':{'tool_calls':[{'index':0,'fun";
    wire "ction':{'arguments':'\'Paris\''}}]}}]}" +:+ String newline (String newline EmptyString);
    sse "{'choices':[{'delta':{'tool_calls':[{'index':0,'function':{'arguments':'}'}}]},'finish_reason':'tool_calls'}]}";
    "data: [DONE]" +:+ String newline (String newline EmptyString) ].

(** A tool call that takes no arguments: the backend names it and sends no
    argument text. *)
Definition bare_call_session : list string :=
  [ sse "{'choices':[{'delta':{'tool_calls':[{'index':0,'function':{'name':'list_files'}}]}}]}";
    sse "{'choices':[{'delta':{},'finish_reason':'tool_calls'}]}";
    "data: [DONE]" +:+ String newline (String newline EmptyString) ].

(** Two tool calls in one chunk, neither with an id. *)
Definition two_calls_session : list string :=
  [ sse "{'choices':[{'delta':{'tool_calls':[{'index':0,'function':{'name':'get_weather','arguments':'{}'}},{'index':1,'function':{'name':'get_time','arguments':'{}'}}]}}]}";
    sse "{'choices':[{'delta':{},'finish_reason':'tool_calls'}]}" ].

(** A chunk whose [tool_calls] array holds [null]. *)
Definition null_call_session : list string :=
  [ sse "{'choices':[{'delta':{'tool_calls':[null]},'finish_reason':'tool_calls'}]}";
    "data: [DONE]" +:+ String newline (String newline EmptyString) ].

(** The two bytes of [é] in UTF-8. *)
Definition e_acute : string :=
  String (ascii_of_nat 195) (String (ascii_of_nat 169) EmptyString).

(** One event in two chunks, cut before the [é] of its text. *)
Definition cafe_session : list string :=
  [ "data: " +:+ wire "{'choices':[{'delta':{'content':'caf";
    e_acute +:+ wire "'}}]}" +:+ String newline (String newline EmptyString) ].

(** The same bytes, cut between the two bytes of the [é]. *)
Definition cut_cafe_session : list string :=
  [ "data: " +:+ wire "{'choices':[{'delta':{'content':'caf"
      +:+ String (ascii_of_nat 195) EmptyString;
    String (ascii_of_nat 169) EmptyString +:+ wire "'}}]}"
      +:+ String newline (String newline EmptyString) ].

(** A stream of three complete lines and the beginning of a fourth. *)
Definition cut_off_session : list string :=
  [ sse "{'choices':[{'delta':{'content':'Hi'}}]}";
    "data: " +:+ wire "{'choices':[{'delta':{'content':' there'}}]}" ].

End Wire.

(** ** [ensureModelReady] of src/providers/ollama.ts *)

Module Ollama.
Import JS.

(** The three requests [ensureModelReady] can send, through
    [isModelAvailable], [pullModel] and [loadModel]. *)
Inductive BackendCall : Type :=
| call_isModelAvailable (modelName : string)
| call_pullModel (modelName : string)
| call_loadModel (modelName : string).

Global Instance BackendCall_eq_dec : EqDecision BackendCall.
Proof. solve_decision. Defined.

(** [modelLoadAttempted] is the provider's field; [calls] records the
    requests it has sent, oldest first. *)
Record OllamaProvider : Type := {
  modelLoadAttempted : gset string;
  calls : list BackendCall
}.

Definition new_provider : OllamaProvider :=
  {| modelLoadAttempted := ∅; calls := [] |}.

(** A method of the provider: it may throw and it changes the provider. *)
Definition Method (A : Type) : Type := OllamaProvider -> Completion A * OllamaProvider.

Definition ret {A : Type} (a : A) : Method A := fun self => (Return a, self).

Definition throw {A : Type} (e : Error) : Method A := fun self => (Throw e, self).

Definition seq {A B : Type} (m : Method A) (k : A -> Method B) : Method B :=
  fun self =>
    match m self with
    | (Return a, self') => k a self'
    | (Throw e, self') => (Throw e, self')
    end.

Notation "x <- m ;; k" := (seq m (fun x => k))
  (at level 100, m at next level, right associativity).

Section backend.

(** [backend sent c]: whether request [c] succeeds in a run where [sent]
    was sent before it.  The three helpers catch every error of their own
    and answer with a boolean. *)
Variable backend : list BackendCall -> BackendCall -> bool.

Definition request (c : BackendCall) : Method bool :=
  fun self =>
    (Return (backend (calls self) c),
     {| modelLoadAttempted := modelLoadAttempted self; calls := calls self ++ [c] |}).

Definition isModelAvailable (modelName : string) : Method bool :=
  request (call_isModelAvailable modelName).

Definition pullModel (modelName : string) : Method bool :=
  request (call_pullModel modelName).

Definition loadModel (modelName : string) : Method bool :=
  request (call_loadModel modelName).

(** [this.modelLoadAttempted.has(modelName)] *)
Definition attempted (modelName : string) : Method bool :=
  fun self => (Return (bool_decide (modelName ∈ modelLoadAttempted self)), self).

(** [this.modelLoadAttempted.add(modelName)] *)
Definition mark_attempted (modelName : string) : Method unit :=
  fun self =>
    (Return tt,
     {| modelLoadAttempted := {[modelName]} ∪ modelLoadAttempted self; calls := calls self |}).

Definition pull_failure (modelName : string) : Error :=
  Error_msg ("Failed to pull model " +:+ modelName +:+ ". Please run: ollama pull " +:+ modelName).

Definition ensureModelReady (modelName : string) : Method unit :=
  seen <- attempted modelName ;;
  if seen then ret tt
  else
    _ <- mark_attempted modelName ;;
    isAvailable <- isModelAvailable modelName ;;
    _ <- (if negb isAvailable then
            pulled <- pullModel modelName ;;
            if negb pulled then throw (pull_failure modelName) else ret tt
          else ret tt) ;;
    _ <- loadModel modelName ;;
    ret tt.

(** A run of calls to [ensureModelReady], one after the other; a call that
    throws does not stop the process. *)
Definition ensure_all (modelNames : list string) (self : OllamaProvider) : OllamaProvider :=
  fold_left (fun p m => snd (ensureModelReady m p)) modelNames self.

End backend.

(** How often request [c] was sent. *)
Definition times_sent (c : BackendCall) (self : OllamaProvider) : nat :=
  length (filter (fun c' => c' = c) (calls self)).

(** The model a request is about. *)
Definition about (c : BackendCall) : string :=
  match c with
  | call_isModelAvailable m | call_pullModel m | call_loadModel m => m
  end.

(** What every run of calls keeps: requests were only sent for attempted
    names, and none was sent twice. *)
Definition sent_once (self : OllamaProvider) : Prop :=
  (∀ c, c ∈ calls self → about c ∈ modelLoadAttempted self)
  ∧ (∀ c, times_sent c self ≤ 1).

(** *** Calls in flight at the same time

    [ensureModelReady] is an [async] function: it runs up to its next
    [await], where its request has been sent, and goes on when the answer
    arrives; calls made meanwhile run in between.  A call is in flight at one
    of its three [await]s. *)
Inductive Stage : Type :=
| awaiting_isModelAvailable
| awaiting_pullModel
| awaiting_loadModel.

(** The provider, the calls in flight and the calls that have settled, with
    their outcome. *)
Record Process : Type := {
  provider : OllamaProvider;
  in_flight : list (string * Stage);
  settled : list (string * Completion unit)
}.

Definition new_process : Process :=
  {| provider := new_provider; in_flight := []; settled := [] |}.

Definition send (c : BackendCall) (self : OllamaProvider) : OllamaProvider :=
  {| modelLoadAttempted := modelLoadAttempted self; calls := calls self ++ [c] |}.

Definition mark (modelName : string) (self : OllamaProvider) : OllamaProvider :=
  {| modelLoadAttempted := {[modelName]} ∪ modelLoadAttempted self; calls := calls self |}.

(** One step of the process: a new call of [ensureModelReady] runs to its
    first [await] (or returns at once), or the answer to the request of a call
    in flight arrives and the call runs to its next [await] or to its end. *)
Inductive step : Process -> Process -> Prop :=
| step_call_attempted (m : string) (p : Process) :
    m ∈ modelLoadAttempted (provider p) ->
    step p {| provider := provider p; in_flight := in_flight p;
              settled := settled p ++ [(m, Return tt)] |}
| step_call_new (m : string) (p : Process) :
    m ∉ modelLoadAttempted (provider p) ->
    step p {| provider := send (call_isModelAvailable m) (mark m (provider p));
              in_flight := in_flight p ++ [(m, awaiting_isModelAvailable)];
              settled := settled p |}
| step_available (m : string) (before after : list (string * Stage)) (p : Process) :
    in_flight p = before ++ (m, awaiting_isModelAvailable) :: after ->
    step p {| provider := send (call_loadModel m) (provider p);
              in_flight := before ++ (m, awaiting_loadModel) :: after;
              settled := settled p |}
| step_not_available (m : string) (before after : list (string * Stage)) (p : Process) :
    in_flight p = before ++ (m, awaiting_isModelAvailable) :: after ->
    step p {| provider := send (call_pullModel m) (provider p);
              in_flight := before ++ (m, awaiting_pullModel) :: after;
              settled := settled p |}
| step_pulled (m : string) (before after : list (string * Stage)) (p : Process) :
    in_flight p = before ++ (m, awaiting_pullModel) :: after ->
    step p {| provider := send (call_loadModel m) (provider p);
              in_flight := before ++ (m, awaiting_loadModel) :: after;
              settled := settled p |}
| step_pull_failed (m : string) (before after : list (string * Stage)) (p : Process) :
    in_flight p = before ++ (m, awaiting_pullModel) :: after ->
    step p {| provider := provider p;
              in_flight := before ++ after;
              settled := settled p ++ [(m, Throw (pull_failure m))] |}
| step_loaded (m : string) (before after : list (string * Stage)) (p : Process) :
    in_flight p = before ++ (m, awaiting_loadModel) :: after ->
    step p {| provider := provider p;
              in_flight := before ++ after;
              settled := settled p ++ [(m, Return tt)] |}.

(** What every process keeps. *)
Record in_order (p : Process) : Prop := {
  ord_calls : ∀ c, c ∈ calls (provider p) → about c ∈ modelLoadAttempted (provider p);
  ord_in_flight : ∀ m st, (m, st) ∈ in_flight p → m ∈ modelLoadAttempted (provider p);
  ord_one_each : NoDup (in_flight p).*1;
  ord_available : ∀ m, (m, awaiting_isModelAvailable) ∈ in_flight p →
                       times_sent (call_pullModel m) (provider p) = 0
                       ∧ times_sent (call_loadModel m) (provider p) = 0;
  ord_pull : ∀ m, (m, awaiting_pullModel) ∈ in_flight p →
                  times_sent (call_loadModel m) (provider p) = 0;
  ord_once : ∀ c, times_sent c (provider p) ≤ 1
}.

Section availability.

(** [String.prototype.toLowerCase] *)
Variable toLowerCase : string → string.

(** The test of [data.models.some(...)] on the name of one installed model. *)
Definition same_model (modelName installed : string) : bool :=
  let normalizedName := toLowerCase (before_colon modelName) in
  let name := toLowerCase (before_colon installed) in
  String.eqb name normalizedName
  || String.eqb (toLowerCase installed) (toLowerCase modelName).

(** [isModelAvailable] on the answer to [GET /api/tags]: the names of the
    installed models, or [None] when the request fails, is answered with an
    error status, or its body does not hold a model list (every case ends in
    [return false]). *)
Definition isModelAvailable_answer (tags : option (list string)) (modelName : string) : bool :=
  match tags with
  | Some models => existsb (same_model modelName) models
  | None => false
  end.

End availability.

End Ollama.

(** ** The token count of src/server.ts *)

Module Server.
Import JS Json Base.

Definition estimateTokens (text : string) : nat := Math_ceil_div (String_length text) 4.

(** [TokenCountRequest]; [model] and [thinking] are not read for the count
    ([thinking] is only logged). *)
Record TokenCountRequest : Type := {
  count_model : string;
  count_messages : list ClaudeMessage;
  count_system : option ClaudeSystem;
  count_tools : option (list ClaudeTool)
}.

(** [if (countRequest.system) { ... }] *)
Definition count_system_tokens (totalTokens : nat) (sys : option ClaudeSystem) : nat :=
  if system_present sys then
    match sys with
    | Some (SystemString s) => totalTokens + estimateTokens s
    | Some (SystemBlocks blocks) =>
        fold_left (fun total block => total + estimateTokens (sys_text block)) blocks totalTokens
    | None => totalTokens
    end
  else totalTokens.

(** Body of [for (const block of msg.content)]. *)
Definition count_block (totalTokens : nat) (block : ClaudeContentBlock) : nat :=
  match block with
  | ClaudeTextBlock text => totalTokens + estimateTokens text
  | ClaudeToolUseBlock _ name input =>
      totalTokens + estimateTokens (JSON_stringify input) + estimateTokens name
  | ClaudeToolResultBlock _ (ResultString s) _ => totalTokens + estimateTokens s
  | ClaudeToolResultBlock _ (ResultBlocks texts) _ =>
      totalTokens + estimateTokens (join EmptyString texts)
  | _ => totalTokens
  end.

(** Body of [for (const msg of countRequest.messages)]. *)
Definition count_message (totalTokens : nat) (msg : ClaudeMessage) : nat :=
  match content msg with
  | ContentString s => totalTokens + estimateTokens s
  | ContentBlocks blocks => fold_left count_block blocks totalTokens
  end + 4.

(** Body of [for (const tool of countRequest.tools)]. *)
Definition count_tool (totalTokens : nat) (tool : ClaudeTool) : nat :=
  totalTokens + estimateTokens (tool_name tool) + estimateTokens (tool_description tool)
  + estimateTokens (JSON_stringify (tool_input_schema tool)).

(** The [input_tokens] the handler of [POST /v1/messages/count_tokens]
    answers with. *)
Definition count_tokens (countRequest : TokenCountRequest) : nat :=
  let totalTokens := count_system_tokens 0 (count_system countRequest) in
  let totalTokens := fold_left count_message (count_messages countRequest) totalTokens in
  match count_tools countRequest with
  | Some tools => fold_left count_tool tools totalTokens
  | None => totalTokens
  end.

(** A count request with other messages. *)
Definition with_messages (messages : list ClaudeMessage) (countRequest : TokenCountRequest)
  : TokenCountRequest :=
  {| count_model := count_model countRequest; count_messages := messages;
     count_system := count_system countRequest; count_tools := count_tools countRequest |}.

End Server.

Module ConfigFile.
Import JS Config.

(** ** src/config.ts: the configuration file

    [loadConfig] builds a config from the file and [DEFAULT_CONFIG]; the
    setters load, change one setting and save.  A config loaded without a
    readable file is a shallow copy of [DEFAULT_CONFIG]: its two backend
    sections are the objects of [DEFAULT_CONFIG] themselves, and a section
    merged from the file still shares the routing table of [DEFAULT_CONFIG]
    when the file gives none.  So the setters can change [DEFAULT_CONFIG], and
    the model keeps it in the state, next to the file. *)

(** What the YAML document gives for one backend; [None] is a key the
    document does not have. *)
Record ProviderDocument : Type := {
  doc_baseUrl : option string;
  doc_model : option string;
  doc_apiKey : option string;
  doc_modelRouting : option ModelRouting
}.

(** [Partial<Config>] *)
Record Document : Type := {
  doc_provider : option Provider;
  doc_port : option Z;
  doc_lmstudio : option ProviderDocument;
  doc_ollama : option ProviderDocument
}.

(** [DEFAULT_CONFIG] as it is now, and the text of the file if it exists. *)
Record World : Type := {
  defaults : Config;
  file : option string
}.

Definition initial_world : World := {| defaults := DEFAULT_CONFIG; file := None |}.

(** The [modelRouting] property of a section object. *)
Inductive RoutingRef : Type :=
| routing_of_defaults                            (* the table of [DEFAULT_CONFIG]'s section *)
| routing_own (routing : option ModelRouting).   (* a table of its own, or no property *)

(** A backend section of a loaded config. *)
Inductive SectionRef : Type :=
| section_of_defaults                            (* the section object of [DEFAULT_CONFIG] *)
| section_own (baseUrl model : string) (apiKey : option string) (routing : RoutingRef).

Record LoadedConfig : Type := {
  loaded_provider : Provider;
  loaded_port : Z;
  loaded_lmstudio : SectionRef;
  loaded_ollama : SectionRef
}.

(** [config[p]] *)
Definition section (p : Provider) (config : Config) : ProviderConfig :=
  match p with
  | lmstudio => Config_lmstudio config
  | ollama => Config_ollama config
  end.

Definition loaded_section (p : Provider) (config : LoadedConfig) : SectionRef :=
  match p with
  | lmstudio => loaded_lmstudio config
  | ollama => loaded_ollama config
  end.

(** [config[p] = s] on a config value. *)
Definition with_section (p : Provider) (s : ProviderConfig) (config : Config) : Config :=
  match p with
  | lmstudio => {| provider := provider config; port := port config;
                   Config_lmstudio := s; Config_ollama := Config_ollama config |}
  | ollama => {| provider := provider config; port := port config;
                 Config_lmstudio := Config_lmstudio config; Config_ollama := s |}
  end.

Definition with_loaded_section (p : Provider) (s : SectionRef) (config : LoadedConfig)
  : LoadedConfig :=
  match p with
  | lmstudio => {| loaded_provider := loaded_provider config; loaded_port := loaded_port config;
                   loaded_lmstudio := s; loaded_ollama := loaded_ollama config |}
  | ollama => {| loaded_provider := loaded_provider config; loaded_port := loaded_port config;
                 loaded_lmstudio := loaded_lmstudio config; loaded_ollama := s |}
  end.

(** [s.modelRouting = routing] on a section value. *)
Definition with_modelRouting (routing : option ModelRouting) (s : ProviderConfig) : ProviderConfig :=
  {| baseUrl := baseUrl s; model := model s; apiKey := apiKey s; modelRouting := routing |}.

Definition with_model (m : string) (s : ProviderConfig) : ProviderConfig :=
  {| baseUrl := baseUrl s; model := m; apiKey := apiKey s; modelRouting := modelRouting s |}.

Definition with_baseUrl (url : string) (s : ProviderConfig) : ProviderConfig :=
  {| baseUrl := url; model := model s; apiKey := apiKey s; modelRouting := modelRouting s |}.

(** [config.port = n] on a config value. *)
Definition with_port (n : Z) (config : Config) : Config :=
  {| provider := provider config; port := n;
     Config_lmstudio := Config_lmstudio config; Config_ollama := Config_ollama config |}.

Definition with_defaults (d : Config) (w : World) : World :=
  {| defaults := d; file := file w |}.

(** The content of a section object, read in world [w]. *)
Definition section_value (d : ProviderConfig) (s : SectionRef) : ProviderConfig :=
  match s with
  | section_of_defaults => d
  | section_own b m k r =>
      {| baseUrl := b; model := m; apiKey := k;
         modelRouting := match r with
                         | routing_of_defaults => modelRouting d
                         | routing_own routing => routing
                         end |}
  end.

(** The content of a loaded config, read in world [w]. *)
Definition value (w : World) (config : LoadedConfig) : Config :=
  {| provider := loaded_provider config;
     port := loaded_port config;
     Config_lmstudio :=
       section_value (Config_lmstudio (defaults w)) (loaded_lmstudio config);
     Config_ollama :=
       section_value (Config_ollama (defaults w)) (loaded_ollama config) |}.

(** [{ ...d, ...parsed }] for a backend section: the properties of [d], then
    those the document gives over them. *)
Definition merge_section (d : ProviderConfig) (parsed : option ProviderDocument) : SectionRef :=
  let shared := match modelRouting d with
                | Some _ => routing_of_defaults
                | None => routing_own None
                end in
  match parsed with
  | None => section_own (baseUrl d) (model d) (apiKey d) shared
  | Some given =>
      section_own
        (default (baseUrl d) (doc_baseUrl given))
        (default (model d) (doc_model given))
        (match doc_apiKey given with Some k => Some k | None => apiKey d end)
        (match doc_modelRouting given with
         | Some routing => routing_own (Some routing)
         | None => shared
         end)
  end.

(** What a loaded config keeps with respect to [DEFAULT_CONFIG]: a section
    without an API key, or without a routing table, has none in
    [DEFAULT_CONFIG] either. *)
Definition covers (w : World) (config : LoadedConfig) : Prop :=
  ∀ p, (apiKey (section p (value w config)) = None → apiKey (section p (defaults w)) = None)
       ∧ (modelRouting (section p (value w config)) = None →
          modelRouting (section p (defaults w)) = None).

(** *** Property assignment on a routing table

    [routing[key] = value] on a plain object.  A key the object has keeps
    its place and takes the value.  Of the keys it does not have,
    ["__proto__"] names the prototype accessor, and assigning a string
    through it changes nothing; an array index (the canonical decimal of a
    number below 2^32 - 1) goes among the index keys in ascending order,
    ahead of every other key; any other key goes last. *)

Definition has_key (routing : ModelRouting) (key : string) : bool :=
  existsb (fun kv => String.eqb (fst kv) key) routing.

Definition replace_value (routing : ModelRouting) (key value : string) : ModelRouting :=
  List.map (fun kv => if String.eqb (fst kv) key then (fst kv, value) else kv) routing.

Fixpoint insert_index (n : N) (key value : string) (routing : ModelRouting) : ModelRouting :=
  match routing with
  | [] => [(key, value)]
  | (k, v) :: rest =>
      match array_index k with
      | Some m =>
          if (m <? n)%N then (k, v) :: insert_index n key value rest
          else (key, value) :: (k, v) :: rest
      | None => (key, value) :: (k, v) :: rest
      end
  end.

Definition routing_set (routing : ModelRouting) (key value : string) : ModelRouting :=
  if has_key routing key then replace_value routing key value
  else if String.eqb key "__proto__" then routing
  else match array_index key with
       | Some n => insert_index n key value routing
       | None => routing ++ [(key, value)]
       end.

(** What a document written from [config] holds: every property the config
    object has. *)
Definition document_of_section (s : ProviderConfig) : ProviderDocument :=
  {| doc_baseUrl := Some (baseUrl s); doc_model := Some (model s);
     doc_apiKey := apiKey s; doc_modelRouting := modelRouting s |}.

Definition document_of (config : Config) : Document :=
  {| doc_provider := Some (provider config); doc_port := Some (port config);
     doc_lmstudio := Some (document_of_section (Config_lmstudio config));
     doc_ollama := Some (document_of_section (Config_ollama config)) |}.

Section config_file.

(** [yaml.parse] and [yaml.stringify] of the [yaml] package.  A document
    [loadConfig] cannot read properties of (it is [null]) is a [Throw]: the
    [try] block is left for its [catch] in either case. *)
Variable yaml_parse : string → Completion Document.
Variable yaml_stringify : Config → string.

(** [path.join(process.cwd(), CONFIG_FILENAME)] *)
Variable getConfigPath : string.

Definition configExists (w : World) : bool :=
  match file w with Some _ => true | None => false end.

Definition loadConfig (w : World) : LoadedConfig :=
  let copy :=
    {| loaded_provider := provider (defaults w); loaded_port := port (defaults w);
       loaded_lmstudio := section_of_defaults; loaded_ollama := section_of_defaults |} in
  match file w with
  | None => copy
  | Some content =>
      match yaml_parse content with
      | Return parsed =>
          {| loaded_provider := default (provider (defaults w)) (doc_provider parsed);
             loaded_port := num_or_else (doc_port parsed) (port (defaults w));
             loaded_lmstudio := merge_section (Config_lmstudio (defaults w)) (doc_lmstudio parsed);
             loaded_ollama := merge_section (Config_ollama (defaults w)) (doc_ollama parsed) |}
      | Throw _ => copy
      end
  end.

(** The document [loadConfig] gets to see, if any. *)
Definition readable (w : World) : option Document :=
  match file w with
  | Some content =>
      match yaml_parse content with
      | Return parsed => Some parsed
      | Throw _ => None
      end
  | None => None
  end.

(** [parsed[p]] *)
Definition doc_section (p : Provider) (parsed : Document) : option ProviderDocument :=
  match p with
  | lmstudio => doc_lmstudio parsed
  | ollama => doc_ollama parsed
  end.

Definition saveConfig (config : LoadedConfig) (w : World) : World :=
  {| defaults := defaults w; file := Some (yaml_stringify (value w config)) |}.

(** [initConfig]: throws when the file exists, else writes the defaults. *)
Definition initConfig (w : World) : Completion unit * World :=
  if configExists w
  then (Throw (Error_msg ("Config file already exists at " +:+ getConfigPath)), w)
  else (Return tt,
        {| defaults := defaults w; file := Some (yaml_stringify (defaults w)) |}).

Definition setProvider (p : Provider) (w : World) : LoadedConfig * World :=
  let config := loadConfig w in
  let config := {| loaded_provider := p; loaded_port := loaded_port config;
                   loaded_lmstudio := loaded_lmstudio config;
                   loaded_ollama := loaded_ollama config |} in
  (config, saveConfig config w).

Definition setPort (n : Z) (w : World) : LoadedConfig * World :=
  let config := loadConfig w in
  let config := {| loaded_provider := loaded_provider config; loaded_port := n;
                   loaded_lmstudio := loaded_lmstudio config;
                   loaded_ollama := loaded_ollama config |} in
  (config, saveConfig config w).

(** [config[p].baseUrl = url] *)
Definition assign_baseUrl (p : Provider) (url : string) (config : LoadedConfig) (w : World)
  : LoadedConfig * World :=
  match loaded_section p config with
  | section_of_defaults =>
      let d := section p (defaults w) in
      (config, with_defaults (with_section p (with_baseUrl url d) (defaults w)) w)
  | section_own _ m k r => (with_loaded_section p (section_own url m k r) config, w)
  end.

(** [config[p].model = m] *)
Definition assign_model (p : Provider) (m : string) (config : LoadedConfig) (w : World)
  : LoadedConfig * World :=
  match loaded_section p config with
  | section_of_defaults =>
      let d := section p (defaults w) in
      (config, with_defaults (with_section p (with_model m d) (defaults w)) w)
  | section_own b _ k r => (with_loaded_section p (section_own b m k r) config, w)
  end.

(** [config[p].modelRouting = f(config[p].modelRouting)], for an [f] that
    works on the table object in place, or makes one where there is none. *)
Definition assign_routing (p : Provider) (f : option ModelRouting → option ModelRouting)
    (config : LoadedConfig) (w : World) : LoadedConfig * World :=
  let in_defaults :=
    let d := section p (defaults w) in
    with_defaults (with_section p (with_modelRouting (f (modelRouting d)) d) (defaults w)) w in
  match loaded_section p config with
  | section_of_defaults => (config, in_defaults)
  | section_own b m k routing_of_defaults =>
      match modelRouting (section p (defaults w)) with
      | Some _ => (config, in_defaults)
      | None => (with_loaded_section p (section_own b m k (routing_own (f None))) config, w)
      end
  | section_own b m k (routing_own routing) =>
      (with_loaded_section p (section_own b m k (routing_own (f routing))) config, w)
  end.

Definition setProviderUrl (p : Provider) (url : string) (w : World) : LoadedConfig * World :=
  let '(config, w1) := assign_baseUrl p url (loadConfig w) w in
  (config, saveConfig config w1).

Definition setProviderModel (p : Provider) (m : string) (w : World) : LoadedConfig * World :=
  let '(config, w1) := assign_model p m (loadConfig w) w in
  (config, saveConfig config w1).

(** [if (!routing) routing = {}; routing[claudeModel] = localModel] *)
Definition route (claudeModel localModel : string) (routing : option ModelRouting)
  : option ModelRouting :=
  Some (routing_set (default [] routing) claudeModel localModel).

Definition setModelRouting (p : Provider) (claudeModel localModel : string) (w : World)
  : LoadedConfig * World :=
  let '(config, w1) := assign_routing p (route claudeModel localModel) (loadConfig w) w in
  (config, saveConfig config w1).

(** One setting of the [config] command. *)
Inductive Setting : Type :=
| set_provider (p : Provider)
| set_port (n : Z)
| set_url (p : Provider) (url : string)
| set_model (p : Provider) (m : string)
| set_route (p : Provider) (claudeModel localModel : string).

Definition apply_setting (s : Setting) (w : World) : LoadedConfig * World :=
  match s with
  | set_provider p => setProvider p w
  | set_port n => setPort n w
  | set_url p url => setProviderUrl p url w
  | set_model p m => setProviderModel p m w
  | set_route p claudeModel localModel => setModelRouting p claudeModel localModel w
  end.

End config_file.

(** Stand-ins for the [yaml] package in worked examples: a reader that finds
    the document [d] in every text, and a writer of one text. *)
Definition reads_as (d : Document) : string → Completion Document := fun _ => Return d.

Definition written_as (text : string) : Config → string := fun _ => text.

End ConfigFile.

(* ================================================================= *)
(** * Proofs *)

Import JS Json Config Base.

(** ** JavaScript primitives *)

Lemma truthy_true (s : string) : truthy s = true ↔ s ≠ "".
Proof.
  unfold truthy. destruct (String.eqb_spec s ""); simpl; split; congruence.
Qed.

Lemma truthy_false (s : string) : truthy s = false ↔ s = "".
Proof.
  unfold truthy. destruct (String.eqb_spec s ""); simpl; split; congruence.
Qed.

Lemma or_else_empty (o : option string) : or_else o "" = default "" o.
Proof.
  destruct o as [s|]; simpl; [|done].
  destruct (truthy s) eqn:E; [done|]. by apply truthy_false in E.
Qed.

Lemma startsWith_self (s : string) : startsWith s s = true.
Proof.
  unfold startsWith. induction s as [|c s IH]; simpl; [done|].
  by destruct (ascii_dec c c).
Qed.

Example JSON_parse_empty_object : JSON_parse "{}" = Some empty_object.
Proof. reflexivity. Qed.

(** ** Model Router *)

Section router.

Implicit Types (routing : ModelRouting) (name : string).

Lemma own_entry_Some routing name v :
  own_entry routing name = Some v → (name, v) ∈ routing.
Proof.
  induction routing as [|[k w] rest IH]; simpl; [done|].
  destruct (String.eqb_spec k name) as [->|Hne].
  - intros [= ->]. apply list_elem_of_here.
  - intros H. apply list_elem_of_further. auto.
Qed.

Lemma own_entry_None routing name :
  own_entry routing name = None ↔ Forall (fun kv => kv.1 ≠ name) routing.
Proof.
  induction routing as [|[k w] rest IH]; simpl.
  - split; [constructor | done].
  - destruct (String.eqb_spec k name) as [->|Hne]; split.
    + done.
    + inversion 1; subst. done.
    + intros H. constructor; [done | by apply IH].
    + inversion 1; subst. by apply IH.
Qed.

(** A key of the table is a prefix of itself, so the prefix loop never runs
    off the end of a table that has the requested name as a key. *)
Lemma first_prefix_match_key routing name v :
  own_entry routing name = Some v → is_Some (first_prefix_match routing name).
Proof.
  induction routing as [|[k w] rest IH]; simpl; [done|].
  destruct (String.eqb_spec k name) as [->|Hne].
  - intros _. rewrite startsWith_self. eauto.
  - intros H. destruct (startsWith name k); eauto.
Qed.



(** The source's three steps, with the guard of the first one spelled out:
    [if (routing[requestedModel])] takes an own entry only when its value is
    a non-empty string, and takes an inherited member whenever the object has
    no own entry of that name. *)
Lemma resolveModel_unfold config name :
  resolveModel config name =
    let routing := default [] (modelRouting (provider_config config)) in
    let later := str (default (model (provider_config config)) (first_prefix_match routing name)) in
    match own_entry routing name with
    | Some v => if truthy v then str v else later
    | None => if bool_decide (name ∈ Object_prototype_members) then member name else later
    end.
Proof.
  unfold resolveModel, routing_get. simpl.
  destruct (own_entry _ name) as [v|]; simpl.
  - destruct (truthy v); [done|]. by destruct (first_prefix_match _ name).
  - destruct (bool_decide _); [done|]. by destruct (first_prefix_match _ name).
Qed.

End router.




(** ** Request translator *)

Section request_translator.

Implicit Types (blocks : list ClaudeContentBlock) (g : BlockGroups).

Lemma fold_group_block blocks g :
  fold_left group_block blocks g =
    {| textBlocks := textBlocks g ++ block_texts blocks;
       toolUseBlocks := toolUseBlocks g ++ block_tool_uses blocks;
       toolResultBlocks := toolResultBlocks g ++ block_tool_results blocks |}.
Proof.
  revert g. induction blocks as [|b blocks IH]; intros g.
  - simpl. rewrite !app_nil_r. by destruct g.
  - simpl. rewrite IH. unfold block_texts, block_tool_uses, block_tool_results.
    destruct b; simpl; by rewrite <- ?app_assoc.
Qed.

(** The grouping loop sorts the blocks by type and keeps their order. *)
Lemma group_blocks_spec blocks :
  group_blocks blocks =
    {| textBlocks := block_texts blocks;
       toolUseBlocks := block_tool_uses blocks;
       toolResultBlocks := block_tool_results blocks |}.
Proof. unfold group_blocks. by rewrite fold_group_block. Qed.

Lemma block_texts_filter blocks :
  block_texts (List.filter is_translated blocks) = block_texts blocks.
Proof.
  induction blocks as [|b blocks IH]; [done|].
  destruct b; simpl; unfold block_texts in *; simpl; by rewrite ?IH.
Qed.

Lemma block_tool_uses_filter blocks :
  block_tool_uses (List.filter is_translated blocks) = block_tool_uses blocks.
Proof.
  induction blocks as [|b blocks IH]; [done|].
  destruct b; simpl; unfold block_tool_uses in *; simpl; by rewrite ?IH.
Qed.

Lemma block_tool_results_filter blocks :
  block_tool_results (List.filter is_translated blocks) = block_tool_results blocks.
Proof.
  induction blocks as [|b blocks IH]; [done|].
  destruct b; simpl; unfold block_tool_results in *; simpl; by rewrite ?IH.
Qed.

Lemma block_texts_elem blocks t : ClaudeTextBlock t ∈ blocks → block_texts blocks ≠ [].
Proof.
  intros Hin Hnil. apply list_elem_of_In in Hin.
  induction blocks as [|b blocks IH]; [done|].
  destruct Hin as [-> | Hin]; [done|].
  unfold block_texts in *. simpl in Hnil. destruct b; simpl in Hnil; try done; by apply IH.
Qed.

Lemma block_texts_none blocks :
  Forall (fun b => is_text_block b = false) blocks → block_texts blocks = [].
Proof.
  induction 1 as [|b blocks Hb _ IH]; [done|].
  unfold block_texts in *. destruct b; simpl in *; done.
Qed.

Lemma block_tool_results_none blocks :
  Forall (fun b => is_tool_result_block b = false) blocks → block_tool_results blocks = [].
Proof.
  induction 1 as [|b blocks Hb _ IH]; [done|].
  unfold block_tool_results in *. destruct b; simpl in *; done.
Qed.

Lemma length_pos_nil {A : Type} (l : list A) : (0 <? length l)%nat = false ↔ l = [].
Proof. destruct l; simpl; split; done. Qed.

(** What [convertClaudeMessageToOpenAI] emits for a user message with
    block content: the tool results, then the text if there is any. *)
Lemma convert_user_blocks blocks :
  convertClaudeMessageToOpenAI {| role := role_user; content := ContentBlocks blocks |} =
    List.map tool_message (block_tool_results blocks) ++
    match block_texts blocks with
    | [] => []
    | t :: ts => [user_text_message (t :: ts)]
    end.
Proof.
  unfold convertClaudeMessageToOpenAI. simpl. rewrite group_blocks_spec. simpl.
  by destruct (block_texts blocks).
Qed.

Lemma convert_prune_message (msg : ClaudeMessage) :
  convertClaudeMessageToOpenAI (prune_message msg) = convertClaudeMessageToOpenAI msg.
Proof.
  destruct msg as [r [s|blocks]]; [done|].
  unfold prune_message, convertClaudeMessageToOpenAI. simpl.
  rewrite !group_blocks_spec. simpl.
  by rewrite block_texts_filter, block_tool_uses_filter, block_tool_results_filter.
Qed.

End request_translator.

(** C6.  A user message whose blocks include a tool result and a text block
    becomes one [tool] message per tool-result block, in block order, each
    with the block's tool-use id as [tool_call_id] and as content the block's
    content, a string as it is and a block array as its texts joined by
    newlines; they are followed by exactly one [user] message whose content
    is the texts of the text blocks joined by newlines.  The [user] message
    is the last one, so no [tool] message ever comes after it. *)
Theorem user_tool_results_precede_text (blocks : list ClaudeContentBlock)
    (id t : string) (c : ToolResultContent) (e : option bool) :
  ClaudeToolResultBlock id c e ∈ blocks →
  ClaudeTextBlock t ∈ blocks →
  let out := convertClaudeMessageToOpenAI {| role := role_user; content := ContentBlocks blocks |} in
  let tool_messages :=
    List.map (fun b : string * ToolResultContent =>
                {| msg_role := tool;
                   msg_content :=
                     Some (match b.2 with
                           | ResultString s => s
                           | ResultBlocks texts => join (String newline EmptyString) texts
                           end);
                   msg_tool_calls := None;
                   msg_tool_call_id := Some b.1 |})
      (block_tool_results blocks) in
  let user_message :=
    {| msg_role := user;
       msg_content := Some (join (String newline EmptyString) (block_texts blocks));
       msg_tool_calls := None;
       msg_tool_call_id := None |} in
  out = tool_messages ++ [user_message]
  ∧ (id, c) ∈ block_tool_results blocks
  ∧ t ∈ block_texts blocks
  ∧ length tool_messages = length (List.filter is_tool_result_block blocks)
  ∧ (∀ i m, out !! i = Some m → msg_role m = user → i = length tool_messages)
  ∧ (∀ i m, out !! i = Some m → msg_role m = tool → (i < length tool_messages)%nat).
Proof.
  intros Hc Ht out tool_messages user_message.
  assert (Hout : out = tool_messages ++ [user_message]).
  { unfold out. rewrite convert_user_blocks.
    pose proof (block_texts_elem _ _ Ht). by destruct (block_texts blocks). }
  assert (Htool : Forall (fun m => msg_role m = tool) tool_messages).
  { apply Forall_forall. intros m Hm. apply list_elem_of_In, in_map_iff in Hm.
    by destruct Hm as (b & <- & _). }
  split; [done|]. split.
  { unfold block_tool_results. apply list_elem_of_omap.
    by exists (ClaudeToolResultBlock id c e). }
  split.
  { unfold block_texts. apply list_elem_of_omap. by exists (ClaudeTextBlock t). }
  split.
  { unfold tool_messages. rewrite length_map. clear.
    induction blocks as [|b blocks IH]; [done|].
    unfold block_tool_results in *. destruct b; simpl; try done. by f_equal. }
  split.
  - intros i m Hi Hm. rewrite Hout in Hi.
    destruct (decide (i < length tool_messages)%nat) as [Hlt|Hge].
    + rewrite lookup_app_l in Hi by done.
      apply list_elem_of_lookup_2 in Hi.
      rewrite Forall_forall in Htool. specialize (Htool _ Hi). congruence.
    + rewrite lookup_app_r in Hi by lia.
      apply lookup_lt_Some in Hi. simpl in Hi. lia.
  - intros i m Hi Hm. rewrite Hout in Hi.
    destruct (decide (i < length tool_messages)%nat) as [Hlt|Hge]; [done|].
    rewrite lookup_app_r in Hi by lia.
    destruct (i - _)%nat eqn:E; simpl in Hi; [|done].
    injection Hi as <-. done.
Qed.

(** A tool result with block content followed by a text block: [tool] first,
    with the two lines joined, [user] second. *)
Lemma user_tool_results_precede_text_witness :
  convertClaudeMessageToOpenAI
    {| role := role_user;
       content := ContentBlocks
         [ClaudeToolResultBlock "toolu_1" (ResultBlocks ["line 1"; "line 2"]) None;
          ClaudeTextBlock "thanks"; ClaudeTextBlock "bye"] |}
  = [ {| msg_role := tool;
         msg_content := Some ("line 1" +:+ String newline "line 2");
         msg_tool_calls := None;
         msg_tool_call_id := Some "toolu_1" |};
      {| msg_role := user;
         msg_content := Some ("thanks" +:+ String newline "bye");
         msg_tool_calls := None;
         msg_tool_call_id := None |} ].
Proof.
  refine (proj1 (user_tool_results_precede_text
    [ClaudeToolResultBlock "toolu_1" (ResultBlocks ["line 1"; "line 2"]) None;
     ClaudeTextBlock "thanks"; ClaudeTextBlock "bye"]
    "toolu_1" "thanks" (ResultBlocks ["line 1"; "line 2"]) None _ _)).
  - apply list_elem_of_here.
  - apply list_elem_of_further, list_elem_of_here.
Defined.

(** C7, as the code has it.  An assistant message with block content becomes
    exactly one [assistant] message.  Its content is the newline-joined text
    of the text blocks when that text is non-empty; when it is empty (no text
    block, or only empty ones) the content is [null] if there are tool-use
    blocks and the empty string if there are none.  Tool calls are attached,
    one per tool-use block with its id, name and JSON-serialised input, exactly
    when there is a tool-use block. *)
Theorem assistant_blocks_translation (blocks : list ClaudeContentBlock) :
  convertClaudeMessageToOpenAI {| role := role_assistant; content := ContentBlocks blocks |} =
    let joined := join (String newline EmptyString) (block_texts blocks) in
    [ {| msg_role := assistant;
         msg_content :=
           if truthy joined then Some joined
           else match block_tool_uses blocks with
                | [] => Some EmptyString
                | _ :: _ => None
                end;
         msg_tool_calls :=
           match block_tool_uses blocks with
           | [] => None
           | u :: us =>
               Some (List.map (fun b => {| call_id := b.1.1; function_name := b.1.2;
                                           function_arguments := JSON_stringify b.2 |}) (u :: us))
           end;
         msg_tool_call_id := None |} ].
Proof.
  unfold convertClaudeMessageToOpenAI. simpl. rewrite group_blocks_spec. simpl.
  unfold or_null.
  destruct (block_tool_uses blocks) as [|u us] eqn:Eu; simpl.
  - destruct (truthy (join _ _)) eqn:Ej; simpl; [by rewrite Ej|done].
  - destruct (truthy (join _ _)) eqn:Ej; simpl.
    + do 3 f_equal. destruct u as [[? ?] ?]. simpl. f_equal.
      apply map_ext. by intros [[? ?] ?].
    + do 3 f_equal. destruct u as [[? ?] ?]. simpl. f_equal.
      apply map_ext. by intros [[? ?] ?].
Qed.

(** C7 as stated fails: an assistant message with no text block and no
    tool-use block (here: no block at all) is sent with the empty string as
    content, not [null]; and one whose only text block is empty is sent, next
    to its tool call, with [null] and not with the joined text. *)
Lemma assistant_no_text_counterexample :
  block_texts [] = []
  ∧ msg_content <$> convertClaudeMessageToOpenAI
      {| role := role_assistant; content := ContentBlocks [] |} = [Some ""]
  ∧ msg_content <$> convertClaudeMessageToOpenAI
      {| role := role_assistant;
         content := ContentBlocks [ClaudeTextBlock ""; ClaudeToolUseBlock "toolu_1" "f" empty_object] |}
    = [None].
Proof. repeat split. Qed.

(** C10.  A user message whose blocks include neither text nor a tool result
    is translated to no backend message at all; and for any message, and so
    for any request, the translation is the same as that of the message with
    only its text, tool-use and tool-result blocks kept. *)
Theorem untranslated_blocks_contribute_nothing :
  (∀ blocks,
     Forall (fun b => is_text_block b = false ∧ is_tool_result_block b = false) blocks →
     convertClaudeMessageToOpenAI {| role := role_user; content := ContentBlocks blocks |} = [])
  ∧ (∀ r blocks,
       convertClaudeMessageToOpenAI {| role := r; content := ContentBlocks blocks |} =
       convertClaudeMessageToOpenAI
         {| role := r; content := ContentBlocks (List.filter is_translated blocks) |})
  ∧ (∀ self request,
       convertClaudeToOpenAI self (prune_request request) = convertClaudeToOpenAI self request).
Proof.
  split; [|split].
  - intros blocks H. rewrite convert_user_blocks.
    rewrite block_texts_none, block_tool_results_none; [done| |].
    + eapply Forall_impl; [exact H|]. by intros b [_ ?].
    + eapply Forall_impl; [exact H|]. by intros b [? _].
  - intros r blocks.
    exact (eq_sym (convert_prune_message {| role := r; content := ContentBlocks blocks |})).
  - intros self request. unfold convertClaudeToOpenAI, prune_request. simpl.
    f_equal. f_equal. f_equal. rewrite List.map_map.
    apply map_ext. intros msg. apply convert_prune_message.
Qed.

(** A user message of an image, a thinking block and a document is dropped;
    so is one that only carries a tool-use block. *)
Lemma untranslated_blocks_contribute_nothing_witness :
  convertClaudeMessageToOpenAI
    {| role := role_user;
       content := ContentBlocks
         [ClaudeImageBlock (JObject [("type", JString "url")]);
          ClaudeThinkingBlock "let me see" "sig";
          ClaudeDocumentBlock (JObject [("type", JString "file")]) None;
          ClaudeToolUseBlock "toolu_1" "f" empty_object] |} = [].
Proof.
  apply (proj1 untranslated_blocks_contribute_nothing).
  repeat constructor.
Defined.

(** ** Non-streaming response translator *)

Section response_translator.

Implicit Types (tool_calls : list OpenAIToolCall) (response : OpenAIResponse).

Lemma num_or_else_zero (o : option Z) : num_or_else o 0 = default 0%Z o.
Proof. destruct o as [n|]; simpl; [|done]. by destruct (Z.eqb_spec n 0). Qed.

(** An absent or empty argument string decodes to the empty object. *)
Lemma decoded_input_empty (toolCall : OpenAIToolCall) :
  function_arguments toolCall = "" → decoded_input toolCall = Some empty_object.
Proof. unfold decoded_input. intros ->. reflexivity. Qed.

Lemma decoded_input_nonempty (toolCall : OpenAIToolCall) :
  function_arguments toolCall ≠ "" →
  decoded_input toolCall = JSON_parse (function_arguments toolCall).
Proof. unfold decoded_input. intros H. simpl. apply truthy_true in H. by rewrite H. Qed.

(** The tool-call loop returns exactly when every argument string decodes,
    and then with one tool-use block per call, in order. *)
Lemma tool_use_blocks_Return tool_calls blocks :
  tool_use_blocks tool_calls = Return blocks ↔
  Forall2 (fun toolCall b =>
             ∃ input, decoded_input toolCall = Some input ∧
                      b = ClaudeToolUseBlock (call_id toolCall) (function_name toolCall) input)
          tool_calls blocks.
Proof.
  revert blocks. induction tool_calls as [|tc rest IH]; intros blocks; simpl.
  - split; [intros [= <-]; constructor | by inversion 1].
  - destruct (decoded_input tc) as [input|] eqn:E.
    + destruct (tool_use_blocks rest) as [bs|e] eqn:Er; simpl.
      * split.
        -- intros [= <-]. constructor; [eauto | by apply IH].
        -- inversion 1 as [|? b ? bs' (input' & Hin & ->) Hrest]; subst.
           apply IH in Hrest. injection Hrest as <-. congruence.
      * split; [done|].
        inversion 1 as [|? b ? bs' _ Hrest]; subst. by apply IH in Hrest.
    + split; [done|].
      inversion 1 as [|? b ? bs' (input' & Hin & _) _]; subst. congruence.
Qed.

Lemma tool_use_blocks_total tool_calls :
  Forall (fun toolCall => is_Some (decoded_input toolCall)) tool_calls →
  ∃ blocks, tool_use_blocks tool_calls = Return blocks.
Proof.
  induction 1 as [|tc rest [input Hin] _ [bs IH]]; simpl; [eauto|].
  rewrite Hin, IH. simpl. eauto.
Qed.

Lemma tool_use_blocks_Throw tool_calls :
  Exists (fun toolCall => decoded_input toolCall = None) tool_calls →
  tool_use_blocks tool_calls = Throw SyntaxError.
Proof.
  induction 1 as [tc rest Hnone | tc rest _ IH]; simpl.
  - by rewrite Hnone.
  - rewrite IH. by destruct (decoded_input tc).
Qed.

Lemma tool_use_blocks_all_tool_use tool_calls blocks :
  tool_use_blocks tool_calls = Return blocks →
  Forall (fun b => is_tool_use_block b = true) blocks.
Proof.
  intros H. apply tool_use_blocks_Return in H.
  induction H as [|tc b ? ? (input & _ & ->) _ IH]; constructor; done.
Qed.

Lemma filter_none {A : Type} (f : A → bool) (l : list A) :
  Forall (fun x => f x = false) l → List.filter f l = [].
Proof. induction 1 as [|x l Hx _ IH]; simpl; [done|]. by rewrite Hx. Qed.

Lemma filter_all {A : Type} (f : A → bool) (l : list A) :
  Forall (fun x => f x = true) l → List.filter f l = l.
Proof. induction 1 as [|x l Hx _ IH]; simpl; [done|]. by rewrite Hx, IH. Qed.

(** The result of [convertOpenAIToClaude], read off the first choice. *)
Lemma convertOpenAIToClaude_Return response originalModel r :
  convertOpenAIToClaude response originalModel = Return r →
  let message := head (oa_choices response) ≫= choice_message in
  ∃ tool_part,
    tool_use_blocks (default [] (message ≫= cm_tool_calls)) = Return tool_part
    ∧ resp_content r =
        (let text_part := match message ≫= cm_content with
                          | Some c => if truthy c then [ClaudeTextBlock c] else []
                          | None => []
                          end in
         if (length (text_part ++ tool_part) =? 0)%nat
         then [ClaudeTextBlock ""] else text_part ++ tool_part)
    ∧ resp_id r = "msg_" +:+ oa_id response
    ∧ resp_model r = originalModel
    ∧ resp_stop_reason r =
        Some (mapFinishReason (head (oa_choices response) ≫= choice_finish_reason))
    ∧ resp_stop_sequence r = None
    ∧ input_tokens (resp_usage r) = default 0%Z (oa_usage response ≫= prompt_tokens)
    ∧ output_tokens (resp_usage r) = default 0%Z (oa_usage response ≫= completion_tokens).
Proof.
  intros H. cbv zeta. unfold convertOpenAIToClaude in H.
  destruct (tool_use_blocks _) as [tool_part|e] eqn:Et; simpl in H; [|done].
  injection H as <-. exists tool_part. simpl. rewrite !num_or_else_zero. done.
Qed.

End response_translator.

(** C4.  The backend's answer [response] to the translated request has, in
    its first choice, the non-empty content [text] and the finish reason
    ["stop"].  Then the request sent to the backend names the provider's
    effective (routed) model, and any response [complete] returns has [text]
    as its one text block, placed first, the stop reason ["end_turn"], the
    backend's prompt and completion counts as input and output tokens (0 for
    a missing count), and the model name of the client's request.  [complete]
    does return one when the tool calls of the answer, if it has any, all
    carry argument strings that decode. *)
Theorem complete_text_response (self : BaseProvider)
    (makeRequest : OpenAIRequest → Completion OpenAIResponse)
    (getHelpfulError : Error → Error)
    (request : ClaudeRequest) (response : OpenAIResponse)
    (choice : OpenAIChoice) (message : OpenAIChoiceMessage) (text : string) :
  makeRequest (with_stream (convertClaudeToOpenAI self request) (Some false)) = Return response →
  head (oa_choices response) = Some choice →
  choice_message choice = Some message →
  cm_content message = Some text →
  text ≠ "" →
  choice_finish_reason choice = Some "stop" →
  oa_model (with_stream (convertClaudeToOpenAI self request) (Some false)) = getEffectiveModel self
  ∧ (Forall (fun toolCall => is_Some (decoded_input toolCall)) (default [] (cm_tool_calls message)) →
     ∃ r, complete self makeRequest getHelpfulError request = Return r)
  ∧ (∀ r, complete self makeRequest getHelpfulError request = Return r →
       List.filter is_text_block (resp_content r) = [ClaudeTextBlock text]
       ∧ head (resp_content r) = Some (ClaudeTextBlock text)
       ∧ resp_stop_reason r = Some "end_turn"
       ∧ input_tokens (resp_usage r) = default 0%Z (oa_usage response ≫= prompt_tokens)
       ∧ output_tokens (resp_usage r) = default 0%Z (oa_usage response ≫= completion_tokens)
       ∧ resp_model r = req_model request).
Proof.
  intros Hreq Hchoice Hmsg Hcontent Htext Hfinish.
  split; [done|]. split.
  - intros Hdec. unfold complete. rewrite Hreq. simpl.
    unfold convertOpenAIToClaude. rewrite Hchoice. simpl. rewrite Hmsg. simpl.
    destruct (tool_use_blocks_total _ Hdec) as [blocks ->]. simpl. eauto.
  - intros r Hr. unfold complete in Hr. rewrite Hreq in Hr. simpl in Hr.
    destruct (convertOpenAIToClaude response (req_model request)) as [r'|e] eqn:E; [|done].
    injection Hr as ->.
    apply convertOpenAIToClaude_Return in E. simpl in E.
    destruct E as (tool_part & Htools & Hc & _ & Hm & Hs & _ & Hin & Hout).
    rewrite Hchoice in *. simpl in *. rewrite Hmsg in *. simpl in *.
    rewrite Hcontent in Hc. apply truthy_true in Htext. rewrite Htext in Hc. simpl in Hc.
    rewrite Hfinish in Hs. rewrite Hc.
    split; [|done]. simpl. f_equal.
    apply filter_none. eapply Forall_impl; [exact (tool_use_blocks_all_tool_use _ _ Htools)|].
    intros b Hb. by destruct b.
Qed.

(** The name of the scenario's request resolves, by prefix, to
    ["llama3:8b"] on the Ollama defaults. *)
Example hello_request_routed :
  resolveModel (with_provider ollama DEFAULT_CONFIG) (req_model hello_request) = str "llama3:8b".
Proof. reflexivity. Qed.

(** The scenario of §8: the request for ["claude-3-5-sonnet-20241022"] is
    routed to ["llama3:8b"], the backend answers ["hello"], and the client
    gets ["hello"] back under the name it asked for. *)
Lemma complete_text_response_witness :
  oa_model (with_stream (convertClaudeToOpenAI (routed_provider "llama3:8b") hello_request)
              (Some false)) = "llama3:8b"
  ∧ ∃ r, complete (routed_provider "llama3:8b") (fun _ => Return hello_response)
           (fun e => e) hello_request = Return r
         ∧ List.filter is_text_block (resp_content r) = [ClaudeTextBlock "hello"]
         ∧ head (resp_content r) = Some (ClaudeTextBlock "hello")
         ∧ resp_stop_reason r = Some "end_turn"
         ∧ input_tokens (resp_usage r) = 5%Z
         ∧ output_tokens (resp_usage r) = 3%Z
         ∧ resp_model r = "claude-3-5-sonnet-20241022".
Proof.
  destruct (complete_text_response (routed_provider "llama3:8b")
              (fun _ => Return hello_response) (fun e => e) hello_request hello_response
              {| choice_message := Some {| cm_content := Some "hello"; cm_tool_calls := None |};
                 choice_finish_reason := Some "stop" |}
              {| cm_content := Some "hello"; cm_tool_calls := None |} "hello"
              eq_refl eq_refl eq_refl eq_refl ltac:(discriminate) eq_refl)
    as (Hmodel & Hreturns & Hprops).
  split; [exact Hmodel|].
  destruct (Hreturns ltac:(constructor)) as [r Hr].
  exists r. split; [exact Hr|]. exact (Hprops r Hr).
Defined.

(** C5, as the code has it.  With [tool_calls] the tool calls of the first
    choice: a translation that returns has, after the text block if there is
    one, exactly one tool-use block per tool call, in order, with the call's
    id and name and the JSON value its argument string decodes to, the empty
    object for an empty argument string; it returns when every argument
    string decodes; and when one of them is not valid JSON the [SyntaxError]
    of [JSON.parse] is thrown out of the translation. *)
Theorem tool_calls_decoded_or_thrown (response : OpenAIResponse) (originalModel : string) :
  let tool_calls :=
    default [] ((head (oa_choices response) ≫= choice_message) ≫= cm_tool_calls) in
  (∀ r, convertOpenAIToClaude response originalModel = Return r →
     Forall2 (fun toolCall b =>
                ∃ input, decoded_input toolCall = Some input
                         ∧ (function_arguments toolCall = "" → input = empty_object)
                         ∧ (function_arguments toolCall ≠ "" →
                            JSON_parse (function_arguments toolCall) = Some input)
                         ∧ b = ClaudeToolUseBlock (call_id toolCall) (function_name toolCall) input)
             tool_calls (List.filter is_tool_use_block (resp_content r)))
  ∧ (Forall (fun toolCall => is_Some (decoded_input toolCall)) tool_calls →
     ∃ r, convertOpenAIToClaude response originalModel = Return r)
  ∧ (Exists (fun toolCall => function_arguments toolCall ≠ ""
                             ∧ JSON_parse (function_arguments toolCall) = None) tool_calls →
     convertOpenAIToClaude response originalModel = Throw SyntaxError).
Proof.
  intros tool_calls. split; [|split].
  - intros r Hr. apply convertOpenAIToClaude_Return in Hr. simpl in Hr.
    destruct Hr as (tool_part & Htools & Hc & _). fold tool_calls in Htools.
    assert (Hfilter : List.filter is_tool_use_block (resp_content r) = tool_part).
    { rewrite Hc. pose proof (tool_use_blocks_all_tool_use _ _ Htools) as Hall.
      destruct ((head (oa_choices response) ≫= choice_message) ≫= cm_content) as [c|];
        [destruct (truthy c)|]; simpl.
      - by rewrite filter_all.
      - destruct tool_part as [|b bs]; [done|].
        change (List.filter is_tool_use_block (b :: bs) = b :: bs). by rewrite filter_all.
      - destruct tool_part as [|b bs]; [done|].
        change (List.filter is_tool_use_block (b :: bs) = b :: bs). by rewrite filter_all. }
    rewrite Hfilter. apply tool_use_blocks_Return in Htools.
    eapply Forall2_impl; [exact Htools|].
    intros tc b (input & Hin & ->). exists input. repeat split; [done| |].
    + intros He. rewrite (decoded_input_empty _ He) in Hin. congruence.
    + intros Hne. by rewrite <- (decoded_input_nonempty _ Hne).
  - intros Hdec. unfold convertOpenAIToClaude. fold tool_calls.
    destruct (tool_use_blocks_total _ Hdec) as [blocks ->]. simpl. eauto.
  - intros Hbad. unfold convertOpenAIToClaude. fold tool_calls.
    rewrite tool_use_blocks_Throw; [done|].
    eapply Exists_impl; [exact Hbad|].
    intros tc [Hne Hnone]. by rewrite (decoded_input_nonempty _ Hne).
Qed.

(** An answer with an empty argument string is translated to a tool-use
    block with the empty object as input. *)
Lemma tool_calls_decoded_or_thrown_witness :
  ∃ r, convertOpenAIToClaude
         {| oa_id := "chatcmpl-3";
            oa_choices :=
              [ {| choice_message :=
                     Some {| cm_content := None;
                             cm_tool_calls :=
                               Some [ {| call_id := "call_1"; function_name := "list_files";
                                         function_arguments := "" |} ] |};
                   choice_finish_reason := Some "tool_calls" |} ];
            oa_usage := None |} "claude-sonnet-4" = Return r.
Proof.
  apply (proj1 (proj2 (tool_calls_decoded_or_thrown _ "claude-sonnet-4"))).
  repeat constructor. by exists empty_object.
Defined.

(** C5 as stated fails: the argument string [{] is not valid JSON, and the
    translation of the answer that carries it throws instead of producing a
    tool-use block with an empty input. *)
Lemma invalid_arguments_counterexample :
  JSON_parse "{" = None
  ∧ convertOpenAIToClaude truncated_arguments_response "claude-sonnet-4" = Throw SyntaxError
  ∧ complete (routed_provider "llama3:8b") (fun _ => Return truncated_arguments_response)
      (fun e => e) hello_request = Throw SyntaxError.
Proof. repeat split. Qed.

(** ** Streaming relay *)

Import Relay.

Section relay.

Variable Date_now : nat → Z.
Variable JSON_parse_chunk : string → option OpenAIStreamChunk.
Variables messageId requestModel : string.

Local Abbreviation received := (received Date_now messageId requestModel).
Local Abbreviation tool_call_step := (tool_call_step Date_now).
Local Abbreviation handle_tool_call_delta := (handle_tool_call_delta Date_now).
Local Abbreviation handle_tool_calls := (handle_tool_calls Date_now).
Local Abbreviation handle_chunk := (handle_chunk Date_now).
Local Abbreviation handle_line := (handle_line Date_now JSON_parse_chunk).
Local Abbreviation on_data := (on_data Date_now JSON_parse_chunk).
Local Abbreviation data_phase := (data_phase Date_now JSON_parse_chunk messageId requestModel).
Local Abbreviation stream := (stream Date_now JSON_parse_chunk messageId requestModel).
Local Abbreviation line_chunk := (line_chunk JSON_parse_chunk).
Local Abbreviation session_chunks := (session_chunks JSON_parse_chunk).
Local Abbreviation session_texts := (session_texts JSON_parse_chunk).
Local Abbreviation session_fragments := (session_fragments JSON_parse_chunk).
Local Abbreviation session_tool_calls := (session_tool_calls Date_now JSON_parse_chunk).
Local Abbreviation session_stop_reason := (session_stop_reason JSON_parse_chunk).
Local Abbreviation session_hasToolCalls := (session_hasToolCalls JSON_parse_chunk).

Implicit Types (s : Session) (texts : list string) (fragments : list OpenAIStreamToolCall).
Implicit Types (reason : string) (has : bool).

Local Arguments Relay.tool_call_step : simpl never.

(** *** The data phase keeps [received] *)

Lemma received_start : received [] [] false "end_turn" (session_start messageId requestModel).
Proof. by constructor. Qed.

Lemma text_events_snoc texts t :
  text_events (texts ++ [t]) =
    (if bool_decide (texts = []) then [content_block_start 0 (start_text "")] else text_events texts)
    ++ [content_block_delta 0 (text_delta t)].
Proof.
  destruct texts as [|t0 texts]; [done|].
  rewrite bool_decide_eq_false_2 by done. simpl. by rewrite List.map_app.
Qed.

Lemma received_handle_content texts fragments has reason s content :
  received texts fragments has reason s →
  received (texts ++ option_list (or_null (default "" content))) fragments has reason
           (handle_content s content).
Proof.
  intros [Hw Hs Hi Ht Hh Hhf Hm Hf]. unfold handle_content.
  assert (Htr : truthy_opt content = truthy (default "" content)) by by destruct content.
  rewrite Htr. unfold or_null. destruct (truthy (default "" content)) eqn:E; simpl.
  - destruct s as [it ot bf st ix fr tcs htc ck wr]; simpl in *. subst.
    destruct (bool_decide (texts = [])) eqn:Ed; simpl.
    + apply bool_decide_eq_true in Ed. subst texts. constructor; simpl; try done.
    + apply bool_decide_eq_false in Ed.
      constructor; simpl; try done.
      * rewrite text_events_snoc, bool_decide_eq_false_2 by done. done.
      * rewrite bool_decide_eq_false_2; [done|]. by destruct texts.
      * rewrite length_app. simpl. lia.
  - rewrite app_nil_r. by constructor.
Qed.

Lemma fold_handle_tool_call_delta fragments s :
  fold_left handle_tool_call_delta fragments s =
    let st := fold_left tool_call_step fragments (toolCalls s, clock s) in
    set_clock st.2 (set_toolCalls st.1 s).
Proof.
  revert s. induction fragments as [|d ds IH]; intros s; simpl.
  - by destruct s.
  - rewrite IH. by destruct s.
Qed.

(** The loop over a [tool_calls] array: it handles the elements before the
    first [null], and throws if there is one. *)
Lemma handle_tool_call_deltas_read (deltaToolCalls : list (option OpenAIStreamToolCall)) s :
  Relay.handle_tool_call_deltas Date_now s deltaToolCalls =
    (if existsb (fun d => negb (bool_decide (is_Some d))) deltaToolCalls
     then Throw TypeError else Return tt,
     fold_left handle_tool_call_delta (read_fragments deltaToolCalls) s).
Proof.
  revert s. induction deltaToolCalls as [|[d|] ds IH]; intros s; [done| |done].
  cbn [Relay.handle_tool_call_deltas read_fragments fold_left existsb].
  rewrite IH. by rewrite bool_decide_true by done.
Qed.

Lemma handle_tool_calls_read s (deltaToolCalls : option (list (option OpenAIStreamToolCall))) :
  handle_tool_calls s deltaToolCalls =
    (if existsb (fun d => negb (bool_decide (is_Some d))) (default [] deltaToolCalls)
     then Throw TypeError else Return tt,
     match default [] deltaToolCalls with
     | [] => s
     | d :: ds => fold_left handle_tool_call_delta (read_fragments (d :: ds)) (set_hasToolCalls true s)
     end).
Proof.
  unfold Relay.handle_tool_calls. destruct deltaToolCalls as [[|d ds]|]; [done| |done].
  apply handle_tool_call_deltas_read.
Qed.

Lemma received_handle_tool_calls texts fragments has reason s
    (deltaToolCalls : option (list (option OpenAIStreamToolCall))) :
  received texts fragments has reason s →
  received texts (fragments ++ read_fragments (default [] deltaToolCalls))
           (has || negb (bool_decide (default [] deltaToolCalls = []))) reason
           (handle_tool_calls s deltaToolCalls).2.
Proof.
  intros [Hw Hs Hi Ht Hh Hhf Hm Hf]. rewrite handle_tool_calls_read. cbn [snd].
  destruct (default [] deltaToolCalls) as [|d ds].
  - cbn [read_fragments]. rewrite app_nil_r, bool_decide_true, orb_false_r by done.
    by constructor.
  - rewrite bool_decide_false, orb_true_r by done.
    rewrite fold_handle_tool_call_delta. cbv zeta.
    change (toolCalls (set_hasToolCalls true s)) with (toolCalls s).
    change (clock (set_hasToolCalls true s)) with (clock s).
    rewrite Hm, <- fold_left_app.
    destruct (fold_left tool_call_step (fragments ++ read_fragments (d :: ds)) ([], 0%nat))
      as [m c] eqn:E.
    by constructor.
Qed.

Lemma received_set_finishReason texts fragments has reason s v :
  received texts fragments has reason s → received texts fragments has v (set_finishReason v s).
Proof. intros []. by constructor. Qed.

Lemma received_set_inputTokens texts fragments has reason s v :
  received texts fragments has reason s → received texts fragments has reason (set_inputTokens v s).
Proof. intros []. by constructor. Qed.

Lemma received_set_buffer texts fragments has reason s v :
  received texts fragments has reason s → received texts fragments has reason (set_buffer v s).
Proof. intros []. by constructor. Qed.

(** What [hasToolCalls] becomes with a chunk. *)
Local Abbreviation brings_tool_calls :=
  (fun parsed : OpenAIStreamChunk => negb (bool_decide (chunk_tool_calls parsed = []))).

Lemma received_handle_chunk texts fragments has reason s parsed :
  received texts fragments has reason s →
  received (texts ++ option_list (chunk_text parsed)) (fragments ++ chunk_fragments parsed)
           (has || brings_tool_calls parsed)
           (chunk_stop_reason reason parsed) (handle_chunk s parsed).2.
Proof.
  intros H. unfold Relay.handle_chunk, chunk_text, chunk_fragments, chunk_stop_reason,
    chunk_throws, chunk_tool_calls.
  apply (received_handle_content _ _ _ _ _
           ((head (chunk_choices parsed) ≫= sc_delta) ≫= delta_content)) in H.
  apply (received_handle_tool_calls _ _ _ _ _
           ((head (chunk_choices parsed) ≫= sc_delta) ≫= delta_tool_calls)) in H.
  cbv zeta. rewrite handle_tool_calls_read in *. cbn [fst snd] in *.
  destruct (existsb _ _); [exact H|]. cbn [snd].
  destruct (chunk_usage parsed); [apply received_set_inputTokens|];
    (destruct (truthy_opt _); [by eapply received_set_finishReason | done]).
Qed.

Lemma received_handle_line texts fragments has reason s line :
  received texts fragments has reason s →
  received (texts ++ omap chunk_text (option_list (line_chunk line)))
           (fragments ++ List.concat (List.map chunk_fragments (option_list (line_chunk line))))
           (has || existsb brings_tool_calls (option_list (line_chunk line)))
           (fold_left chunk_stop_reason (option_list (line_chunk line)) reason)
           (handle_line s line).
Proof.
  intros H. unfold handle_line, Relay.line_chunk.
  destruct (startsWith line "data: "); [|by rewrite !app_nil_r, orb_false_r].
  destruct (String.eqb _ "[DONE]"); [by rewrite !app_nil_r, orb_false_r|].
  destruct (JSON_parse_chunk _) as [parsed|]; [|by rewrite !app_nil_r, orb_false_r].
  simpl. rewrite app_nil_r, orb_false_r.
  apply (received_handle_chunk _ _ _ _ _ parsed) in H.
  by destruct (chunk_text parsed).
Qed.

Lemma omap_option_list {A B : Type} (f : A → option B) (l : list A) :
  omap f l = List.concat (List.map (fun x => option_list (f x)) l).
Proof.
  induction l as [|x l IH]; [done|]. simpl. rewrite <- IH. by destruct (f x).
Qed.

Lemma received_handle_lines lines texts fragments has reason s :
  received texts fragments has reason s →
  received (texts ++ omap chunk_text (omap line_chunk lines))
           (fragments ++ List.concat (List.map chunk_fragments (omap line_chunk lines)))
           (has || existsb brings_tool_calls (omap line_chunk lines))
           (fold_left chunk_stop_reason (omap line_chunk lines) reason)
           (fold_left handle_line lines s).
Proof.
  revert texts fragments has reason s.
  induction lines as [|l lines IH]; intros texts fragments has reason s H.
  - simpl. by rewrite !app_nil_r, orb_false_r.
  - simpl. apply (received_handle_line _ _ _ _ _ l) in H. apply IH in H.
    rewrite <- !app_assoc, <- orb_assoc in H.
    destruct (line_chunk l) as [parsed|]; simpl in *; [|by rewrite ?app_nil_r in H].
    rewrite app_nil_r, orb_false_r in H. by destruct (chunk_text parsed).
Qed.

(** The handlers of a line leave the pending buffer alone. *)
Lemma buffer_fold_handle_tool_call_delta fragments s :
  buffer (fold_left handle_tool_call_delta fragments s) = buffer s.
Proof. by rewrite fold_handle_tool_call_delta. Qed.

Lemma buffer_handle_line s line : buffer (handle_line s line) = buffer s.
Proof.
  unfold handle_line, Relay.handle_chunk.
  destruct (startsWith line "data: "); [|done].
  destruct (String.eqb _ "[DONE]"); [done|].
  destruct (JSON_parse_chunk _) as [parsed|]; [|done].
  assert (Hc : ∀ s c, buffer (handle_content s c) = buffer s).
  { intros s0 c. unfold handle_content.
    destruct (truthy_opt c); [|done]. by destruct (hasStartedTextBlock s0). }
  assert (Ht : ∀ s d, buffer (handle_tool_calls s d).2 = buffer s).
  { intros s0 d. rewrite handle_tool_calls_read. cbn [snd].
    destruct (default [] d); [done|]. by rewrite buffer_fold_handle_tool_call_delta. }
  cbv zeta.
  pose proof (Ht (handle_content s ((head (chunk_choices parsed) ≫= sc_delta) ≫= delta_content))
                ((head (chunk_choices parsed) ≫= sc_delta) ≫= delta_tool_calls)) as Hb.
  rewrite Hc in Hb.
  destruct (handle_tool_calls _ _) as [[u|e] s2]; cbn [snd] in *; [|done].
  destruct (chunk_usage parsed); simpl; by destruct (truthy_opt _).
Qed.

Lemma buffer_handle_lines lines s : buffer (fold_left handle_line lines s) = buffer s.
Proof.
  revert s. induction lines as [|l lines IH]; intros s; [done|].
  simpl. by rewrite IH, buffer_handle_line.
Qed.

Lemma received_on_data chunks texts fragments has reason s :
  received texts fragments has reason s →
  received
    (texts ++ omap chunk_text (omap line_chunk (session_lines (buffer s) chunks)))
    (fragments ++ List.concat (List.map chunk_fragments
                                 (omap line_chunk (session_lines (buffer s) chunks))))
    (has || existsb brings_tool_calls (omap line_chunk (session_lines (buffer s) chunks)))
    (fold_left chunk_stop_reason (omap line_chunk (session_lines (buffer s) chunks)) reason)
    (fold_left on_data chunks s).
Proof.
  revert texts fragments has reason s.
  induction chunks as [|chunk chunks IH]; intros texts fragments has reason s H.
  - simpl. by rewrite !app_nil_r, orb_false_r.
  - simpl. unfold Relay.on_data at 2.
    set (lines := split_newline (buffer s +:+ Buffer_toString chunk)).
    apply (received_set_buffer _ _ _ _ _ (List.last lines "")) in H.
    apply (received_handle_lines (removelast lines)) in H.
    apply IH in H. rewrite buffer_handle_lines in H. simpl in H.
    rewrite <- !app_assoc, <- orb_assoc in H.
    by rewrite omap_app, List.map_app, List.concat_app, omap_app, fold_left_app, existsb_app.
Qed.

(** After the backend's chunks the session has received exactly the text
    fragments, the tool-call fragments and the stop reason of the chunks its
    lines decode to. *)
Lemma received_data_phase chunks :
  received (session_texts chunks) (session_fragments chunks) (session_hasToolCalls chunks)
           (session_stop_reason chunks) (data_phase chunks).
Proof. exact (received_on_data chunks [] [] false _ _ received_start). Qed.

Lemma toolCalls_data_phase chunks :
  toolCalls (data_phase chunks) = session_tool_calls chunks.
Proof.
  destruct (received_data_phase chunks) as [_ _ _ _ _ _ Hm _].
  unfold Relay.session_tool_calls. by rewrite <- Hm.
Qed.

(** Without a [tool_calls] array that is not empty there are no tool calls. *)
Lemma session_tool_calls_none chunks :
  session_hasToolCalls chunks = false → session_tool_calls chunks = [].
Proof.
  intros Hhas. destruct (received_data_phase chunks) as [_ _ _ _ _ Hhf _ _].
  unfold Relay.session_tool_calls. by rewrite (Hhf Hhas).
Qed.

(** *** The tool-call map *)

Lemma tool_call_step_nonempty st d : (tool_call_step st d).1 ≠ [].
Proof.
  unfold Relay.tool_call_step. simpl. unfold Map_mutate.
  intros H. apply List.map_eq_nil in H.
  destruct (Map_has st.1 (index d)) eqn:E.
  - rewrite H in E. done.
  - destruct (truthy_opt (delta_id d)); simpl in H; unfold Map_set_new in H;
      by destruct st.1.
Qed.

Lemma fold_tool_call_step_nil fragments :
  (fold_left tool_call_step fragments ([], 0%nat)).1 = [] ↔ fragments = [].
Proof.
  split; [|by intros ->].
  destruct fragments as [|d ds] using rev_ind; [done|].
  rewrite fold_left_app. simpl. intros H. by apply tool_call_step_nonempty in H.
Qed.

(** *** The end of the stream *)

Lemma fold_emit_tool_block tcs s :
  let s' := fold_left emit_tool_block tcs s in
  written s' = written s ++ render_blocks (currentBlockIndex s) (List.map tool_block tcs)
  ∧ hasStartedTextBlock s' = hasStartedTextBlock s
  ∧ hasToolCalls s' = hasToolCalls s
  ∧ finishReason s' = finishReason s
  ∧ outputTokens s' = outputTokens s.
Proof.
  revert s. induction tcs as [|tc tcs IH]; intros s; simpl.
  - by rewrite app_nil_r.
  - destruct (IH (emit_tool_block s tc)) as (Hw & Hs & Hh & Hf & Ho).
    rewrite Hw, Hs, Hh, Hf, Ho. clear.
    unfold emit_tool_block, tool_block, render_block.
    destruct (truthy (tc_arguments tc)); simpl; by rewrite <- !app_assoc.
Qed.

(** Everything a session writes, from what it received. *)
Lemma written_on_end texts fragments has reason s :
  received texts fragments has reason s →
  written (on_end s) =
    message_start messageId requestModel
    :: render_blocks 0 (session_blocks texts has (toolCalls s))
    ++ [message_delta reason (Z.of_nat (length texts)); message_stop].
Proof.
  intros [Hw Hs Hi Ht Hh Hhf Hm Hf].
  assert (Hnil : has = false → toolCalls s = []).
  { intros Hhas. rewrite (Hhf Hhas) in Hm. by injection Hm. }
  clear Hm Hhf. unfold on_end.
  destruct texts as [|t texts], has;
    destruct s as [it ot bf st ix fr tcs htc ck wr]; simpl in *; subst; simpl.
  - match goal with |- context [fold_left emit_tool_block ?l ?s0] =>
      destruct (fold_emit_tool_block l s0) as (Hw' & Hs' & Hh' & Hf' & Ho') end.
    rewrite Hs', Hh'. simpl. rewrite Hw', Hf', Ho'. simpl.
    rewrite List.map_map, <- app_assoc. done.
  - done.
  - match goal with |- context [fold_left emit_tool_block ?l ?s0] =>
      destruct (fold_emit_tool_block l s0) as (Hw' & Hs' & Hh' & Hf' & Ho') end.
    rewrite Hs', Hh'. simpl. rewrite Hw', Hf', Ho'. simpl.
    unfold render_block. simpl. rewrite !List.map_map. by rewrite <- !app_assoc.
  - rewrite (Hnil eq_refl). simpl.
    unfold render_block. simpl. rewrite List.map_map. by rewrite <- !app_assoc.
Qed.

(** The session's output in full, from the chunks its lines decode to:
    the text block if there was text, the tool calls in the order their slots
    first appeared (or the one empty text block when there was neither text
    nor a [tool_calls] array), the last stop reason and the number of text
    fragments as token count. *)
Lemma stream_spec chunks :
  stream chunks =
    message_start messageId requestModel
    :: render_blocks 0 (session_blocks (session_texts chunks) (session_hasToolCalls chunks)
                          (session_tool_calls chunks))
    ++ [message_delta (session_stop_reason chunks) (Z.of_nat (length (session_texts chunks)));
        message_stop].
Proof.
  unfold Relay.stream. rewrite <- toolCalls_data_phase.
  apply (written_on_end _ _ _ _ _ (received_data_phase chunks)).
Qed.

(** *** The event grammar *)

Lemma render_blocks_app i (bs1 bs2 : list Block) :
  render_blocks i (bs1 ++ bs2) = render_blocks i bs1 ++ render_blocks (i + length bs1) bs2.
Proof.
  revert i. induction bs1 as [|b bs1 IH]; intros i; simpl.
  - by rewrite Nat.add_0_r.
  - rewrite IH. replace (i + S (length bs1))%nat with (S i + length bs1)%nat by lia.
    by rewrite <- !app_assoc.
Qed.

Lemma start_indices_render_block i (b : Block) : start_indices (render_block i b) = [i].
Proof.
  unfold start_indices, render_block. simpl. rewrite omap_app. simpl.
  induction (block_deltas b) as [|d ds IH]; [done|]. simpl in *. done.
Qed.

Lemma stop_indices_render_block i (b : Block) : stop_indices (render_block i b) = [i].
Proof.
  unfold stop_indices, render_block. simpl. rewrite omap_app. simpl.
  induction (block_deltas b) as [|d ds IH]; [done|]. simpl in *. done.
Qed.

Lemma start_indices_app (es1 es2 : list Event) :
  start_indices (es1 ++ es2) = start_indices es1 ++ start_indices es2.
Proof. apply omap_app. Qed.

Lemma stop_indices_app (es1 es2 : list Event) :
  stop_indices (es1 ++ es2) = stop_indices es1 ++ stop_indices es2.
Proof. apply omap_app. Qed.

Lemma deltas_at_app i (es1 es2 : list Event) :
  deltas_at i (es1 ++ es2) = deltas_at i es1 ++ deltas_at i es2.
Proof. apply omap_app. Qed.

Lemma start_indices_render_blocks i (blocks : list Block) :
  start_indices (render_blocks i blocks) = seq i (length blocks).
Proof.
  revert i. induction blocks as [|b blocks IH]; intros i; [done|].
  cbn [render_blocks]. by rewrite start_indices_app, IH, start_indices_render_block.
Qed.

Lemma stop_indices_render_blocks i (blocks : list Block) :
  stop_indices (render_blocks i blocks) = seq i (length blocks).
Proof.
  revert i. induction blocks as [|b blocks IH]; intros i; [done|].
  cbn [render_blocks]. by rewrite stop_indices_app, IH, stop_indices_render_block.
Qed.

Lemma deltas_at_cons i (e : Event) (es : list Event) :
  deltas_at i (e :: es) =
    match e with
    | content_block_delta j d => if (j =? i)%nat then [d] else []
    | _ => []
    end ++ deltas_at i es.
Proof.
  destruct e; try done. unfold deltas_at. simpl. by destruct (_ =? _)%nat.
Qed.

Lemma deltas_at_deltas i j (ds : list BlockDelta) :
  deltas_at i (List.map (content_block_delta j) ds) = if (j =? i)%nat then ds else [].
Proof.
  induction ds as [|d ds IH]; [by destruct (j =? i)%nat|].
  cbn [List.map]. rewrite deltas_at_cons, IH. by destruct (j =? i)%nat.
Qed.

Lemma deltas_at_render_block i j (b : Block) :
  deltas_at i (render_block j b) = if (j =? i)%nat then block_deltas b else [].
Proof.
  unfold render_block. rewrite deltas_at_cons, deltas_at_app, deltas_at_deltas.
  simpl. apply app_nil_r.
Qed.

Lemma deltas_at_render_blocks_outside i j (blocks : list Block) :
  (i < j ∨ j + length blocks ≤ i)%nat → deltas_at i (render_blocks j blocks) = [].
Proof.
  revert j. induction blocks as [|b blocks IH]; intros j Hout; [done|].
  cbn [render_blocks]. rewrite deltas_at_app, deltas_at_render_block.
  rewrite IH by (simpl in Hout; lia).
  destruct (Nat.eqb_spec j i); [simpl in Hout; lia | done].
Qed.

Lemma well_bracketed_deltas i (ds : list BlockDelta) (rest : list Event) :
  well_bracketed i true (List.map (content_block_delta i) ds ++ rest) =
  well_bracketed i true rest.
Proof. induction ds as [|d ds IH]; [done|]. simpl. by rewrite Nat.eqb_refl. Qed.

Lemma well_bracketed_render_block i (b : Block) (rest : list Event) :
  well_bracketed i false (render_block i b ++ rest) = well_bracketed (S i) false rest.
Proof.
  unfold render_block. cbn [app well_bracketed negb andb]. rewrite Nat.eqb_refl.
  rewrite <- app_assoc, well_bracketed_deltas. simpl. by rewrite Nat.eqb_refl.
Qed.

Lemma well_bracketed_render_blocks i (blocks : list Block) (rest : list Event) :
  well_bracketed i false (render_blocks i blocks ++ rest) =
  well_bracketed (i + length blocks) false rest.
Proof.
  revert i. induction blocks as [|b blocks IH]; intros i.
  - simpl. by rewrite Nat.add_0_r.
  - cbn [render_blocks length]. rewrite <- app_assoc, well_bracketed_render_block, IH.
    f_equal. lia.
Qed.

(** The one session without a block: no text, a [tool_calls] array that
    was not empty, and no tool call out of it. *)
Lemma session_blocks_nil texts has (calls : list (Z * StreamingToolCall)) :
  session_blocks texts has calls = [] ↔ texts = [] ∧ has = true ∧ calls = [].
Proof.
  destruct texts as [|t texts], has, calls as [|kv calls]; simpl; split; try done;
    by intros (? & ? & ?).
Qed.

(** C1.  Whatever bytes the backend sends before its stream ends, the
    session's output is [message_start], then a sequence of blocks numbered
    0, 1, 2, ... each written as its [content_block_start], its deltas and
    its [content_block_stop] before the next block begins, then
    [message_delta] and [message_stop].  So the indices of the
    [content_block_start] events, and those of the [content_block_stop]
    events, are 0 .. n-1 in this order, there are as many of the one as of the
    other, and the output passes the check [well_bracketed]: every start of
    index [i] is followed by deltas of index [i] only and then by the stop of
    index [i], and the next start carries [i+1].  (The sequence has no block
    at all in one case: no text was received, and the handler met a
    [tool_calls] array but no tool call in it that it could read.) *)
Theorem stream_blocks_well_framed (chunks : list string) :
  ∃ (blocks : list Block) (stop_reason : string) (tokens : Z),
    stream chunks =
      message_start messageId requestModel
      :: render_blocks 0 blocks ++ [message_delta stop_reason tokens; message_stop]
    ∧ start_indices (stream chunks) = seq 0 (length blocks)
    ∧ stop_indices (stream chunks) = seq 0 (length blocks)
    ∧ length (start_indices (stream chunks)) = length (stop_indices (stream chunks))
    ∧ well_bracketed 0 false (stream chunks) = true
    ∧ (blocks = [] ↔
       session_texts chunks = [] ∧ session_hasToolCalls chunks = true
       ∧ session_tool_calls chunks = []).
Proof.
  eexists _, _, _. split; [apply stream_spec|].
  assert (Hstart : start_indices (stream chunks) = seq 0 (length
            (session_blocks (session_texts chunks) (session_hasToolCalls chunks)
               (session_tool_calls chunks)))).
  { rewrite stream_spec.
    change (start_indices (message_start messageId requestModel :: ?l)) with (start_indices l).
    rewrite start_indices_app, start_indices_render_blocks. apply app_nil_r. }
  assert (Hstop : stop_indices (stream chunks) = seq 0 (length
            (session_blocks (session_texts chunks) (session_hasToolCalls chunks)
               (session_tool_calls chunks)))).
  { rewrite stream_spec.
    change (stop_indices (message_start messageId requestModel :: ?l)) with (stop_indices l).
    rewrite stop_indices_app, stop_indices_render_blocks. apply app_nil_r. }
  rewrite Hstart, Hstop. split; [done|]. split; [done|]. split; [done|]. split.
  - rewrite stream_spec. cbn [well_bracketed negb andb].
    by rewrite well_bracketed_render_blocks.
  - apply session_blocks_nil.
Qed.

(** X29. When no chunk of the session carried text and none carried a
    [tool_calls] array with an element in it, nothing but [message_start] is
    written before the stream ends, and the whole output is [message_start],
    the start and stop of one empty text block at index 0, [message_delta]
    with a token count of 0, and [message_stop]. *)
Theorem silent_session_one_empty_text_block (chunks : list string) :
  Forall (fun parsed => chunk_text parsed = None ∧ chunk_tool_calls parsed = [])
         (session_chunks chunks) →
  written (data_phase chunks) = [message_start messageId requestModel]
  ∧ ∃ stop_reason,
      stream chunks =
        [message_start messageId requestModel;
         content_block_start 0 (start_text "");
         content_block_stop 0;
         message_delta stop_reason 0;
         message_stop].
Proof.
  intros Hsilent.
  assert (Ht : session_texts chunks = []).
  { unfold Relay.session_texts. induction Hsilent as [|c cs [Hc _] _ IH]; [done|].
    simpl. by rewrite Hc. }
  assert (Hh : session_hasToolCalls chunks = false).
  { unfold Relay.session_hasToolCalls. induction Hsilent as [|c cs [_ Hc] _ IH]; [done|].
    simpl. by rewrite Hc, IH. }
  destruct (received_data_phase chunks) as [Hw _ _ _ _ _ _ _].
  rewrite Ht in Hw. split; [done|].
  exists (session_stop_reason chunks).
  by rewrite stream_spec, Ht, Hh.
Qed.

(** *** Accumulation of tool calls *)

Lemma append_assoc (a b c : string) : (a +:+ b) +:+ c = a +:+ (b +:+ c).
Proof.
  induction a as [|x a IH]; [done|].
  change (String x ((a +:+ b) +:+ c) = String x (a +:+ (b +:+ c))). by f_equal.
Qed.

Lemma append_empty_r (a : string) : a +:+ "" = a.
Proof.
  induction a as [|x a IH]; [done|].
  change (String x (a +:+ "") = String x a). by f_equal.
Qed.

Implicit Types (m : list (Z * StreamingToolCall)) (k : Z) (tc : StreamingToolCall).

Lemma Map_has_true m k : Map_has m k = true ↔ is_Some (Map_get m k).
Proof.
  induction m as [|[k' v] m IH]; simpl.
  - split; [done | by intros [? ?]].
  - destruct (k' =? k)%Z; simpl; [split; eauto | done].
Qed.

Lemma Map_has_false m k : Map_has m k = false ↔ Map_get m k = None.
Proof.
  induction m as [|[k' v] m IH]; simpl; [done|].
  destruct (k' =? k)%Z; simpl; [split; done | done].
Qed.

Lemma Map_get_set_new m k tc k' :
  Map_get (Map_set_new m k tc) k' =
    match Map_get m k' with
    | Some v => Some v
    | None => if (k =? k')%Z then Some tc else None
    end.
Proof.
  unfold Map_set_new. induction m as [|[k0 v] m IH]; simpl; [done|].
  by destruct (k0 =? k')%Z.
Qed.

Lemma Map_get_mutate m k f k' :
  Map_get (Map_mutate m k f) k' =
    (if (k' =? k)%Z then f else id) <$> Map_get m k'.
Proof.
  unfold Map_mutate. induction m as [|[k0 v] m IH]; simpl; [done|].
  destruct (Z.eqb_spec k0 k) as [->|Hne]; simpl.
  - destruct (Z.eqb_spec k k') as [->|Hne']; simpl; [|done].
    by rewrite Z.eqb_refl.
  - destruct (Z.eqb_spec k0 k') as [->|Hne']; simpl; [|done].
    by destruct (Z.eqb_spec k' k).
Qed.

Lemma Map_get_split m k tc :
  Map_get m k = Some tc → ∃ l1 l2, m = l1 ++ (k, tc) :: l2.
Proof.
  induction m as [|[k0 v] m IH]; simpl; [done|].
  destruct (Z.eqb_spec k0 k) as [->|Hne].
  - intros [= ->]. by exists [], m.
  - intros H. destruct (IH H) as (l1 & l2 & ->). by exists ((k0, v) :: l1), l2.
Qed.

(** A fragment leaves the accumulators of the other slots alone. *)
Lemma tool_call_step_other st d k :
  index d ≠ k → Map_get (tool_call_step st d).1 k = Map_get st.1 k.
Proof.
  intros Hne. unfold Relay.tool_call_step. cbv zeta. cbn [fst snd].
  rewrite Map_get_mutate.
  destruct (Z.eqb_spec k (index d)) as [->|_]; [done|].
  destruct (Map_has st.1 (index d)); [by destruct (Map_get st.1 k)|].
  destruct (truthy_opt (delta_id d)); cbn [fst]; rewrite Map_get_set_new;
    (destruct (Map_get st.1 k); [done|]); by destruct (Z.eqb_spec (index d) k).
Qed.

(** It is merged into the accumulator of its slot when there is one ... *)
Lemma tool_call_step_existing st d tc :
  Map_get st.1 (index d) = Some tc →
  Map_get (tool_call_step st d).1 (index d) = Some (merge_delta d tc).
Proof.
  intros Hget. unfold Relay.tool_call_step. cbv zeta. cbn [fst snd].
  rewrite Map_get_mutate, Z.eqb_refl.
  rewrite (proj2 (Map_has_true _ _)) by eauto. by rewrite Hget.
Qed.

(** ... and into a new one otherwise, whose id is generated from the clock
    when the fragment brings none. *)
Lemma tool_call_step_new st d :
  Map_get st.1 (index d) = None →
  ∃ n, Map_get (tool_call_step st d).1 (index d) =
         Some (merge_delta d (blank_call (generated_id (Date_now n) (index d)))).
Proof.
  intros Hget. exists st.2. unfold Relay.tool_call_step. cbv zeta. cbn [fst snd].
  rewrite Map_get_mutate, Z.eqb_refl.
  rewrite (proj2 (Map_has_false _ _)) by done.
  destruct (delta_id d) as [i|] eqn:Ei; simpl.
  - destruct (truthy i) eqn:Et; cbn [fst]; rewrite Map_get_set_new, Hget, Z.eqb_refl; simpl;
      unfold merge_delta, blank_call; simpl; rewrite ?Ei; simpl; rewrite ?Et; f_equal; f_equal;
      by destruct (delta_function d ≫= delta_name) as [nm|]; simpl; [destruct (truthy nm) eqn:En; rewrite ?En|].
  - cbn [fst]. rewrite Map_get_set_new, Hget, Z.eqb_refl. simpl.
    unfold merge_delta, blank_call. simpl. rewrite Ei. simpl. f_equal. f_equal.
    by destruct (delta_function d ≫= delta_name) as [nm|]; simpl; [destruct (truthy nm) eqn:En; rewrite ?En|].
Qed.

Lemma settle_other tc0 k d fragments :
  index d ≠ k → settle tc0 k (d :: fragments) = settle tc0 k fragments.
Proof.
  intros Hne. unfold settle. simpl.
  destruct (Z.eqb_spec (index d) k); [done|]. simpl.
  f_equal; by destruct (slot_last _ k fragments).
Qed.

Lemma settle_merge tc0 d fragments :
  settle (merge_delta d tc0) (index d) fragments = settle tc0 (index d) (d :: fragments).
Proof.
  unfold settle, merge_delta. simpl. rewrite Z.eqb_refl. simpl.
  rewrite append_assoc. unfold fragment_arguments, fragment_name.
  f_equal.
  - destruct (slot_last delta_id (index d) fragments); [done|].
    destruct (delta_id d) as [i|]; simpl; [|done]. by destruct (truthy i).
  - destruct (slot_last _ (index d) fragments); [done|].
    destruct (delta_function d ≫= delta_name) as [nm|]; simpl; [|done]. by destruct (truthy nm).
Qed.

Lemma fold_tool_call_step_existing fragments st k tc0 :
  Map_get st.1 k = Some tc0 →
  Map_get (fold_left tool_call_step fragments st).1 k = Some (settle tc0 k fragments).
Proof.
  revert st tc0. induction fragments as [|d ds IH]; intros st tc0 Hget.
  - simpl. rewrite Hget. unfold settle. simpl. rewrite append_empty_r. by destruct tc0.
  - cbn [fold_left]. destruct (decide (index d = k)) as [<-|Hne].
    + rewrite (IH _ (merge_delta d tc0)) by by apply tool_call_step_existing.
      by rewrite settle_merge.
    + rewrite (IH _ tc0) by by rewrite tool_call_step_other.
      by rewrite settle_other.
Qed.

(** The accumulator of a slot the session's fragments address: the last
    id and name they brought, a generated id if they brought none, and their
    argument texts one after the other. *)
Lemma fold_tool_call_step_new fragments st k :
  Map_get st.1 k = None →
  addressed k fragments = true →
  ∃ n, Map_get (fold_left tool_call_step fragments st).1 k =
         Some (settle (blank_call (generated_id (Date_now n) k)) k fragments).
Proof.
  revert st. induction fragments as [|d ds IH]; intros st Hget Haddr; [done|].
  cbn [fold_left]. destruct (decide (index d = k)) as [<-|Hne].
  - destruct (tool_call_step_new st d Hget) as [n Hn]. exists n.
    rewrite (fold_tool_call_step_existing _ _ _ _ Hn). by rewrite settle_merge.
  - simpl in Haddr. destruct (Z.eqb_spec (index d) k) as [|_]; [done|]. simpl in Haddr.
    destruct (IH (tool_call_step st d)) as [n Hn]; [by rewrite tool_call_step_other | done |].
    exists n. rewrite Hn. by rewrite settle_other.
Qed.

(** *** The block of a tool call *)

Local Abbreviation tool_blocks := (List.map (fun kv : Z * StreamingToolCall => tool_block kv.2)).

Lemma render_tool_blocks_split b (l1 l2 : list (Z * StreamingToolCall)) k tc :
  render_blocks b (tool_blocks (l1 ++ (k, tc) :: l2)) =
    render_blocks b (tool_blocks l1)
    ++ render_block (b + length l1) (tool_block tc)
    ++ render_blocks (S (b + length l1)) (tool_blocks l2).
Proof. rewrite List.map_app, render_blocks_app, length_map. done. Qed.

Lemma deltas_at_tool_blocks i b (l1 l2 : list (Z * StreamingToolCall)) k tc :
  i = (b + length l1)%nat →
  deltas_at i (render_blocks b (tool_blocks (l1 ++ (k, tc) :: l2))) =
    block_deltas (tool_block tc).
Proof.
  intros ->. rewrite render_tool_blocks_split, !deltas_at_app.
  rewrite deltas_at_render_blocks_outside by (rewrite length_map; lia).
  rewrite deltas_at_render_block, Nat.eqb_refl.
  rewrite deltas_at_render_blocks_outside by lia.
  simpl. apply app_nil_r.
Qed.

Lemma render_tool_block i tc :
  tc_arguments tc ≠ "" →
  render_block i (tool_block tc) =
    [content_block_start i (start_tool_use (tc_id tc) (tc_name tc));
     content_block_delta i (input_json_delta (tc_arguments tc));
     content_block_stop i].
Proof.
  intros H. apply truthy_true in H. unfold render_block, tool_block. simpl. by rewrite H.
Qed.

Lemma text_events_no_tool_use texts :
  Forall (fun e => is_tool_use_event e = false) (text_events texts)
  ∧ stop_indices (text_events texts) = [].
Proof.
  destruct texts as [|t texts]; [by split|]. unfold text_events.
  generalize (t :: texts). intros l. split.
  - constructor; [done|]. induction l; by constructor.
  - unfold stop_indices. simpl. by induction l.
Qed.

Lemma slot_arguments_addressed slot fragments :
  slot_arguments slot fragments ≠ "" → addressed slot fragments = true.
Proof.
  induction fragments as [|d ds IH]; simpl; [done|].
  destruct (index d =? slot)%Z; [done|]. exact IH.
Qed.

(** A session with a tool call has met a [tool_calls] array. *)
Lemma session_hasToolCalls_call chunks k tc :
  Map_get (session_tool_calls chunks) k = Some tc → session_hasToolCalls chunks = true.
Proof.
  intros Hget. destruct (session_hasToolCalls chunks) eqn:E; [done|].
  by rewrite (session_tool_calls_none _ E) in Hget.
Qed.

(** C2.  Let [fragments] be the tool-call delta fragments of the session in
    arrival order, and let the argument texts of those addressed to [slot],
    put one after the other, be non-empty.  Then
    - before the stream ends nothing of a tool-use block has been written
      (no tool-use start, no JSON delta, no block stop);
    - after it, the output has a tool-use block at some index [i]: its start,
      one [input_json_delta] carrying that concatenation, its stop;
    - that delta is the only delta the whole output has for index [i];
    - the block's id is the last id the fragments of the slot brought; if
      they brought none it is [toolu_], a reading of the clock in decimal,
      [_] and the slot in decimal; its name is the last name they brought. *)
Theorem tool_call_arguments_sent_once (chunks : list string) (slot : Z) :
  let fragments := session_fragments chunks in
  slot_arguments slot fragments ≠ "" →
  ∃ (i : nat) (id name : string) (before after : list Event),
    Forall (fun e => is_tool_use_event e = false) (written (data_phase chunks))
    ∧ stop_indices (written (data_phase chunks)) = []
    ∧ stream chunks =
        written (data_phase chunks) ++ before
        ++ [content_block_start i (start_tool_use id name);
            content_block_delta i (input_json_delta (slot_arguments slot fragments));
            content_block_stop i]
        ++ after
    ∧ deltas_at i (stream chunks) = [input_json_delta (slot_arguments slot fragments)]
    ∧ (slot_last delta_id slot fragments = None →
       ∃ n, id = "toolu_" +:+ Number_toString (Date_now n) +:+ "_" +:+ Number_toString slot)
    ∧ (∀ v, slot_last delta_id slot fragments = Some v → id = v)
    ∧ name = default "" (slot_last fragment_name slot fragments).
Proof.
  intros fragments Hargs.
  pose proof (slot_arguments_addressed _ _ Hargs) as Haddr.
  destruct (received_data_phase chunks) as [Hw _ _ _ _ _ _ _].
  destruct (fold_tool_call_step_new fragments ([], 0%nat) slot eq_refl Haddr) as [n Hn].
  change (Map_get (session_tool_calls chunks) slot = Some
            (settle (blank_call (generated_id (Date_now n) slot)) slot fragments)) in Hn.
  remember (settle (blank_call (generated_id (Date_now n) slot)) slot fragments) as tc eqn:Etc.
  assert (Htc : tc_arguments tc = slot_arguments slot fragments) by by rewrite Etc.
  pose proof (session_hasToolCalls_call _ _ _ Hn) as Hhas.
  destruct (Map_get_split _ _ _ Hn) as (l1 & l2 & Hsplit).
  pose proof (text_events_no_tool_use (session_texts chunks)) as [Hno Hnostop].
  pose proof (stream_spec chunks) as Hstream. rewrite Hsplit, Hhas in Hstream.
  assert (Hid : (slot_last delta_id slot fragments = None →
                 ∃ n0, tc_id tc =
                         "toolu_" +:+ Number_toString (Date_now n0) +:+ "_"
                         +:+ Number_toString slot)
                ∧ (∀ v, slot_last delta_id slot fragments = Some v → tc_id tc = v)
                ∧ tc_name tc = default "" (slot_last fragment_name slot fragments)).
  { rewrite Etc. unfold settle. simpl. split; [|split; [|done]].
    - intros ->. by exists n.
    - by intros v ->. }
  clear Etc.
  destruct (session_texts chunks) as [|t texts] eqn:Etexts.
  - (* no text block: the tool blocks start at index 0 *)
    exists (0 + length l1)%nat, (tc_id tc), (tc_name tc),
      (render_blocks 0 (tool_blocks l1)),
      (render_blocks (S (0 + length l1)) (tool_blocks l2)
       ++ [message_delta (session_stop_reason chunks) (Z.of_nat (length (@nil string)));
           message_stop]).
    split; [rewrite Hw; by constructor|]. split; [by rewrite Hw|].
    change (session_blocks [] true (l1 ++ (slot, tc) :: l2))
      with (tool_blocks (l1 ++ (slot, tc) :: l2)) in Hstream.
    split; [|split; [|exact Hid]].
    + rewrite Hstream, Hw.
      rewrite render_tool_blocks_split, render_tool_block, Htc by by rewrite Htc.
      simpl. by rewrite <- !app_assoc.
    + rewrite Hstream.
      rewrite deltas_at_cons, deltas_at_app, deltas_at_tool_blocks by done.
      unfold tool_block. simpl. rewrite Htc.
      apply truthy_true in Hargs. rewrite Hargs. done.
  - (* the text block is block 0: the tool blocks start at index 1 *)
    exists (1 + length l1)%nat, (tc_id tc), (tc_name tc),
      (content_block_stop 0 :: render_blocks 1 (tool_blocks l1)),
      (render_blocks (S (1 + length l1)) (tool_blocks l2)
       ++ [message_delta (session_stop_reason chunks) (Z.of_nat (length (t :: texts)));
           message_stop]).
    split; [rewrite Hw; by constructor|].
    split; [rewrite Hw; exact Hnostop|].
    change (session_blocks (t :: texts) true (l1 ++ (slot, tc) :: l2)) with
      ([ {| block_start := start_text ""; block_deltas := List.map text_delta (t :: texts) |} ]
       ++ tool_blocks (l1 ++ (slot, tc) :: l2)) in Hstream.
    split; [|split; [|exact Hid]].
    + rewrite Hstream, Hw, render_blocks_app.
      cbn [length Nat.add]. rewrite render_tool_blocks_split, render_tool_block, Htc by by rewrite Htc.
      cbn [render_blocks]. unfold render_block, text_events. cbn [block_start block_deltas].
      rewrite List.map_map. simpl. rewrite <- !app_assoc. simpl. done.
    + rewrite Hstream, render_blocks_app.
      rewrite deltas_at_cons, !deltas_at_app, deltas_at_tool_blocks by done.
      rewrite deltas_at_render_blocks_outside by (simpl; lia).
      unfold tool_block. simpl. rewrite Htc.
      apply truthy_true in Hargs. rewrite Hargs. done.
Qed.

End relay.

(** The silent stream, decoded from its wire text. *)
Lemma silent_session_one_empty_text_block_witness :
  written (data_phase (Wire.clock_from 1700000000000) Wire.decode "msg_1" "claude-sonnet-4"
             Wire.silent_session)
    = [message_start "msg_1" "claude-sonnet-4"]
  ∧ ∃ stop_reason,
      stream (Wire.clock_from 1700000000000) Wire.decode "msg_1" "claude-sonnet-4"
        Wire.silent_session =
        [message_start "msg_1" "claude-sonnet-4";
         content_block_start 0 (start_text "");
         content_block_stop 0;
         message_delta stop_reason 0;
         message_stop].
Proof.
  apply silent_session_one_empty_text_block.
  vm_compute. repeat constructor.
Defined.

(** C8.  A session can end without any content block.  The backend line
    [data: {"choices":[{"delta":{"tool_calls":[null]},"finish_reason":"tool_calls"}]}]
    brings no text and no tool-call fragment the handler can read: the
    handler sets [hasToolCalls], the loop over the array throws at [null],
    and the [catch] drops the rest of the chunk, its finish reason included.
    The [end] handler then finds no text block to close, no tool call to
    write, and [hasToolCalls] set: it writes [message_delta] and
    [message_stop] only. *)
Theorem null_tool_call_no_content_block :
  session_texts Wire.decode Wire.null_call_session = []
  ∧ session_fragments Wire.decode Wire.null_call_session = []
  ∧ session_tool_calls (Wire.clock_from 1700000000000) Wire.decode Wire.null_call_session = []
  ∧ stream (Wire.clock_from 1700000000000) Wire.decode "msg_1" "claude-sonnet-4"
      Wire.null_call_session =
      [message_start "msg_1" "claude-sonnet-4";
       message_delta "end_turn" 0;
       message_stop].
Proof. vm_compute. repeat split. Qed.

(** What the relay writes for the three-fragment tool call. *)
Example weather_session_output :
  stream (Wire.clock_from 1700000000000) Wire.decode "msg_1" "claude-sonnet-4"
    Wire.weather_session =
    [message_start "msg_1" "claude-sonnet-4";
     content_block_start 0 (start_tool_use "toolu_1700000000000_0" "get_weather");
     content_block_delta 0 (input_json_delta (wire "{'city':'Paris'}"));
     content_block_stop 0;
     message_delta "tool_use" 0;
     message_stop].
Proof. vm_compute. reflexivity. Qed.

(** The three fragments of [weather_session] come without an id: the block
    carries the id made from the clock and the slot, and the three argument
    fragments in one delta. *)
Lemma tool_call_arguments_sent_once_witness :
  slot_last delta_id 0 (session_fragments Wire.decode Wire.weather_session) = None
  ∧ stream (Wire.clock_from 1700000000000) Wire.decode "msg_1" "claude-sonnet-4"
      Wire.weather_session =
      [message_start "msg_1" "claude-sonnet-4";
       content_block_start 0 (start_tool_use "toolu_1700000000000_0" "get_weather");
       content_block_delta 0 (input_json_delta (wire "{'city':'Paris'}"));
       content_block_stop 0;
       message_delta "tool_use" 0;
       message_stop]
  ∧ ∃ (i : nat) (id name : string) (before after : list Event),
    Forall (fun e => is_tool_use_event e = false)
      (written (data_phase (Wire.clock_from 1700000000000) Wire.decode "msg_1" "claude-sonnet-4"
                  Wire.weather_session))
    ∧ stop_indices
        (written (data_phase (Wire.clock_from 1700000000000) Wire.decode "msg_1" "claude-sonnet-4"
                    Wire.weather_session)) = []
    ∧ stream (Wire.clock_from 1700000000000) Wire.decode "msg_1" "claude-sonnet-4"
        Wire.weather_session =
        written (data_phase (Wire.clock_from 1700000000000) Wire.decode "msg_1" "claude-sonnet-4"
                   Wire.weather_session) ++ before
        ++ [content_block_start i (start_tool_use id name);
            content_block_delta i
              (input_json_delta (slot_arguments 0 (session_fragments Wire.decode Wire.weather_session)));
            content_block_stop i]
        ++ after
    ∧ deltas_at i (stream (Wire.clock_from 1700000000000) Wire.decode "msg_1" "claude-sonnet-4"
                     Wire.weather_session)
      = [input_json_delta (slot_arguments 0 (session_fragments Wire.decode Wire.weather_session))]
    ∧ (slot_last delta_id 0 (session_fragments Wire.decode Wire.weather_session) = None →
       ∃ n, id = "toolu_" +:+ Number_toString (Wire.clock_from 1700000000000 n) +:+ "_"
                 +:+ Number_toString 0)
    ∧ (∀ v, slot_last delta_id 0 (session_fragments Wire.decode Wire.weather_session) = Some v →
            id = v)
    ∧ name = default "" (slot_last fragment_name 0
                           (session_fragments Wire.decode Wire.weather_session)).
Proof.
  split; [vm_compute; reflexivity|]. split; [vm_compute; reflexivity|].
  apply (tool_call_arguments_sent_once (Wire.clock_from 1700000000000) Wire.decode
           "msg_1" "claude-sonnet-4" Wire.weather_session 0).
  vm_compute. discriminate.
Defined.

(** *** Generated ids *)

Section generated_ids.

Lemma Number_toString_inj (a b : Z) : Number_toString a = Number_toString b → a = b.
Proof.
  unfold Number_toString. intros H.
  assert (Hnn : ∀ z, Z.to_int z ≠ Decimal.Pos Decimal.Nil ∧ Z.to_int z ≠ Decimal.Neg Decimal.Nil).
  { intros z. split; intros Hz; pose proof (DecimalZ.of_to z) as Hof;
      rewrite Hz in Hof; simpl in Hof; subst z; discriminate. }
  apply (f_equal NilZero.int_of_string) in H.
  rewrite !NilZero.isi in H by apply Hnn.
  injection H as H. apply (f_equal Z.of_int) in H. by rewrite !DecimalZ.of_to in H.
Qed.

Lemma string_of_uint_no_underscore (d : Decimal.uint) :
  has_char "_" (NilEmpty.string_of_uint d) = false.
Proof. induction d; simpl; done. Qed.

Lemma Number_toString_no_underscore (z : Z) : has_char "_" (Number_toString z) = false.
Proof.
  unfold Number_toString, NilZero.string_of_int, NilZero.string_of_uint.
  destruct (Z.to_int z) as [d|d]; destruct d; simpl; try done;
    apply string_of_uint_no_underscore.
Qed.

Lemma split_at_underscore (a b a' b' : string) :
  has_char "_" a = false → has_char "_" a' = false →
  a +:+ String "_" b = a' +:+ String "_" b' → a = a' ∧ b = b'.
Proof.
  revert a'. induction a as [|c a IH]; intros [|c' a'] Ha Ha' H; simpl in *.
  - by injection H as ->.
  - injection H as <- _. by rewrite Ascii.eqb_refl in Ha'.
  - injection H as -> _. by rewrite Ascii.eqb_refl in Ha.
  - injection H as -> H. apply orb_false_iff in Ha as [_ Ha], Ha' as [_ Ha'].
    by destruct (IH _ Ha Ha' H) as [-> ->].
Qed.

(** A generated id determines the clock reading and the slot it was made
    from: the ids generated for two slots of a session are different. *)
Lemma generated_id_inj (now1 slot1 now2 slot2 : Z) :
  generated_id now1 slot1 = generated_id now2 slot2 → now1 = now2 ∧ slot1 = slot2.
Proof.
  unfold generated_id. intros H.
  change ("toolu_" +:+ ?x) with
    (String "t" (String "o" (String "o" (String "l" (String "u" (String "_" x)))))) in H.
  injection H as H.
  apply split_at_underscore in H as [H1 H2];
    [|apply Number_toString_no_underscore..].
  split; by apply Number_toString_inj.
Qed.

End generated_ids.

(** *** Reassembly of lines *)

Section reassembly.

Variable Date_now : nat → Z.
Variable JSON_parse_chunk : string → option OpenAIStreamChunk.

Lemma split_newline_nonempty (s : string) : split_newline s ≠ [].
Proof.
  destruct s as [|c s]; simpl; [done|].
  destruct (Ascii.eqb c newline); [done|]. by destruct (split_newline s).
Qed.

Lemma split_newline_cons (c : ascii) (s : string) :
  split_newline (String c s) =
    if Ascii.eqb c newline then "" :: split_newline s
    else match split_newline s with
         | l :: ls => String c l :: ls
         | [] => [String c ""]
         end.
Proof. done. Qed.

(** Cutting a text in two does not change its lines: the lines of
    [a +:+ b] are the complete lines of [a], then the lines of what [a]
    left pending followed by [b]. *)
Lemma split_newline_app (a b : string) :
  split_newline (a +:+ b) =
    removelast (split_newline a) ++ split_newline (List.last (split_newline a) "" +:+ b).
Proof.
  induction a as [|c a IH]; [done|].
  change (String c a +:+ b) with (String c (a +:+ b)).
  rewrite !split_newline_cons, IH.
  pose proof (split_newline_nonempty a) as Hne.
  destruct (Ascii.eqb c newline) eqn:Ec.
  - by destruct (split_newline a) as [|l ls].
  - destruct (split_newline a) as [|l [|l' ls]]; [done| |done].
    simpl. by rewrite Ec.
Qed.

Lemma split_newline_no_newline (p : string) :
  no_newline p = true → split_newline p = [p].
Proof.
  induction p as [|c p IH]; [done|]. simpl.
  destruct (Ascii.eqb c newline); [done|]. simpl. by intros ->%IH.
Qed.

(** What stays in the buffer never holds a line break. *)
Lemma last_split_newline_no_newline (s : string) :
  no_newline (List.last (split_newline s) "") = true.
Proof.
  induction s as [|c s IH]; [done|].
  rewrite split_newline_cons. pose proof (split_newline_nonempty s) as Hne.
  destruct (Ascii.eqb c newline) eqn:Ec.
  - by destruct (split_newline s).
  - destruct (split_newline s) as [|l [|l' ls]]; [done| |done].
    simpl in *. by rewrite Ec.
Qed.

(** The lines the [data] handler loops over in a session are the complete
    lines of the texts of its chunks put one after the other. *)
Lemma session_lines_whole (chunks : list string) (pending : string) :
  no_newline pending = true →
  session_lines pending chunks =
    removelast (split_newline
                  (pending +:+ fold_right String.append "" (Buffer_toString <$> chunks))).
Proof.
  revert pending. induction chunks as [|chunk chunks IH]; intros pending Hp.
  - simpl. by rewrite append_empty_r, split_newline_no_newline.
  - cbn [session_lines fold_right fmap list_fmap].
    rewrite IH by apply last_split_newline_no_newline.
    rewrite <- append_assoc, (split_newline_app (pending +:+ Buffer_toString chunk)).
    by rewrite removelast_app by apply split_newline_nonempty.
Qed.

Lemma session_chunks_texts (chunks : list string) :
  session_chunks JSON_parse_chunk chunks =
    omap (line_chunk JSON_parse_chunk)
         (removelast (split_newline (fold_right String.append "" (Buffer_toString <$> chunks)))).
Proof. unfold session_chunks. by rewrite session_lines_whole. Qed.

(** The output depends on the chunks through their texts put one after the
    other, and not on where one chunk ends and the next begins. *)
Lemma stream_chunking_irrelevant (messageId requestModel : string)
    (chunks1 chunks2 : list string) :
  fold_right String.append "" (Buffer_toString <$> chunks1)
  = fold_right String.append "" (Buffer_toString <$> chunks2) →
  stream Date_now JSON_parse_chunk messageId requestModel chunks1 =
  stream Date_now JSON_parse_chunk messageId requestModel chunks2.
Proof.
  intros Htexts. rewrite !stream_spec.
  unfold session_texts, session_tool_calls, session_fragments, session_stop_reason,
    session_hasToolCalls.
  by rewrite !session_chunks_texts, Htexts.
Qed.

(** *** Decoding a buffer *)

Lemma no_newline_append (a b : string) :
  no_newline (a +:+ b) = no_newline a && no_newline b.
Proof.
  induction a as [|c a IH]; [done|].
  change (String c a +:+ b) with (String c (a +:+ b)). simpl. rewrite IH.
  by destruct (negb _).
Qed.

Lemma utf8_start_no_newline (c : ascii) :
  Ascii.eqb c newline = false →
  no_newline (utf8_start c).1 = true ∧ no_newline (utf8_start c).2 = true.
Proof.
  intros Hc. unfold utf8_start. destruct (utf8_length c) as [[|[|n]]|]; simpl; by rewrite ?Hc.
Qed.

Lemma utf8_step_no_newline (pending : string) (c : ascii) :
  no_newline pending = true → Ascii.eqb c newline = false →
  no_newline (utf8_step pending c).1 = true ∧ no_newline (utf8_step pending c).2 = true.
Proof.
  intros Hp Hc. unfold utf8_step.
  destruct pending as [|lead more]; [by apply utf8_start_no_newline|].
  destruct (utf8_continues _ c).
  - assert (Hseen : no_newline (String lead more +:+ String c "") = true).
    { rewrite no_newline_append, Hp. simpl. by rewrite Hc. }
    by destruct (Nat.eqb _ _).
  - destruct (utf8_start_no_newline c Hc) as [H1 H2].
    destruct (utf8_start c) as [out p]. cbn [fst snd] in *.
    split; [|done]. rewrite no_newline_append. by rewrite H1.
Qed.

Lemma utf8_decode_no_newline (pending bytes : string) :
  no_newline pending = true → no_newline bytes = true →
  no_newline (utf8_decode pending bytes) = true.
Proof.
  revert pending. induction bytes as [|c rest IH]; intros pending Hp Hb.
  - simpl. by destruct pending.
  - simpl in Hb. apply andb_true_iff in Hb as [Hc Hrest]. apply negb_true_iff in Hc.
    destruct (utf8_step_no_newline pending c Hp Hc) as [H1 H2].
    cbn [utf8_decode]. destruct (utf8_step pending c) as [out p]. simpl in *.
    by rewrite no_newline_append, H1, IH.
Qed.

(** Decoding makes no line break: the text of a buffer without one has
    none. *)
Lemma Buffer_toString_no_newline (bytes : string) :
  no_newline bytes = true → no_newline (Buffer_toString bytes) = true.
Proof. by apply utf8_decode_no_newline. Qed.

Lemma utf8_continues_newline (pending : string) : utf8_continues pending newline = false.
Proof.
  destruct pending as [|lead [|c more]]; [done| |done].
  unfold utf8_continues. cbv zeta.
  change (nat_of_ascii newline) with 10%nat.
  by destruct (Nat.eqb (nat_of_ascii lead) 224), (Nat.eqb (nat_of_ascii lead) 240).
Qed.

(** A line break ends whatever character was unfinished. *)
Lemma utf8_decode_newline (pending a b : string) :
  utf8_decode pending (a +:+ String newline b) =
    utf8_decode pending a +:+ String newline (utf8_decode "" b).
Proof.
  revert pending. induction a as [|c a IH]; intros pending.
  - change ("" +:+ String newline b) with (String newline b). cbn [utf8_decode].
    destruct pending as [|lead more]; [done|].
    unfold utf8_step. by rewrite utf8_continues_newline.
  - change (String c a +:+ String newline b) with (String c (a +:+ String newline b)).
    cbn [utf8_decode]. destruct (utf8_step pending c) as [out p].
    by rewrite IH, append_assoc.
Qed.

(** After a buffer that ends between two characters the decoder starts
    afresh. *)
Lemma utf8_decode_app (pending a b : string) :
  utf8_pending pending a = "" →
  utf8_decode pending (a +:+ b) = utf8_decode pending a +:+ utf8_decode "" b.
Proof.
  revert pending. induction a as [|c a IH]; intros pending Hp.
  - simpl in Hp. by subst pending.
  - change (String c a +:+ b) with (String c (a +:+ b)).
    cbn [utf8_decode utf8_pending] in *. destruct (utf8_step pending c) as [out p].
    cbn [snd] in Hp. by rewrite IH, append_assoc.
Qed.

Lemma utf8_pending_app (pending a b : string) :
  utf8_pending pending (a +:+ b) = utf8_pending (utf8_pending pending a) b.
Proof.
  revert pending. induction a as [|c a IH]; intros pending; [done|].
  change (String c a +:+ b) with (String c (a +:+ b)). cbn [utf8_pending]. apply IH.
Qed.

(** Buffers that end between characters decode to the text of their bytes
    put together. *)
Lemma Buffer_toString_concat (chunks : list string) :
  Forall (fun chunk => ends_between_characters chunk = true) chunks →
  fold_right String.append "" (Buffer_toString <$> chunks)
  = Buffer_toString (fold_right String.append "" chunks)
  ∧ ends_between_characters (fold_right String.append "" chunks) = true.
Proof.
  induction 1 as [|chunk chunks Hchunk _ [IH1 IH2]]; [done|].
  cbn [fmap list_fmap fold_right]. unfold ends_between_characters in *.
  apply String.eqb_eq in Hchunk, IH2. split.
  - rewrite IH1. unfold Buffer_toString. by rewrite utf8_decode_app.
  - rewrite utf8_pending_app, Hchunk, IH2. done.
Qed.

End reassembly.

(** The streamed scenario of §8: two text fragments and a finish reason. *)
Example hi_there_session_output :
  stream (Wire.clock_from 1700000000000) Wire.decode "msg_1" "claude-3-5-sonnet-20241022"
    [ Wire.sse "{'choices':[{'delta':{'content':'Hi'}}]}";
      Wire.sse "{'choices':[{'delta':{'content':' there'}}]}";
      Wire.sse "{'choices':[{'delta':{},'finish_reason':'stop'}]}" ] =
    [message_start "msg_1" "claude-3-5-sonnet-20241022";
     content_block_start 0 (start_text "");
     content_block_delta 0 (text_delta "Hi");
     content_block_delta 0 (text_delta " there");
     content_block_stop 0;
     message_delta "end_turn" 2;
     message_stop].
Proof. vm_compute. reflexivity. Qed.

(** ** Model readiness (Ollama) *)

Import Ollama.

Section readiness.

Variable backend : list BackendCall → BackendCall → bool.

Local Abbreviation ensureModelReady := (ensureModelReady backend).
Local Abbreviation ensure_all := (ensure_all backend).

Implicit Types (self : OllamaProvider) (modelName : string) (c : BackendCall).

(** A call for a name in the attempted-set returns at once and changes
    nothing. *)
Lemma ensureModelReady_attempted modelName self :
  modelName ∈ modelLoadAttempted self →
  ensureModelReady modelName self = (Return tt, self).
Proof.
  intros Hin. unfold Ollama.ensureModelReady, seq, attempted. simpl.
  by rewrite bool_decide_eq_true_2.
Qed.

(** A call for a name not in the set adds it first, then sends the
    availability request, the pull request if the model is not available, and
    the warm-up request unless the pull failed. *)
Lemma ensureModelReady_fresh modelName self :
  modelName ∉ modelLoadAttempted self →
  ∃ sent,
    (ensureModelReady modelName self).2 =
      {| modelLoadAttempted := {[modelName]} ∪ modelLoadAttempted self;
         calls := calls self ++ sent |}
    ∧ (sent = [call_isModelAvailable modelName; call_loadModel modelName]
       ∨ sent = [call_isModelAvailable modelName; call_pullModel modelName]
       ∨ sent = [call_isModelAvailable modelName; call_pullModel modelName;
                 call_loadModel modelName]).
Proof.
  intros Hnin. unfold Ollama.ensureModelReady, seq, attempted. simpl.
  rewrite bool_decide_eq_false_2 by done. simpl.
  destruct (backend (calls self) (call_isModelAvailable modelName)); simpl.
  - eexists. split; [|left; reflexivity]. by rewrite <- app_assoc.
  - destruct (backend _ (call_pullModel modelName)); simpl.
    + eexists. split; [|right; right; reflexivity]. by rewrite <- !app_assoc.
    + eexists. split; [|right; left; reflexivity]. by rewrite <- !app_assoc.
Qed.

Lemma ensureModelReady_marks modelName self :
  modelName ∈ modelLoadAttempted (ensureModelReady modelName self).2.
Proof.
  destruct (decide (modelName ∈ modelLoadAttempted self)) as [Hin|Hnin].
  - by rewrite ensureModelReady_attempted.
  - destruct (ensureModelReady_fresh _ _ Hnin) as (sent & -> & _). simpl. set_solver.
Qed.

Lemma times_sent_app c self sent attempted_set :
  times_sent c {| modelLoadAttempted := attempted_set; calls := calls self ++ sent |} =
    times_sent c self + length (filter (fun c' => c' = c) sent).
Proof. unfold times_sent. simpl. by rewrite filter_app, length_app. Qed.

Lemma times_sent_unsent c self :
  (∀ c', c' ∈ calls self → about c' ∈ modelLoadAttempted self) →
  about c ∉ modelLoadAttempted self → times_sent c self = 0.
Proof.
  intros Hall Hnin. unfold times_sent.
  induction (calls self) as [|c0 l IH]; [done|].
  rewrite filter_cons. destruct (decide (c0 = c)) as [->|Hne].
  - exfalso. apply Hnin, Hall. apply list_elem_of_here.
  - apply IH. intros c' Hc'. apply Hall. by apply list_elem_of_further.
Qed.

Lemma sent_once_ensureModelReady modelName self :
  sent_once self → sent_once (ensureModelReady modelName self).2.
Proof.
  intros [Hall Honce].
  destruct (decide (modelName ∈ modelLoadAttempted self)) as [Hin|Hnin].
  { by rewrite ensureModelReady_attempted. }
  destruct (ensureModelReady_fresh _ _ Hnin) as (sent & -> & Hsent). split.
  - simpl. intros c Hc. apply elem_of_app in Hc as [Hc|Hc].
    + apply elem_of_union_r. by apply Hall.
    + apply elem_of_union_l, elem_of_singleton.
      destruct Hsent as [-> | [-> | ->]];
        repeat (apply elem_of_cons in Hc as [-> | Hc]; [done|]);
        by apply not_elem_of_nil in Hc.
  - intros c. rewrite times_sent_app.
    destruct (decide (about c = modelName)) as [Habout|Hother].
    + rewrite (times_sent_unsent c self Hall) by by rewrite Habout.
      destruct Hsent as [-> | [-> | ->]];
        rewrite ?filter_cons, ?filter_nil; repeat case_decide; simplify_eq; simpl; lia.
    + specialize (Honce c).
      assert (filter (fun c' => c' = c) sent = []) as ->; [|simpl; lia].
      destruct Hsent as [-> | [-> | ->]];
        rewrite ?filter_cons, ?filter_nil; repeat case_decide; simplify_eq; done.
Qed.

Lemma sent_once_ensure_all (modelNames : list string) self :
  sent_once self → sent_once (ensure_all modelNames self).
Proof.
  revert self. induction modelNames as [|m ms IH]; intros self H; [done|].
  simpl. apply IH. by apply sent_once_ensureModelReady.
Qed.

Lemma sent_once_new_provider : sent_once new_provider.
Proof.
  split; [by intros c Hc; apply not_elem_of_nil in Hc|].
  intros c. unfold times_sent. simpl. lia.
Qed.

End readiness.

(** *** Calls in flight at the same time *)

Section interleaving.

Implicit Types (p : Process) (self : OllamaProvider) (c : BackendCall) (m : string).

Lemma times_sent_send c c0 self :
  times_sent c (send c0 self) = times_sent c self + (if decide (c0 = c) then 1 else 0).
Proof.
  unfold times_sent, send. simpl. rewrite filter_app, length_app.
  rewrite filter_cons, filter_nil. by destruct (decide (c0 = c)).
Qed.

Lemma times_sent_send_other c c0 self :
  about c0 ≠ about c → times_sent c (send c0 self) = times_sent c self.
Proof.
  intros Hne. rewrite times_sent_send. destruct (decide (c0 = c)) as [->|]; [done|lia].
Qed.

Lemma in_order_new : in_order new_process.
Proof.
  constructor; simpl; try by (intros; exfalso; eapply not_elem_of_nil; eauto).
  - constructor.
  - intros c. unfold times_sent. simpl. lia.
Qed.

(** The other calls in flight are for other names. *)
Lemma in_flight_others (before after : list (string * Stage)) m st m' st' :
  NoDup (before ++ (m, st) :: after).*1 →
  (m', st') ∈ before ++ after → m' ≠ m.
Proof.
  rewrite fmap_app, fmap_cons. simpl. intros Hnd Hin ->.
  apply NoDup_app in Hnd as (_ & Hdisj & Hafter).
  apply NoDup_cons in Hafter as [Hnotin _].
  apply elem_of_app in Hin as [Hin|Hin].
  - apply (Hdisj m); [by apply (list_elem_of_fmap_2 fst) in Hin | apply list_elem_of_here].
  - apply Hnotin. by apply (list_elem_of_fmap_2 fst) in Hin.
Qed.

Lemma elem_of_replaced (before after : list (string * Stage)) (e e' : string * Stage) :
  e' ∈ before ++ e :: after → e' = e ∨ e' ∈ before ++ after.
Proof.
  rewrite !elem_of_app, elem_of_cons. tauto.
Qed.

Lemma elem_of_kept (before after : list (string * Stage)) (e e' : string * Stage) :
  e' ∈ before ++ after → e' ∈ before ++ e :: after.
Proof.
  rewrite !elem_of_app, elem_of_cons. tauto.
Qed.

(** A call in flight goes on: it sends request [c0] for its name and
    changes its stage.  [in_order] is kept when [c0] was not sent before and
    the new stage's own condition holds afterwards. *)
Lemma in_order_advance p m st st' c0 before after :
  in_order p →
  in_flight p = before ++ (m, st) :: after →
  about c0 = m →
  times_sent c0 (provider p) = 0 →
  (st' = awaiting_isModelAvailable → False) →
  (st' = awaiting_pullModel →
   c0 ≠ call_loadModel m ∧ times_sent (call_loadModel m) (provider p) = 0) →
  in_order {| provider := send c0 (provider p);
              in_flight := before ++ (m, st') :: after;
              settled := settled p |}.
Proof.
  intros [Hc Hf Hnd Ha Hp Ho] Hin Habout Hunsent Hna Hpull.
  assert (Hm : m ∈ modelLoadAttempted (provider p)).
  { apply (Hf m st). rewrite Hin. apply elem_of_app. right. apply list_elem_of_here. }
  assert (Hother : ∀ m' st0, (m', st0) ∈ before ++ after → m' ≠ m).
  { intros m' st0 H0. eapply (in_flight_others before after m st); [by rewrite <- Hin | done]. }
  constructor; simpl.
  - intros c H0. apply elem_of_app in H0 as [H0|H0]; [by apply Hc|].
    apply list_elem_of_singleton in H0 as ->. by rewrite Habout.
  - intros m' st0 H0. apply elem_of_replaced in H0 as [[= -> ->]|H0]; [done|].
    apply (Hf m' st0). rewrite Hin. by apply elem_of_kept.
  - rewrite Hin in Hnd. by rewrite fmap_app, fmap_cons in *.
  - intros m' H0. apply elem_of_replaced in H0 as [[= -> <-]|H0]; [by destruct Hna|].
    pose proof (Hother _ _ H0) as Hne.
    rewrite !times_sent_send_other by (rewrite Habout; simpl; congruence).
    apply Ha. rewrite Hin. by apply elem_of_kept.
  - intros m' H0. apply elem_of_replaced in H0 as [[= -> <-]|H0].
    + destruct (Hpull eq_refl) as [Hne Hzero].
      rewrite times_sent_send. destruct (decide (c0 = call_loadModel m)); [done|lia].
    + pose proof (Hother _ _ H0) as Hne.
      rewrite times_sent_send_other by (rewrite Habout; simpl; congruence).
      apply Hp. rewrite Hin. by apply elem_of_kept.
  - intros c. rewrite times_sent_send. destruct (decide (c0 = c)) as [<-|_].
    + lia.
    + specialize (Ho c). lia.
Qed.

(** A call in flight settles: nothing is sent. *)
Lemma in_order_settle p m st before after result :
  in_order p →
  in_flight p = before ++ (m, st) :: after →
  in_order {| provider := provider p;
              in_flight := before ++ after;
              settled := settled p ++ [(m, result)] |}.
Proof.
  intros [Hc Hf Hnd Ha Hp Ho] Hin. constructor; simpl; try done.
  - intros m' st0 H0. apply (Hf m' st0). rewrite Hin. by apply elem_of_kept.
  - rewrite Hin, fmap_app, fmap_cons in Hnd. rewrite fmap_app.
    apply NoDup_app in Hnd as (H1 & H2 & H3). apply NoDup_cons in H3 as [H3 H4].
    apply NoDup_app. split; [done|]. split; [|done].
    intros x Hx Hx'. apply (H2 x Hx). by apply list_elem_of_further.
  - intros m' H0. apply Ha. rewrite Hin. by apply elem_of_kept.
  - intros m' H0. apply Hp. rewrite Hin. by apply elem_of_kept.
Qed.

Lemma in_order_step p p' : in_order p → step p p' → in_order p'.
Proof.
  intros Hord Hstep. destruct Hstep as
    [m p Hin | m p Hnin | m before after p Hin | m before after p Hin
    | m before after p Hin | m before after p Hin | m before after p Hin].
  - destruct Hord. by constructor.
  - (* a call for a new name *)
    destruct Hord as [Hc Hf Hnd Ha Hp Ho].
    assert (Hzero : ∀ c, about c = m → times_sent c (provider p) = 0).
    { intros c Hc0. apply times_sent_unsent; [done | by rewrite Hc0]. }
    assert (Hsame : ∀ c, c ≠ call_isModelAvailable m →
              times_sent c (send (call_isModelAvailable m) (mark m (provider p)))
              = times_sent c (provider p)).
    { intros c Hne. rewrite times_sent_send.
      destruct (decide (call_isModelAvailable m = c)); [congruence|].
      unfold times_sent, mark. simpl. lia. }
    constructor; simpl.
    + intros c H0. apply elem_of_app in H0 as [H0|H0].
      * apply elem_of_union_r. by apply Hc.
      * apply list_elem_of_singleton in H0 as ->. simpl.
        by apply elem_of_union_l, elem_of_singleton.
    + intros m' st0 H0. apply elem_of_app in H0 as [H0|H0].
      * apply elem_of_union_r. by apply (Hf m' st0).
      * apply list_elem_of_singleton in H0 as [= -> ->].
        by apply elem_of_union_l, elem_of_singleton.
    + rewrite fmap_app. simpl. apply NoDup_app. split; [done|]. split; [|apply NoDup_singleton].
      intros x Hx Hx'. apply list_elem_of_singleton in Hx' as ->.
      apply list_elem_of_fmap in Hx as ([m' st0] & -> & Hx). apply Hnin. by apply (Hf m' st0).
    + intros m' H0. rewrite !Hsame by done. apply elem_of_app in H0 as [H0|H0].
      * by apply Ha.
      * apply list_elem_of_singleton in H0 as [= ->]. split; by apply Hzero.
    + intros m' H0. rewrite Hsame by done. apply elem_of_app in H0 as [H0|H0].
      * by apply Hp.
      * by apply list_elem_of_singleton in H0.
    + intros c. rewrite times_sent_send.
      destruct (decide (call_isModelAvailable m = c)) as [<-|_].
      * unfold times_sent at 1, mark. simpl.
        pose proof (Hzero (call_isModelAvailable m) eq_refl) as Hz.
        unfold times_sent in Hz. lia.
      * specialize (Ho c). unfold times_sent, mark in *. simpl. lia.
  - (* the model is available: warm it up *)
    eapply in_order_advance; eauto; [|done|done].
    apply (ord_available p Hord m). rewrite Hin. apply elem_of_app. right. apply list_elem_of_here.
  - (* the model is not available: pull it *)
    eapply in_order_advance; eauto; [|done|].
    + apply (ord_available p Hord m). rewrite Hin. apply elem_of_app. right. apply list_elem_of_here.
    + intros _. split; [done|].
      apply (ord_available p Hord m). rewrite Hin. apply elem_of_app. right. apply list_elem_of_here.
  - (* the pull succeeded: warm the model up *)
    eapply in_order_advance; eauto; [|done|done].
    apply (ord_pull p Hord m). rewrite Hin. apply elem_of_app. right. apply list_elem_of_here.
  - by eapply in_order_settle.
  - by eapply in_order_settle.
Qed.

(** However the calls of a process interleave, and however the backend
    answers, no request is sent twice. *)
Lemma interleaved_calls_sent_once p c :
  rtc step new_process p → times_sent c (provider p) ≤ 1.
Proof.
  intros Hrun. apply ord_once.
  eapply (rtc_ind_r (fun p => in_order p) new_process); [apply in_order_new | | exact Hrun].
  intros p1 p2 _ Hstep Hord. by eapply in_order_step.
Qed.

(** A call of [ensureModelReady] run to its end with nothing in between is
    a run of the process. *)
Lemma ensureModelReady_run backend m p :
  ∃ p', rtc step p p'
        ∧ provider p' = (Ollama.ensureModelReady backend m (provider p)).2
        ∧ in_flight p' = in_flight p
        ∧ settled p' = settled p ++ [(m, (Ollama.ensureModelReady backend m (provider p)).1)].
Proof.
  destruct (decide (m ∈ modelLoadAttempted (provider p))) as [Hin|Hnin].
  { rewrite ensureModelReady_attempted by done.
    eexists. split; [apply rtc_once; by apply step_call_attempted|done]. }
  unfold Ollama.ensureModelReady, seq, attempted. simpl.
  rewrite bool_decide_eq_false_2 by done. simpl.
  set (p1 := {| provider := send (call_isModelAvailable m) (mark m (provider p));
                in_flight := in_flight p ++ [(m, awaiting_isModelAvailable)];
                settled := settled p |}).
  assert (H1 : step p p1) by by apply step_call_new.
  destruct (backend (calls (provider p)) (call_isModelAvailable m)); simpl.
  - set (p2 := {| provider := send (call_loadModel m) (provider p1);
                  in_flight := in_flight p ++ (m, awaiting_loadModel) :: [];
                  settled := settled p1 |}).
    assert (H2 : step p1 p2) by by apply (step_available m (in_flight p) []).
    eexists. split.
    + eapply rtc_l; [exact H1|]. eapply rtc_l; [exact H2|].
      apply rtc_once. by apply (step_loaded m (in_flight p) []).
    + simpl. rewrite app_nil_r. repeat split; unfold send, mark; simpl;
        by rewrite <- ?app_assoc.
  - set (p2 := {| provider := send (call_pullModel m) (provider p1);
                  in_flight := in_flight p ++ (m, awaiting_pullModel) :: [];
                  settled := settled p1 |}).
    assert (H2 : step p1 p2) by by apply (step_not_available m (in_flight p) []).
    destruct (backend _ (call_pullModel m)); simpl.
    + set (p3 := {| provider := send (call_loadModel m) (provider p2);
                    in_flight := in_flight p ++ (m, awaiting_loadModel) :: [];
                    settled := settled p2 |}).
      assert (H3 : step p2 p3) by by apply (step_pulled m (in_flight p) []).
      eexists. split.
      * eapply rtc_l; [exact H1|]. eapply rtc_l; [exact H2|]. eapply rtc_l; [exact H3|].
        apply rtc_once. by apply (step_loaded m (in_flight p) []).
      * simpl. rewrite ?app_nil_r. repeat split; unfold send, mark; simpl;
          by rewrite <- ?app_assoc.
    + eexists. split.
      * eapply rtc_l; [exact H1|]. eapply rtc_l; [exact H2|].
        apply rtc_once. by apply (step_pull_failed m (in_flight p) []).
      * simpl. rewrite ?app_nil_r. repeat split; unfold send, mark; simpl;
          by rewrite <- ?app_assoc.
Qed.

End interleaving.

(** C9.  A second call of [ensureModelReady] for the same name, made on the
    provider the first call left behind (whether it returned or threw),
    returns at once: it sends nothing and changes nothing.  In any run of
    calls made one after the other on a new provider, each of the three
    requests is sent at most once for any one name.  And the same holds when
    calls are in flight at the same time: however they interleave and however
    the backend answers, no request is sent twice for a name, and a call for a
    name already attempted settles at once. *)
Theorem ensureModelReady_once_per_name
    (backend : list BackendCall → BackendCall → bool) (modelName : string) :
  (∀ self,
     let first := Ollama.ensureModelReady backend modelName self in
     Ollama.ensureModelReady backend modelName first.2 = (Return tt, first.2))
  ∧ (∀ modelNames,
       let final := Ollama.ensure_all backend modelNames new_provider in
       times_sent (call_isModelAvailable modelName) final ≤ 1
       ∧ times_sent (call_pullModel modelName) final ≤ 1
       ∧ times_sent (call_loadModel modelName) final ≤ 1)
  ∧ (∀ p, rtc step new_process p →
       times_sent (call_isModelAvailable modelName) (provider p) ≤ 1
       ∧ times_sent (call_pullModel modelName) (provider p) ≤ 1
       ∧ times_sent (call_loadModel modelName) (provider p) ≤ 1
       ∧ (modelName ∈ modelLoadAttempted (provider p) →
          step p {| provider := provider p; in_flight := in_flight p;
                    settled := settled p ++ [(modelName, Return tt)] |})).
Proof.
  split; [|split].
  - intros self first. apply ensureModelReady_attempted, ensureModelReady_marks.
  - intros modelNames final.
    destruct (sent_once_ensure_all backend modelNames _ sent_once_new_provider) as [_ Honce].
    repeat split; apply Honce.
  - intros p Hrun. repeat split; try by apply interleaved_calls_sent_once.
    apply step_call_attempted.
Qed.

(** The first call fails in the pull; the second still does nothing. *)
Lemma ensureModelReady_once_per_name_witness :
  (Ollama.ensureModelReady (fun _ _ => false) "llama3:8b" new_provider).1
    = Throw (pull_failure "llama3:8b")
  ∧ calls (Ollama.ensureModelReady (fun _ _ => false) "llama3:8b" new_provider).2
    = [call_isModelAvailable "llama3:8b"; call_pullModel "llama3:8b"]
  ∧ Ollama.ensureModelReady (fun _ _ => false) "llama3:8b"
      (Ollama.ensureModelReady (fun _ _ => false) "llama3:8b" new_provider).2
    = (Return tt, (Ollama.ensureModelReady (fun _ _ => false) "llama3:8b" new_provider).2).
Proof.
  split; [reflexivity|]. split; [reflexivity|].
  apply (proj1 (ensureModelReady_once_per_name (fun _ _ => false) "llama3:8b")).
Defined.

(** ** Further properties of the relay *)

Import JS Float64 Json Config Base Relay.

Section relay_more.

Variable Date_now : nat → Z.
Variable JSON_parse_chunk : string → option OpenAIStreamChunk.
Variables messageId requestModel : string.

Local Abbreviation stream := (Relay.stream Date_now JSON_parse_chunk messageId requestModel).
Local Abbreviation data_phase := (Relay.data_phase Date_now JSON_parse_chunk messageId requestModel).
Local Abbreviation line_chunk := (Relay.line_chunk JSON_parse_chunk).
Local Abbreviation session_chunks := (Relay.session_chunks JSON_parse_chunk).
Local Abbreviation session_texts := (Relay.session_texts JSON_parse_chunk).
Local Abbreviation session_fragments := (Relay.session_fragments JSON_parse_chunk).
Local Abbreviation session_tool_calls := (Relay.session_tool_calls Date_now JSON_parse_chunk).
Local Abbreviation session_stop_reason := (Relay.session_stop_reason JSON_parse_chunk).
Local Abbreviation session_hasToolCalls := (Relay.session_hasToolCalls JSON_parse_chunk).

Lemma foldr_append_snoc (chunks : list string) (tail : string) :
  foldr append "" (chunks ++ [tail]) = foldr append "" chunks +:+ tail.
Proof.
  induction chunks as [|c chunks IH]; simpl.
  - by rewrite append_empty_r.
  - by rewrite IH, append_assoc.
Qed.

Lemma no_newline_app (a b : string) :
  no_newline a = true → no_newline b = true → no_newline (a +:+ b) = true.
Proof.
  induction a as [|c a IH]; [done|].
  change (String c a +:+ b) with (String c (a +:+ b)). simpl.
  intros [Hc Ha]%andb_true_iff Hb. by rewrite Hc, IH.
Qed.

(** The complete lines of a text are not changed by a tail without a line
    break. *)
Lemma complete_lines_tail (text tail : string) :
  no_newline tail = true →
  removelast (split_newline (text +:+ tail)) = removelast (split_newline text).
Proof.
  intros Htail. rewrite split_newline_app.
  rewrite (split_newline_no_newline (List.last (split_newline text) "" +:+ tail))
    by (apply no_newline_app; [apply last_split_newline_no_newline | done]).
  by rewrite removelast_last.
Qed.

Lemma session_chunks_tail (chunks : list string) (tail : string) :
  no_newline tail = true →
  session_chunks (chunks ++ [tail]) = session_chunks chunks.
Proof.
  intros Htail. rewrite !session_chunks_texts, fmap_app. cbn [fmap list_fmap].
  rewrite foldr_append_snoc, complete_lines_tail by by apply Buffer_toString_no_newline.
  done.
Qed.

(** X1. The output does not depend on where the backend's bytes were cut
    into chunks, as long as no cut falls inside a character: it is then the
    output for the whole byte stream delivered as one chunk.  (Every chunk is
    decoded on its own, so a character cut in two is lost.) *)
Theorem stream_of_whole_bytes (chunks : list string) :
  Forall (fun chunk => ends_between_characters chunk = true) chunks →
  stream chunks = stream [foldr append "" chunks].
Proof.
  intros Hcuts. apply stream_chunking_irrelevant.
  destruct (Buffer_toString_concat chunks Hcuts) as [Htext _].
  cbn [fold_right foldr fmap list_fmap]. by rewrite append_empty_r.
Qed.

(** X2. What the backend sends after its last line break is never read: a
    stream that ends in the middle of a line gives the output of the stream
    without that tail (the [end] handler does not look at the buffer). *)
Theorem stream_unterminated_tail_dropped (chunks : list string) (tail : string) :
  no_newline tail = true →
  stream (chunks ++ [tail]) = stream chunks.
Proof.
  intros Htail. rewrite !stream_spec.
  unfold Relay.session_texts, Relay.session_tool_calls, Relay.session_fragments,
    Relay.session_stop_reason, Relay.session_hasToolCalls.
  by rewrite !session_chunks_tail.
Qed.

Lemma split_newline_terminated (lines : list string) :
  Forall (fun line => no_newline line = true) lines →
  split_newline (terminated lines) = lines ++ [""].
Proof.
  induction 1 as [|line lines Hline _ IH]; [done|].
  cbn [terminated fold_right]. fold (terminated lines).
  rewrite split_newline_app, (split_newline_no_newline line) by done.
  cbn [removelast List.last app]. 
  change (line +:+ String newline (terminated lines)) with (line +:+ String newline (terminated lines)).
  assert (Hcut : ∀ l, no_newline l = true →
            split_newline (l +:+ String newline (terminated lines))
            = l :: split_newline (terminated lines)).
  { clear. induction l as [|c l IHl]; intros Hl.
    - done.
    - change (String c l +:+ ?r) with (String c (l +:+ r)).
      rewrite split_newline_cons. simpl in Hl. apply andb_true_iff in Hl as [Hc Hl].
      apply negb_true_iff in Hc. rewrite Hc, IHl by done. done. }
  rewrite Hcut by done. by rewrite IH.
Qed.

(** Complete lines are decoded line by line. *)
Lemma Buffer_toString_terminated (lines : list string) :
  Buffer_toString (terminated lines) = terminated (Buffer_toString <$> lines).
Proof.
  induction lines as [|line lines IH]; [done|].
  cbn [terminated fold_right fmap list_fmap]. fold (terminated lines).
  fold (terminated (Buffer_toString <$> lines)).
  unfold Buffer_toString in *. by rewrite utf8_decode_newline, IH.
Qed.

Lemma session_chunks_terminated (lines : list string) :
  Forall (fun line => no_newline line = true) lines →
  session_chunks [terminated lines] = omap line_chunk (Buffer_toString <$> lines).
Proof.
  intros Hlines. rewrite session_chunks_texts. cbn [fmap list_fmap fold_right].
  rewrite append_empty_r, Buffer_toString_terminated.
  rewrite split_newline_terminated; [by rewrite removelast_last|].
  induction Hlines as [|l ls Hl _ IH]; [constructor|].
  constructor; [by apply Buffer_toString_no_newline | exact IH].
Qed.

Lemma omap_filter_is_Some {A B C : Type} (f : B → option C) (g : A → B) (l : list A) :
  omap f (g <$> List.filter (fun a => bool_decide (is_Some (f (g a)))) l) = omap f (g <$> l).
Proof.
  induction l as [|a l IH]; [done|]. cbn [List.filter fmap list_fmap].
  destruct (f (g a)) as [b|] eqn:E.
  - rewrite bool_decide_true by done. cbn [fmap list_fmap].
    change (omap f (g a :: ?l)) with (match f (g a) with Some b => b :: omap f l | None => omap f l end).
    by rewrite E, IH.
  - rewrite bool_decide_false by (by intros [? ?]).
    change (omap f (g a :: ?l)) with (match f (g a) with Some b => b :: omap f l | None => omap f l end).
    by rewrite E.
Qed.

Lemma startsWith_append (pattern rest : string) :
  startsWith (pattern +:+ rest) pattern = true.
Proof.
  unfold startsWith. induction pattern as [|c pattern IH]; [by destruct rest|].
  change (String c pattern +:+ rest) with (String c (pattern +:+ rest)). simpl.
  by destruct (ascii_dec c c).
Qed.

Lemma slice_from_append (pattern rest : string) :
  slice_from (String.length pattern) (pattern +:+ rest) = rest.
Proof. induction pattern as [|c pattern IH]; [done|]. exact IH. Qed.

(** X3. Lines that carry no chunk are skipped without a trace: a line that
    does not start with [data: ], the [data: [DONE]] sentinel, and a data
    line whose JSON does not parse give no chunk, and taking every such line
    (as the handler reads it, decoded) out of a stream of complete lines
    leaves the output as it was. *)
Theorem stream_skips_lines_without_chunk (lines : list string) :
  Forall (fun line => no_newline line = true) lines →
  (∀ line, startsWith line "data: " = false → line_chunk line = None)
  ∧ line_chunk "data: [DONE]" = None
  ∧ (∀ data, JSON_parse_chunk data = None → line_chunk ("data: " +:+ data) = None)
  ∧ stream [terminated lines] =
    stream [terminated
              (List.filter
                 (fun line => bool_decide (is_Some (line_chunk (Buffer_toString line)))) lines)].
Proof.
  intros Hlines. split; [|split; [|split]].
  - intros line Hline. unfold Relay.line_chunk. by rewrite Hline.
  - done.
  - intros data Hdata. unfold Relay.line_chunk.
    rewrite startsWith_append.
    replace (slice_from 6 ("data: " +:+ data)) with data
      by (symmetry; apply (slice_from_append "data: ")).
    by destruct (String.eqb data "[DONE]").
  - rewrite !stream_spec.
    unfold Relay.session_texts, Relay.session_tool_calls, Relay.session_fragments,
      Relay.session_stop_reason, Relay.session_hasToolCalls.
    rewrite !session_chunks_terminated; [by rewrite omap_filter_is_Some| |done].
    clear -Hlines. induction Hlines as [|l ls Hl _ IH]; [constructor|].
    simpl. destruct (bool_decide _); [by constructor|done].
Qed.


(** *** What the output forwards *)

Lemma text_deltas_app (es1 es2 : list Event) :
  text_deltas (es1 ++ es2) = text_deltas es1 ++ text_deltas es2.
Proof. apply omap_app. Qed.

Lemma tool_use_blocks_started_app (es1 es2 : list Event) :
  tool_use_blocks_started (es1 ++ es2) = tool_use_blocks_started es1 ++ tool_use_blocks_started es2.
Proof. apply omap_app. Qed.

Local Abbreviation tool_blocks := (List.map (fun kv : Z * StreamingToolCall => tool_block kv.2)).

Lemma text_deltas_tool_block i tc : text_deltas (render_block i (tool_block tc)) = [].
Proof. unfold render_block, tool_block. simpl. by destruct (truthy (tc_arguments tc)). Qed.

Lemma text_deltas_tool_blocks i (calls : list (Z * StreamingToolCall)) :
  text_deltas (render_blocks i (tool_blocks calls)) = [].
Proof.
  revert i. induction calls as [|kv calls IH]; intros i; [done|].
  cbn [List.map render_blocks]. by rewrite text_deltas_app, text_deltas_tool_block, IH.
Qed.

Lemma text_deltas_text_block (texts : list string) :
  text_deltas (render_block 0 {| block_start := start_text ""; block_deltas := List.map text_delta texts |})
  = List.map (pair 0%nat) texts.
Proof.
  unfold render_block. cbn [block_start block_deltas].
  change (text_deltas (?e :: ?l)) with (text_deltas l).
  rewrite text_deltas_app. simpl. rewrite app_nil_r.
  induction texts as [|t texts IH]; [done|]. simpl. by f_equal.
Qed.

Lemma session_blocks_texts t texts has (calls : list (Z * StreamingToolCall)) :
  session_blocks (t :: texts) has calls =
    {| block_start := start_text ""; block_deltas := List.map text_delta (t :: texts) |}
    :: tool_blocks calls.
Proof. by destruct has. Qed.

Lemma session_blocks_no_text (calls : list (Z * StreamingToolCall)) :
  session_blocks [] true calls = tool_blocks calls.
Proof. done. Qed.

Lemma text_deltas_session_blocks (texts : list string) has (calls : list (Z * StreamingToolCall)) :
  text_deltas (render_blocks 0 (session_blocks texts has calls)) = List.map (pair 0%nat) texts.
Proof.
  destruct texts as [|t texts].
  - destruct has; [|done]. rewrite session_blocks_no_text. apply text_deltas_tool_blocks.
  - rewrite session_blocks_texts. cbn [render_blocks].
    by rewrite text_deltas_app, text_deltas_text_block, text_deltas_tool_blocks, app_nil_r.
Qed.

(** X4. The text fragments of the backend are forwarded one delta each, in
    the order they arrived, and all of them in block 0. *)
Theorem stream_text_forwarded_in_order (chunks : list string) :
  text_deltas (stream chunks) = List.map (pair 0%nat) (session_texts chunks).
Proof.
  rewrite stream_spec.
  change (text_deltas (message_start ?a ?b :: ?l)) with (text_deltas l).
  rewrite text_deltas_app, text_deltas_session_blocks. apply app_nil_r.
Qed.

Lemma mapFinishReason_stop_reasons (reason : option string) :
  mapFinishReason reason ∈ stop_reasons.
Proof.
  unfold mapFinishReason, stop_reasons. destruct reason as [r|]; [|by constructor].
  repeat (destruct (String.eqb r _); [by repeat constructor|]). by constructor.
Qed.

Lemma session_stop_reason_stop_reasons (chunks : list string) :
  session_stop_reason chunks ∈ stop_reasons.
Proof.
  unfold Relay.session_stop_reason.
  assert (H : ∀ (l : list OpenAIStreamChunk) r, r ∈ stop_reasons →
                fold_left chunk_stop_reason l r ∈ stop_reasons).
  { induction l as [|c l IH]; intros r Hr; [done|]. simpl. apply IH.
    unfold chunk_stop_reason. destruct (chunk_throws c); [done|].
    destruct (truthy_opt _); [apply mapFinishReason_stop_reasons|done]. }
  apply H. unfold stop_reasons. set_solver.
Qed.

(** X5. Every output is [message_start], block events, one
    [message_delta], [message_stop].  The [message_delta] reports one of the
    four stop reasons and, as output tokens, the number of text deltas the
    output holds. *)
Theorem stream_final_events (chunks : list string) :
  ∃ body,
    stream chunks =
      message_start messageId requestModel
      :: body ++ [message_delta (session_stop_reason chunks)
                    (Z.of_nat (length (text_deltas (stream chunks))));
                  message_stop]
    ∧ session_stop_reason chunks ∈ stop_reasons
    ∧ Forall (fun e => match e with
                       | content_block_start _ _ | content_block_delta _ _
                       | content_block_stop _ => True
                       | _ => False
                       end) body.
Proof.
  eexists. split; [|split].
  - rewrite (stream_spec _ _ _ _ chunks) at 2.
    change (text_deltas (message_start ?a ?b :: ?l)) with (text_deltas l).
    rewrite text_deltas_app, text_deltas_session_blocks, app_nil_r, length_map.
    apply stream_spec.
  - apply session_stop_reason_stop_reasons.
  - generalize (session_blocks (session_texts chunks) (session_hasToolCalls chunks)
                  (session_tool_calls chunks)).
    generalize 0%nat. intros i blocks. revert i.
    induction blocks as [|b blocks IH]; intros i; [constructor|].
    cbn [render_blocks]. apply Forall_app. split; [|apply IH].
    unfold render_block. constructor; [done|]. apply Forall_app. split; [|by constructor].
    induction (block_deltas b); by constructor.
Qed.


(** *** One block per slot *)

Lemma Map_mutate_keys (m : list (Z * StreamingToolCall)) k f : (Map_mutate m k f).*1 = m.*1.
Proof.
  unfold Map_mutate. induction m as [|[k' v] m IH]; [done|].
  cbn [List.map fmap list_fmap fst snd]. cbn [fmap list_fmap] in IH. rewrite IH.
  by destruct (k' =? k)%Z.
Qed.

Lemma Map_has_keys (m : list (Z * StreamingToolCall)) k :
  Map_has m k = bool_decide (k ∈ m.*1).
Proof.
  unfold Map_has. induction m as [|[k' v] m IH]; [done|]. simpl. rewrite IH.
  destruct (Z.eqb_spec k' k) as [->|Hne]; simpl.
  - symmetry. apply bool_decide_eq_true. apply elem_of_cons. by left.
  - apply bool_decide_ext. split.
    + intros Hin. apply elem_of_cons. by right.
    + intros [Heq|Hin]%elem_of_cons; [by subst|done].
Qed.

Lemma tool_call_step_keys (st : list (Z * StreamingToolCall) * nat) d :
  (Relay.tool_call_step Date_now st d).1.*1 =
    if bool_decide (index d ∈ st.1.*1) then st.1.*1 else st.1.*1 ++ [index d].
Proof.
  unfold Relay.tool_call_step. cbv zeta. rewrite Map_has_keys.
  destruct (bool_decide (index d ∈ st.1.*1)); cbn [fst snd].
  - apply Map_mutate_keys.
  - destruct (truthy_opt (delta_id d)); cbn [fst snd];
      rewrite Map_mutate_keys; unfold Map_set_new; by rewrite fmap_app.
Qed.

Lemma fold_tool_call_step_keys fragments (st : list (Z * StreamingToolCall) * nat) :
  (fold_left (Relay.tool_call_step Date_now) fragments st).1.*1 =
    fold_left (fun seen k => if bool_decide (k ∈ seen) then seen else seen ++ [k])
      (index <$> fragments) st.1.*1.
Proof.
  revert st. induction fragments as [|d ds IH]; intros st; [done|].
  cbn [fold_left fmap list_fmap]. by rewrite IH, tool_call_step_keys.
Qed.

Lemma tool_use_blocks_started_tool_blocks i (calls : list (Z * StreamingToolCall)) :
  tool_use_blocks_started (render_blocks i (tool_blocks calls)) =
    zip (List.seq i (length calls)) ((fun kv => (tc_id kv.2, tc_name kv.2)) <$> calls).
Proof.
  revert i. induction calls as [|kv calls IH]; intros i; [done|].
  cbn [List.map render_blocks]. rewrite tool_use_blocks_started_app, IH.
  unfold render_block, tool_block. simpl. by destruct (truthy (tc_arguments kv.2)).
Qed.

Lemma tool_use_blocks_started_text_block i (deltas : list BlockDelta) :
  tool_use_blocks_started (render_block i {| block_start := start_text ""; block_deltas := deltas |}) = [].
Proof.
  unfold render_block. cbn [block_start block_deltas].
  change (tool_use_blocks_started (?e :: ?l)) with (tool_use_blocks_started l).
  rewrite tool_use_blocks_started_app. simpl. rewrite app_nil_r.
  induction deltas as [|d deltas IH]; [done|]. exact IH.
Qed.

(** X6. One tool-use block per slot: the tool calls of a session are its
    distinct slot indices in the order they were first seen, and the output
    starts exactly one tool-use block for each, with consecutive indices
    from 1 if any text was forwarded and from 0 if not, carrying the call's
    id and name. *)
Theorem stream_one_tool_block_per_slot (chunks : list string) :
  let calls := session_tool_calls chunks in
  let first := if bool_decide (session_texts chunks = []) then 0%nat else 1%nat in
  calls.*1 = first_seen (index <$> session_fragments chunks)
  ∧ NoDup calls.*1
  ∧ tool_use_blocks_started (stream chunks) =
      zip (List.seq first (length calls)) ((fun kv => (tc_id kv.2, tc_name kv.2)) <$> calls).
Proof.
  intros calls first. split; [|split].
  - apply (fold_tool_call_step_keys _ ([], 0%nat)).
  - unfold calls, Relay.session_tool_calls. rewrite fold_tool_call_step_keys.
    generalize (index <$> session_fragments chunks). intros slots.
    assert (H : ∀ seen : list Z, NoDup seen →
              NoDup (fold_left (fun seen k => if bool_decide (k ∈ seen) then seen else seen ++ [k])
                       slots seen)).
    { induction slots as [|k slots IH]; intros seen Hseen; [done|]. simpl. apply IH.
      destruct (bool_decide_reflect (k ∈ seen)); [done|].
      apply NoDup_app. split; [done|]. split; [|apply NoDup_singleton].
      intros x Hx Hk. apply elem_of_cons in Hk as [->|Hk]; [done|]. by apply elem_of_nil in Hk. }
    apply H. constructor.
  - rewrite stream_spec. fold calls.
    change (tool_use_blocks_started (message_start ?a ?b :: ?l)) with (tool_use_blocks_started l).
    rewrite tool_use_blocks_started_app. cbn [tool_use_blocks_started omap list_omap].
    rewrite app_nil_r. unfold first.
    destruct (session_texts chunks) as [|t texts].
    + rewrite bool_decide_true by done.
      destruct (session_hasToolCalls chunks) eqn:Ehas.
      * rewrite session_blocks_no_text. apply tool_use_blocks_started_tool_blocks.
      * unfold calls.
        by rewrite (session_tool_calls_none Date_now JSON_parse_chunk messageId requestModel chunks Ehas).
    + rewrite bool_decide_false by done. rewrite session_blocks_texts. cbn [render_blocks].
      rewrite tool_use_blocks_started_app, tool_use_blocks_started_text_block.
      apply tool_use_blocks_started_tool_blocks.
Qed.

(** *** What is not read *)

Local Abbreviation first_choice_parse := (fun data => first_choice_only <$> JSON_parse_chunk data).

Lemma line_chunk_first_choice (line : string) :
  Relay.line_chunk first_choice_parse line = first_choice_only <$> line_chunk line.
Proof.
  unfold Relay.line_chunk. destruct (startsWith line "data: "); [|done].
  by destruct (String.eqb _ _).
Qed.

Lemma session_chunks_first_choice (chunks : list string) :
  Relay.session_chunks first_choice_parse chunks = first_choice_only <$> session_chunks chunks.
Proof.
  unfold Relay.session_chunks. generalize (session_lines "" chunks). intros lines.
  induction lines as [|l lines IH]; [done|].
  change (omap ?f (l :: lines)) with (match f l with Some b => b :: omap f lines | None => omap f lines end).
  rewrite line_chunk_first_choice, IH. by destruct (line_chunk l).
Qed.

Lemma head_first_choice (parsed : OpenAIStreamChunk) :
  head (chunk_choices (first_choice_only parsed)) = head (chunk_choices parsed).
Proof. simpl. by destruct (chunk_choices parsed). Qed.

Lemma session_texts_first_choice (chunks : list string) :
  Relay.session_texts first_choice_parse chunks = session_texts chunks.
Proof.
  unfold Relay.session_texts. rewrite session_chunks_first_choice.
  induction (session_chunks chunks) as [|c cs IH]; [done|].
  cbn [fmap list_fmap].
  change (omap ?f (?x :: ?l)) with (match f x with Some b => b :: omap f l | None => omap f l end).
  rewrite IH. unfold chunk_text. by rewrite head_first_choice.
Qed.

Lemma chunk_tool_calls_first_choice (parsed : OpenAIStreamChunk) :
  chunk_tool_calls (first_choice_only parsed) = chunk_tool_calls parsed.
Proof. unfold chunk_tool_calls. by rewrite head_first_choice. Qed.

Lemma session_fragments_first_choice (chunks : list string) :
  Relay.session_fragments first_choice_parse chunks = session_fragments chunks.
Proof.
  unfold Relay.session_fragments. rewrite session_chunks_first_choice. f_equal.
  induction (session_chunks chunks) as [|c cs IH]; [done|].
  cbn [fmap list_fmap List.map]. rewrite IH. unfold chunk_fragments.
  by rewrite chunk_tool_calls_first_choice.
Qed.

Lemma session_hasToolCalls_first_choice (chunks : list string) :
  Relay.session_hasToolCalls first_choice_parse chunks = session_hasToolCalls chunks.
Proof.
  unfold Relay.session_hasToolCalls. rewrite session_chunks_first_choice.
  induction (session_chunks chunks) as [|c cs IH]; [done|].
  cbn [fmap list_fmap existsb]. by rewrite IH, chunk_tool_calls_first_choice.
Qed.

Lemma session_stop_reason_first_choice (chunks : list string) :
  Relay.session_stop_reason first_choice_parse chunks = session_stop_reason chunks.
Proof.
  unfold Relay.session_stop_reason. rewrite session_chunks_first_choice.
  generalize "end_turn". induction (session_chunks chunks) as [|c cs IH]; intros r; [done|].
  cbn [fmap list_fmap fold_left]. rewrite IH. unfold chunk_stop_reason, chunk_throws.
  by rewrite chunk_tool_calls_first_choice, head_first_choice.
Qed.

(** X7. Only the first choice of a chunk reaches the output: dropping every
    other choice, and the usage record (whose prompt-token count is read but
    never written), from each chunk leaves the output as it was. *)
Theorem stream_reads_first_choice_only (chunks : list string) :
  Relay.stream Date_now (fun data => first_choice_only <$> JSON_parse_chunk data)
    messageId requestModel chunks
  = stream chunks.
Proof.
  rewrite !stream_spec. unfold Relay.session_tool_calls.
  by rewrite session_texts_first_choice, session_fragments_first_choice,
    session_hasToolCalls_first_choice, session_stop_reason_first_choice.
Qed.


(** *** A tool call without argument text *)

Lemma render_tool_block_bare i tc :
  tc_arguments tc = "" →
  render_block i (tool_block tc) =
    [content_block_start i (start_tool_use (tc_id tc) (tc_name tc)); content_block_stop i].
Proof. intros H. unfold render_block, tool_block. simpl. by rewrite H. Qed.

(** X8. A tool call for which the backend sent no argument text gets a
    block of two events, its start and its stop next to each other, and no
    [input_json_delta] at its index.  The block's id is the last id the
    backend sent for the slot; if it sent none it is [toolu_], a reading of
    the clock in decimal, [_] and the slot in decimal. *)
Theorem tool_call_without_arguments (chunks : list string) (slot : Z) :
  let fragments := session_fragments chunks in
  addressed slot fragments = true →
  slot_arguments slot fragments = "" →
  ∃ (i : nat) (id name : string) (before after : list Event),
    stream chunks =
      written (data_phase chunks) ++ before
      ++ [content_block_start i (start_tool_use id name); content_block_stop i]
      ++ after
    ∧ deltas_at i (stream chunks) = []
    ∧ (slot_last delta_id slot fragments = None →
       ∃ n, id = "toolu_" +:+ Number_toString (Date_now n) +:+ "_" +:+ Number_toString slot)
    ∧ (∀ v, slot_last delta_id slot fragments = Some v → id = v)
    ∧ name = default "" (slot_last fragment_name slot fragments).
Proof.
  intros fragments Haddr Hargs.
  destruct (received_data_phase Date_now JSON_parse_chunk messageId requestModel chunks)
    as [Hw _ _ _ _ _ _ _].
  destruct (fold_tool_call_step_new Date_now fragments ([], 0%nat) slot eq_refl Haddr) as [n Hn].
  change (Map_get (session_tool_calls chunks) slot = Some
            (settle (blank_call (generated_id (Date_now n) slot)) slot fragments)) in Hn.
  remember (settle (blank_call (generated_id (Date_now n) slot)) slot fragments) as tc eqn:Etc.
  assert (Htc : tc_arguments tc = "") by (by rewrite Etc; simpl; rewrite Hargs).
  pose proof (session_hasToolCalls_call Date_now JSON_parse_chunk messageId requestModel _ _ _ Hn) as Hhas.
  destruct (Map_get_split _ _ _ Hn) as (l1 & l2 & Hsplit).
  pose proof (stream_spec Date_now JSON_parse_chunk messageId requestModel chunks) as Hstream.
  rewrite Hsplit, Hhas in Hstream.
  assert (Hid : (slot_last delta_id slot fragments = None →
                 ∃ n0, tc_id tc =
                         "toolu_" +:+ Number_toString (Date_now n0) +:+ "_"
                         +:+ Number_toString slot)
                ∧ (∀ v, slot_last delta_id slot fragments = Some v → tc_id tc = v)
                ∧ tc_name tc = default "" (slot_last fragment_name slot fragments)).
  { rewrite Etc. unfold settle. simpl. split; [|split; [|done]].
    - intros ->. by exists n.
    - by intros v ->. }
  clear Etc.
  destruct (session_texts chunks) as [|t texts] eqn:Etexts.
  - exists (0 + length l1)%nat, (tc_id tc), (tc_name tc),
      (render_blocks 0 (tool_blocks l1)),
      (render_blocks (S (0 + length l1)) (tool_blocks l2)
       ++ [message_delta (session_stop_reason chunks) (Z.of_nat (length (@nil string)));
           message_stop]).
    rewrite session_blocks_no_text in Hstream.
    split; [|split; [|exact Hid]].
    + rewrite Hstream, Hw.
      rewrite render_tool_blocks_split, render_tool_block_bare by done.
      simpl. by rewrite <- !app_assoc.
    + rewrite Hstream.
      rewrite deltas_at_cons, deltas_at_app, deltas_at_tool_blocks by done.
      unfold tool_block. simpl. by rewrite Htc.
  - exists (1 + length l1)%nat, (tc_id tc), (tc_name tc),
      (content_block_stop 0 :: render_blocks 1 (tool_blocks l1)),
      (render_blocks (S (1 + length l1)) (tool_blocks l2)
       ++ [message_delta (session_stop_reason chunks) (Z.of_nat (length (t :: texts)));
           message_stop]).
    rewrite session_blocks_texts in Hstream.
    split; [|split; [|exact Hid]].
    + rewrite Hstream, Hw. cbn [render_blocks].
      rewrite render_tool_blocks_split, render_tool_block_bare by done.
      unfold render_block, text_events. cbn [block_start block_deltas].
      rewrite List.map_map. simpl. rewrite <- !app_assoc. simpl. done.
    + rewrite Hstream. cbn [render_blocks].
      rewrite deltas_at_cons, !deltas_at_app, deltas_at_tool_blocks by done.
      rewrite deltas_at_render_block. simpl.
      unfold tool_block. simpl. by rewrite Htc.
Qed.

(** *** Generated ids *)

(** X9. Two tool calls of one response that the backend gave no id get two
    different generated ids, whatever the clock reads. *)
Theorem generated_tool_ids_distinct (chunks : list string) (slot1 slot2 : Z) :
  let fragments := session_fragments chunks in
  addressed slot1 fragments = true →
  addressed slot2 fragments = true →
  slot_last delta_id slot1 fragments = None →
  slot_last delta_id slot2 fragments = None →
  slot1 ≠ slot2 →
  ∃ (tc1 tc2 : StreamingToolCall) (n1 n2 : nat),
    Map_get (session_tool_calls chunks) slot1 = Some tc1
    ∧ Map_get (session_tool_calls chunks) slot2 = Some tc2
    ∧ tc_id tc1 = generated_id (Date_now n1) slot1
    ∧ tc_id tc2 = generated_id (Date_now n2) slot2
    ∧ tc_id tc1 ≠ tc_id tc2.
Proof.
  intros fragments Haddr1 Haddr2 Hid1 Hid2 Hslots.
  destruct (fold_tool_call_step_new Date_now fragments ([], 0%nat) slot1 eq_refl Haddr1)
    as [n1 Hn1].
  destruct (fold_tool_call_step_new Date_now fragments ([], 0%nat) slot2 eq_refl Haddr2)
    as [n2 Hn2].
  eexists _, _, n1, n2. split; [exact Hn1|]. split; [exact Hn2|].
  unfold settle. cbn [tc_id blank_call]. rewrite Hid1, Hid2. cbn [default].
  split; [done|]. split; [done|].
  intros Hsame. apply generated_id_inj in Hsame as [_ Hsame]. by apply Hslots.
Qed.

End relay_more.

(** The stream that ends in the middle of its second data line: the text of
    that line is not forwarded. *)
Lemma stream_unterminated_tail_dropped_witness :
  stream (Wire.clock_from 1700000000000) Wire.decode "msg_1" "claude-sonnet-4"
    ([Wire.sse "{'choices':[{'delta':{'content':'Hi'}}]}"]
     ++ ["data: " +:+ wire "{'choices':[{'delta':{'content':' there'}}]}"])
  = stream (Wire.clock_from 1700000000000) Wire.decode "msg_1" "claude-sonnet-4"
      [Wire.sse "{'choices':[{'delta':{'content':'Hi'}}]}"]
  ∧ stream (Wire.clock_from 1700000000000) Wire.decode "msg_1" "claude-sonnet-4"
      Wire.cut_off_session
    = [message_start "msg_1" "claude-sonnet-4";
       content_block_start 0 (start_text "");
       content_block_delta 0 (text_delta "Hi");
       content_block_stop 0;
       message_delta "end_turn" 1;
       message_stop].
Proof.
  split.
  - apply stream_unterminated_tail_dropped. reflexivity.
  - vm_compute. reflexivity.
Defined.

(** An event-stream comment, the sentinel and a line of broken JSON around
    one chunk. *)
Lemma stream_skips_lines_without_chunk_witness :
  stream (Wire.clock_from 1700000000000) Wire.decode "msg_1" "claude-sonnet-4"
    [terminated [": keep-alive"; "data: {oops";
                 "data: " +:+ wire "{'choices':[{'delta':{'content':'Hi'}}]}";
                 ""; "data: [DONE]"]]
  = stream (Wire.clock_from 1700000000000) Wire.decode "msg_1" "claude-sonnet-4"
      [terminated ["data: " +:+ wire "{'choices':[{'delta':{'content':'Hi'}}]}"]].
Proof.
  refine (proj2 (proj2 (proj2
    (stream_skips_lines_without_chunk (Wire.clock_from 1700000000000) Wire.decode
       "msg_1" "claude-sonnet-4"
       [": keep-alive"; "data: {oops";
        "data: " +:+ wire "{'choices':[{'delta':{'content':'Hi'}}]}";
        ""; "data: [DONE]"] _)))).
  repeat constructor.
Defined.

(** The call without arguments, decoded from its wire text: the backend
    sent no id, and the block carries the one made from the clock and the
    slot. *)
Lemma tool_call_without_arguments_witness :
  slot_last delta_id 0 (session_fragments Wire.decode Wire.bare_call_session) = None
  ∧ stream (Wire.clock_from 1700000000000) Wire.decode "msg_1" "claude-sonnet-4"
      Wire.bare_call_session =
      [message_start "msg_1" "claude-sonnet-4";
       content_block_start 0 (start_tool_use "toolu_1700000000000_0" "list_files");
       content_block_stop 0;
       message_delta "tool_use" 0;
       message_stop]
  ∧ ∃ (i : nat) (id name : string) (before after : list Event),
    stream (Wire.clock_from 1700000000000) Wire.decode "msg_1" "claude-sonnet-4"
      Wire.bare_call_session =
      written (data_phase (Wire.clock_from 1700000000000) Wire.decode "msg_1" "claude-sonnet-4"
                 Wire.bare_call_session) ++ before
      ++ [content_block_start i (start_tool_use id name); content_block_stop i]
      ++ after
    ∧ deltas_at i (stream (Wire.clock_from 1700000000000) Wire.decode "msg_1" "claude-sonnet-4"
                     Wire.bare_call_session) = []
    ∧ (slot_last delta_id 0 (session_fragments Wire.decode Wire.bare_call_session) = None →
       ∃ n, id = "toolu_" +:+ Number_toString (Wire.clock_from 1700000000000 n) +:+ "_"
                 +:+ Number_toString 0)
    ∧ (∀ v, slot_last delta_id 0 (session_fragments Wire.decode Wire.bare_call_session) = Some v →
            id = v)
    ∧ name = default "" (slot_last fragment_name 0
                           (session_fragments Wire.decode Wire.bare_call_session)).
Proof.
  split; [vm_compute; reflexivity|]. split; [vm_compute; reflexivity|].
  apply (tool_call_without_arguments (Wire.clock_from 1700000000000) Wire.decode
           "msg_1" "claude-sonnet-4" Wire.bare_call_session 0).
  - vm_compute. reflexivity.
  - vm_compute. reflexivity.
Defined.

(** An event cut in two chunks before a two-byte character: the output is
    that of the two chunks in one. *)
Lemma stream_of_whole_bytes_witness :
  stream (Wire.clock_from 1700000000000) Wire.decode "msg_1" "claude-sonnet-4"
    Wire.cafe_session
  = stream (Wire.clock_from 1700000000000) Wire.decode "msg_1" "claude-sonnet-4"
      [foldr append "" Wire.cafe_session]
  ∧ stream (Wire.clock_from 1700000000000) Wire.decode "msg_1" "claude-sonnet-4"
      Wire.cafe_session
    = [message_start "msg_1" "claude-sonnet-4";
       content_block_start 0 (start_text "");
       content_block_delta 0 (text_delta ("caf" +:+ Wire.e_acute));
       content_block_stop 0;
       message_delta "end_turn" 1;
       message_stop].
Proof.
  split.
  - apply (stream_of_whole_bytes (Wire.clock_from 1700000000000) Wire.decode
             "msg_1" "claude-sonnet-4" Wire.cafe_session).
    repeat (constructor; [vm_compute; reflexivity|]). constructor.
  - vm_compute. reflexivity.
Defined.

(** The same bytes cut inside the character: each half is decoded to
    U+FFFD. *)
Example cut_character_replaced :
  foldr append "" Wire.cut_cafe_session = foldr append "" Wire.cafe_session
  ∧ stream (Wire.clock_from 1700000000000) Wire.decode "msg_1" "claude-sonnet-4"
      Wire.cut_cafe_session
    = [message_start "msg_1" "claude-sonnet-4";
       content_block_start 0 (start_text "");
       content_block_delta 0 (text_delta ("caf" +:+ replacement +:+ replacement));
       content_block_stop 0;
       message_delta "end_turn" 1;
       message_stop].
Proof. split; vm_compute; reflexivity. Qed.

(** What the relay writes for the call without arguments. *)
Example bare_call_session_output :
  stream (Wire.clock_from 1700000000000) Wire.decode "msg_1" "claude-sonnet-4"
    Wire.bare_call_session =
    [message_start "msg_1" "claude-sonnet-4";
     content_block_start 0 (start_tool_use "toolu_1700000000000_0" "list_files");
     content_block_stop 0;
     message_delta "tool_use" 0;
     message_stop].
Proof. vm_compute. reflexivity. Qed.

(** Two calls without ids under a clock that stands still. *)
Lemma generated_tool_ids_distinct_witness :
  ∃ (tc1 tc2 : StreamingToolCall) (n1 n2 : nat),
    Map_get (session_tool_calls (fun _ => 1700000000000%Z) Wire.decode Wire.two_calls_session) 0
      = Some tc1
    ∧ Map_get (session_tool_calls (fun _ => 1700000000000%Z) Wire.decode Wire.two_calls_session) 1
      = Some tc2
    ∧ tc_id tc1 = generated_id 1700000000000 0
    ∧ tc_id tc2 = generated_id 1700000000000 1
    ∧ tc_id tc1 ≠ tc_id tc2.
Proof.
  apply (generated_tool_ids_distinct (fun _ => 1700000000000%Z) Wire.decode
           Wire.two_calls_session 0 1); (vm_compute; reflexivity) || discriminate.
Defined.

(** ** Further properties of the translators *)

Section request_translator_more.

Implicit Types (blocks : list ClaudeContentBlock).

Lemma convert_roles (msg : ClaudeMessage) :
  Forall (fun m => msg_role m ≠ system) (convertClaudeMessageToOpenAI msg).
Proof.
  destruct msg as [r [s|blocks]].
  - destruct r; by repeat constructor.
  - destruct r.
    + rewrite convert_user_blocks. apply Forall_app. split.
      * apply Forall_forall. intros m [b [-> _]]%list_elem_of_fmap. done.
      * destruct (block_texts blocks); by repeat constructor.
    + unfold convertClaudeMessageToOpenAI. simpl.
      destruct (0 <? _)%nat; by repeat constructor.
Qed.

(** X12. The translated messages of a request hold a system message only
    as the first one, and only for a system prompt that is present and not
    the empty string: a string prompt is sent as it is, the texts of a block
    list are joined by a blank line (an empty list gives the empty text), and
    the translated conversation follows. *)
Theorem system_message_first (self : BaseProvider) (request : ClaudeRequest) :
  let messages := oa_messages (convertClaudeToOpenAI self request) in
  let translated := List.concat (List.map convertClaudeMessageToOpenAI (req_messages request)) in
  Forall (fun m => msg_role m ≠ system) translated
  ∧ match req_system request with
    | None | Some (SystemString EmptyString) => messages = translated
    | Some (SystemString s) => messages = system_message s :: translated
    | Some (SystemBlocks blocks) =>
        messages =
          system_message (join (String newline (String newline EmptyString))
                            (List.map sys_text blocks)) :: translated
    end.
Proof.
  intros messages translated. split.
  - unfold translated. induction (req_messages request) as [|msg msgs IH]; [constructor|].
    simpl. apply Forall_app. split; [apply convert_roles | exact IH].
  - unfold messages, convertClaudeToOpenAI. simpl.
    destruct (req_system request) as [[[|c s]|blocks]|]; done.
Qed.

(** X13. The tool choice sent to the backend is never [none]; it is absent
    exactly when the request has none, names a function exactly for type
    [tool] with a non-empty name, and is [required] exactly for type [any]
    or a [tool] without a name.  Tools are sent only for a non-empty list,
    with their names in order. *)
Theorem tool_choice_translation (self : BaseProvider) (request : ClaudeRequest) :
  let sent := convertClaudeToOpenAI self request in
  oa_tool_choice sent ≠ Some choice_none
  ∧ (oa_tool_choice sent = None ↔ req_tool_choice request = None)
  ∧ (∀ name, oa_tool_choice sent = Some (choice_function name) ↔
       ∃ toolChoice, req_tool_choice request = Some toolChoice
                     ∧ choice_type toolChoice = "tool"
                     ∧ choice_name toolChoice = Some name ∧ name ≠ "")
  ∧ (oa_tool_choice sent = Some choice_required ↔
       ∃ toolChoice, req_tool_choice request = Some toolChoice
                     ∧ (choice_type toolChoice = "any"
                        ∨ choice_type toolChoice = "tool"
                          ∧ (choice_name toolChoice = None ∨ choice_name toolChoice = Some "")))
  ∧ oa_tools sent =
      match req_tools request with
      | Some (t :: ts) => Some (convertClaudeToolsToOpenAI (t :: ts))
      | _ => None
      end
  ∧ (∀ tools, oa_tools sent = Some tools →
       List.map fn_name tools = List.map tool_name (default [] (req_tools request))).
Proof.
  intros sent. unfold sent, convertClaudeToOpenAI. cbn [oa_tool_choice oa_tools].
  assert (Hchoice : ∀ tc, convertClaudeToolChoiceToOpenAI tc =
            if String.eqb (choice_type tc) "auto" then choice_auto
            else if String.eqb (choice_type tc) "any" then choice_required
            else if String.eqb (choice_type tc) "tool" then
              match choice_name tc with
              | Some (String c n) => choice_function (String c n)
              | _ => choice_required
              end
            else choice_auto).
  { intros [ty [[|c n]|]]; unfold convertClaudeToolChoiceToOpenAI; simpl; done. }
  split; [|split; [|split; [|split; [|split]]]].
  - destruct (req_tool_choice request) as [tc|]; [|done]. simpl. rewrite Hchoice.
    repeat (destruct (String.eqb _ _); [done|]). try done.
    destruct (String.eqb _ _); [|done]. by destruct (choice_name tc) as [[|??]|].
  - by destruct (req_tool_choice request).
  - intros name. destruct (req_tool_choice request) as [tc|]; simpl.
    + rewrite Hchoice. split.
      * destruct (String.eqb_spec (choice_type tc) "auto"); [done|].
        destruct (String.eqb_spec (choice_type tc) "any"); [done|].
        destruct (String.eqb_spec (choice_type tc) "tool"); [|done].
        destruct (choice_name tc) as [[|c nm]|] eqn:En; [done| |done].
        intros [= <-]. exists tc. by rewrite En.
      * intros (tc' & [= <-] & Hty & Hn & Hne). rewrite Hty, Hn. simpl.
        by destruct name.
    + split; [done|]. by intros (? & ? & _).
  - destruct (req_tool_choice request) as [tc|]; simpl.
    + rewrite Hchoice. split.
      * destruct (String.eqb_spec (choice_type tc) "auto"); [done|].
        destruct (String.eqb_spec (choice_type tc) "any"); [by eauto|].
        destruct (String.eqb_spec (choice_type tc) "tool"); [|done].
        destruct (choice_name tc) as [[|c nm]|] eqn:En; [|done|]; intros _; exists tc; eauto.
      * intros (tc' & [= <-] & [Hty | [Hty [Hn|Hn]]]); rewrite Hty; simpl; [done| |];
          by rewrite Hn.
    + split; [done|]. by intros (? & ? & _).
  - by destruct (req_tools request) as [[|t ts]|].
  - intros tools. destruct (req_tools request) as [[|t ts]|]; simpl; try done.
    intros [= <-]. unfold convertClaudeToolsToOpenAI.
    cbn [List.map fn_name]. f_equal. by rewrite List.map_map.
Qed.

End request_translator_more.

Section response_translator_more.

Implicit Types (tool_calls : list OpenAIToolCall) (response : OpenAIResponse).

Lemma tool_part_no_text (tool_part : list ClaudeContentBlock) :
  Forall (fun b => is_tool_use_block b = true) tool_part →
  ∀ i t, tool_part !! i ≠ Some (ClaudeTextBlock t).
Proof.
  intros Hall i t Hi. apply (Forall_lookup_1 _ _ _ _ Hall) in Hi. done.
Qed.

(** X14. A translated response always has content: text and tool-use
    blocks only, a text block only in first place, an empty text block only
    as the whole content.  Its stop reason is one of the four of the client
    protocol, its stop sequence is null, and its id is the backend's behind
    [msg_]. *)
Theorem response_shape response originalModel (r : ClaudeResponse) :
  convertOpenAIToClaude response originalModel = Return r →
  resp_content r ≠ []
  ∧ Forall (fun b => is_text_block b = true ∨ is_tool_use_block b = true) (resp_content r)
  ∧ (∀ i t, resp_content r !! i = Some (ClaudeTextBlock t) → i = 0%nat)
  ∧ (ClaudeTextBlock "" ∈ resp_content r → resp_content r = [ClaudeTextBlock ""])
  ∧ (∃ reason, resp_stop_reason r = Some reason ∧ reason ∈ stop_reasons)
  ∧ resp_stop_sequence r = None
  ∧ resp_id r = "msg_" +:+ oa_id response.
Proof.
  intros Hr. apply convertOpenAIToClaude_Return in Hr. cbv zeta in Hr.
  destruct Hr as (tool_part & Htools & Hc & Hid & _ & Hstop & Hseq & _).
  pose proof (tool_use_blocks_all_tool_use _ _ Htools) as Hall.
  assert (Htext : ∀ t, ClaudeTextBlock t ∉ tool_part).
  { intros t Hin. apply (proj1 (Forall_forall _ _) Hall) in Hin. done. }
  set (text := (head (oa_choices response) ≫= choice_message) ≫= cm_content) in Hc.
  assert (Hcases :
    (resp_content r = [ClaudeTextBlock ""] ∧ tool_part = [])
    ∨ (∃ c, c ≠ "" ∧ resp_content r = ClaudeTextBlock c :: tool_part)
    ∨ (tool_part ≠ [] ∧ resp_content r = tool_part)).
  { rewrite Hc. destruct text as [c|]; [destruct (truthy c) eqn:Ec|].
    - right. left. exists c. split; [by apply truthy_true|done].
    - destruct tool_part; [by left | by right; right].
    - destruct tool_part; [by left | by right; right]. }
  repeat split.
  - destruct Hcases as [[-> _]|[(c & _ & ->)|[Hne ->]]]; done.
  - destruct Hcases as [[-> _]|[(c & _ & ->)|[Hne ->]]].
    + constructor; [by left|constructor].
    + constructor; [by left|]. eapply Forall_impl; [exact Hall|]. by right.
    + eapply Forall_impl; [exact Hall|]. by right.
  - intros i t Hi. destruct Hcases as [[Hcontent _]|[(c & _ & Hcontent)|[Hne Hcontent]]];
      rewrite Hcontent in Hi.
    + by destruct i as [|[|i]].
    + destruct i as [|i]; [done|]. simpl in Hi. by apply tool_part_no_text in Hi.
    + by apply tool_part_no_text in Hi.
  - intros Hin. destruct Hcases as [[-> _]|[(c & Hne & Hcontent)|[Hne Hcontent]]]; [done| |];
      rewrite Hcontent in Hin.
    + apply elem_of_cons in Hin as [[= <-]|Hin]; [done|]. by apply Htext in Hin.
    + by apply Htext in Hin.
  - rewrite Hstop. eexists. split; [done|]. apply mapFinishReason_stop_reasons.
  - done.
  - done.
Qed.

End response_translator_more.

Lemma response_shape_witness :
  ∃ r, convertOpenAIToClaude weather_response "claude-sonnet-4" = Return r
       ∧ resp_content r = weather_turn
       ∧ resp_content r ≠ []
       ∧ (∀ i t, resp_content r !! i = Some (ClaudeTextBlock t) → i = 0%nat)
       ∧ (∃ reason, resp_stop_reason r = Some reason ∧ reason ∈ stop_reasons)
       ∧ resp_id r = "msg_chatcmpl-3".
Proof.
  destruct (convertOpenAIToClaude weather_response "claude-sonnet-4") as [r|e] eqn:H.
  - exists r.
    destruct (response_shape weather_response "claude-sonnet-4" r H)
      as (Hne & _ & Hfirst & _ & Hstop & _ & Hid).
    split; [reflexivity|]. split; [|by repeat split].
    vm_compute in H. injection H as <-. reflexivity.
  - vm_compute in H. discriminate H.
Defined.

Section tool_call_round_trips.

Implicit Types (blocks : list ClaudeContentBlock).

Lemma tool_use_blocks_toolCall_of (uses : list (string * string * json)) (inputs : list json) :
  Forall2 (fun u input => JSON_parse (or_else (Some (JSON_stringify u.2)) "{}") = Some input)
    uses inputs →
  tool_use_blocks (List.map toolCall_of uses) =
    Return (zip_with (fun u input => ClaudeToolUseBlock u.1.1 u.1.2 input) uses inputs).
Proof.
  induction 1 as [|[[i n] input] input' uses inputs Hin _ IH]; [done|].
  cbn [List.map tool_use_blocks toolCall_of zip_with]. unfold decoded_input.
  cbn [function_arguments fst snd] in *. rewrite Hin, IH. done.
Qed.

Lemma block_texts_tool_uses (uses : list (string * string * json)) (inputs : list json) :
  block_texts (zip_with (fun u input => ClaudeToolUseBlock u.1.1 u.1.2 input) uses inputs) = [].
Proof.
  unfold block_texts. revert inputs.
  induction uses as [|u uses IH]; intros [|input inputs]; try done. apply IH.
Qed.

Lemma filter_tool_use_tool_uses (uses : list (string * string * json)) (inputs : list json) :
  List.filter is_tool_use_block
    (zip_with (fun u input => ClaudeToolUseBlock u.1.1 u.1.2 input) uses inputs)
  = zip_with (fun u input => ClaudeToolUseBlock u.1.1 u.1.2 input) uses inputs.
Proof.
  revert inputs. induction uses as [|u uses IH]; intros [|input inputs]; try done.
  simpl. by rewrite IH.
Qed.

(** What [convertClaudeMessageToOpenAI] emits for an assistant message with
    block content. *)
Lemma convert_assistant_blocks blocks :
  convertClaudeMessageToOpenAI {| role := role_assistant; content := ContentBlocks blocks |} =
    let joined := join (String newline EmptyString) (block_texts blocks) in
    [ match block_tool_uses blocks with
      | [] =>
          {| msg_role := assistant; msg_content := Some joined;
             msg_tool_calls := None; msg_tool_call_id := None |}
      | u :: us =>
          {| msg_role := assistant; msg_content := or_null joined;
             msg_tool_calls := Some (List.map toolCall_of (u :: us));
             msg_tool_call_id := None |}
      end ].
Proof.
  unfold convertClaudeMessageToOpenAI. cbn [content role]. rewrite group_blocks_spec.
  cbn [textBlocks toolUseBlocks]. cbv zeta.
  destruct (block_tool_uses blocks) as [|u us]; [|done].
  cbn [length Nat.ltb Nat.leb]. do 2 f_equal. unfold or_null, or_else.
  destruct (truthy (join _ _)) eqn:Ej; [by rewrite Ej|].
  apply truthy_false in Ej. by rewrite Ej.
Qed.

(** X15. An assistant turn sent to the backend and answered back by it as
    it was sent is translated to a response with the same joined text and,
    for the turn's tool-use blocks in their order, tool-use blocks with the
    same ids and names; the input of each is what [JSON.parse] reads from the
    text [JSON.stringify] wrote for the turn's input (from [{}] if that text
    were empty). *)
Theorem assistant_turn_echoed (blocks : list ClaudeContentBlock) :
  ∃ m,
    convertClaudeMessageToOpenAI {| role := role_assistant; content := ContentBlocks blocks |} = [m]
    ∧ ∀ (inputs : list json) response_id finish usage originalModel,
        Forall2 (fun u input =>
                   JSON_parse (or_else (Some (JSON_stringify u.2)) "{}") = Some input)
          (block_tool_uses blocks) inputs →
        ∃ r,
          convertOpenAIToClaude
            {| oa_id := response_id;
               oa_choices :=
                 [ {| choice_message :=
                        Some {| cm_content := msg_content m; cm_tool_calls := msg_tool_calls m |};
                      choice_finish_reason := finish |} ];
               oa_usage := usage |} originalModel = Return r
          ∧ List.filter is_tool_use_block (resp_content r) =
              zip_with (fun u input => ClaudeToolUseBlock u.1.1 u.1.2 input)
                (block_tool_uses blocks) inputs
          ∧ join (String newline EmptyString) (block_texts (resp_content r))
            = join (String newline EmptyString) (block_texts blocks).
Proof.
  eexists. split; [apply convert_assistant_blocks|].
  intros inputs response_id finish usage originalModel Hinputs. cbv zeta.
  set (joined := join (String newline EmptyString) (block_texts blocks)).
  destruct (block_tool_uses blocks) as [|u us] eqn:Eu.
  - inversion Hinputs; subst. unfold convertOpenAIToClaude. cbn -[joined].
    destruct (truthy joined) eqn:Ej.
    + eexists. split; [reflexivity|]. done.
    + eexists. split; [reflexivity|]. cbn. split; [done|].
      apply truthy_false in Ej. by rewrite Ej.
  - unfold convertOpenAIToClaude.
    cbn [oa_choices head mbind option_bind choice_message cm_content cm_tool_calls
         msg_content msg_tool_calls default].
    unfold id. rewrite (tool_use_blocks_toolCall_of (u :: us) inputs Hinputs). cbn [bind].
    set (tool_part := zip_with (fun (u0 : string * string * json) input =>
                                  ClaudeToolUseBlock u0.1.1 u0.1.2 input) (u :: us) inputs).
    assert (Hlen : ∀ pre : list ClaudeContentBlock, (length (pre ++ tool_part) =? 0)%nat = false).
    { intros pre. rewrite length_app. unfold tool_part.
      inversion Hinputs; subst. simpl. by rewrite Nat.add_succ_r. }
    rewrite Hlen. eexists. split; [reflexivity|]. cbn [resp_content].
    rewrite List.filter_app. unfold block_texts. rewrite omap_app.
    fold (block_texts tool_part).
    replace (List.filter is_tool_use_block tool_part) with tool_part
      by (symmetry; apply filter_tool_use_tool_uses).
    replace (block_texts tool_part) with (@nil string) by (symmetry; apply block_texts_tool_uses).
    rewrite app_nil_r.
    unfold or_null. destruct (truthy joined) eqn:Ej.
    + rewrite Ej. done.
    + apply truthy_false in Ej. by rewrite Ej.
Qed.

End tool_call_round_trips.

(** The weather turn: its input is read back as it was. *)
Lemma assistant_turn_echoed_witness :
  JSON_parse (JSON_stringify weather_input) = Some weather_input
  ∧ ∃ m,
    convertClaudeMessageToOpenAI
      {| role := role_assistant; content := ContentBlocks weather_turn |} = [m]
    ∧ ∀ response_id finish usage originalModel,
        ∃ r,
          convertOpenAIToClaude
            {| oa_id := response_id;
               oa_choices :=
                 [ {| choice_message :=
                        Some {| cm_content := msg_content m; cm_tool_calls := msg_tool_calls m |};
                      choice_finish_reason := finish |} ];
               oa_usage := usage |} originalModel = Return r
          ∧ List.filter is_tool_use_block (resp_content r)
            = [ClaudeToolUseBlock "call_1" "get_weather" weather_input]
          ∧ join (String newline EmptyString) (block_texts (resp_content r))
            = "Let me check.".
Proof.
  split; [vm_compute; reflexivity|].
  destruct (assistant_turn_echoed weather_turn) as (m & Hm & Hecho).
  exists m. split; [exact Hm|].
  intros response_id finish usage originalModel.
  apply (Hecho [weather_input]).
  constructor; [vm_compute; reflexivity | constructor].
Defined.

(** Numbers as [JSON.parse] reads them and [JSON.stringify] writes them. *)
Example JSON_numbers :
  JSON_stringify <$> JSON_parse "[25, 2.50e+1, 0.1, 1e21, 1e-7, 0.000001, 123456789012345678901, -1.5e3]"
    = Some "[25,25,0.1,1e+21,1e-7,0.000001,123456789012345680000,-1500]"
  ∧ JSON_stringify <$> JSON_parse "[0.1e1, 5e-324, 2e-324, 9007199254740993, 4.35, 0.30000000000000004]"
    = Some "[1,5e-324,0,9007199254740992,4.35,0.30000000000000004]"
  ∧ JSON_parse "3" = Some (JNumber (Finite false 6755399441055744 (-51))).
Proof. vm_compute. repeat split. Qed.

(** The members of an object as [JSON.parse] keeps them: a key written
    twice keeps its first place and its last value, and array indices come
    first, in ascending order. *)
Example JSON_object_members :
  JSON_stringify <$> JSON_parse (wire "{'b':1,'10':2,'a':3,'2':4,'b':5,'01':6}")
    = Some (wire "{'2':4,'10':2,'b':5,'a':3,'01':6}").
Proof. vm_compute. reflexivity. Qed.

(** The escapes of the two halves of a surrogate pair are one character,
    written back as its four bytes; a half on its own is written back as an
    escape. *)
Example JSON_surrogates :
  JSON_parse (wire "'\ud83d\ude00'")
    = Some (JString (String (ascii_of_nat 240) (String (ascii_of_nat 159)
                       (String (ascii_of_nat 152) (String (ascii_of_nat 128) EmptyString)))))
  ∧ JSON_stringify <$> JSON_parse (wire "'\uD83D x'") = Some (wire "'\ud83d x'").
Proof. vm_compute. split; reflexivity. Qed.

(** A number that does not come back: the text [1e400] is read as
    infinity, written as [null] and read back as null; [-0] comes back
    as [0]. *)
Example JSON_infinity_not_read_back :
  JSON_parse "[1e400, -0, 2.50e+1]"
    = Some (JArray [JNumber (Infinity false); JNumber (Zero true); JNumber (Double_of_Z 25)])
  ∧ JSON_stringify
      (JArray [JNumber (Infinity false); JNumber (Zero true); JNumber (Double_of_Z 25)])
    = "[null,0,25]"
  ∧ JSON_parse "[null,0,25]"
    = Some (JArray [JNull; JNumber (Zero false); JNumber (Double_of_Z 25)]).
Proof. vm_compute. repeat split. Qed.

Section history.

Implicit Types (tool_calls : list OpenAIToolCall) (response : OpenAIResponse).

Lemma tool_part_back tool_calls (tool_part : list ClaudeContentBlock) :
  tool_use_blocks tool_calls = Return tool_part →
  block_texts tool_part = []
  ∧ Forall2 (fun sent back =>
               call_id back = call_id sent ∧ function_name back = function_name sent
               ∧ ∃ input,
                   JSON_parse (or_else (Some (function_arguments sent)) "{}") = Some input
                   ∧ function_arguments back = JSON_stringify input)
      tool_calls (List.map toolCall_of (block_tool_uses tool_part)).
Proof.
  intros H%tool_use_blocks_Return.
  induction H as [|tc b tcs bs (input & Hin & ->) _ [IH1 IH2]]; [by split; [|constructor]|].
  split; [exact IH1|].
  change (block_tool_uses (ClaudeToolUseBlock ?i ?n ?inp :: bs))
    with ((i, n, inp) :: block_tool_uses bs).
  cbn [List.map toolCall_of]. constructor; [|exact IH2].
  split; [done|]. split; [done|]. exists input. by split.
Qed.

(** X16. A response put back into the conversation as an assistant turn
    is translated to one assistant message that holds the backend's text
    (the empty text if it gave neither text nor tool calls, null if it gave
    tool calls only) and the backend's tool calls, each with its id and
    name; the argument string of each is what [JSON.stringify] writes for
    the input [JSON.parse] read from the backend's argument string (from
    [{}] for an empty one). *)
Theorem response_kept_in_history response originalModel (r : ClaudeResponse) :
  convertOpenAIToClaude response originalModel = Return r →
  let message := head (oa_choices response) ≫= choice_message in
  let tool_calls := default [] (message ≫= cm_tool_calls) in
  ∃ m,
    convertClaudeMessageToOpenAI
      {| role := role_assistant; content := ContentBlocks (resp_content r) |} = [m]
    ∧ msg_role m = assistant
    ∧ msg_content m =
        (if truthy_opt (message ≫= cm_content) then message ≫= cm_content
         else match tool_calls with [] => Some "" | _ :: _ => None end)
    ∧ (msg_tool_calls m = None ↔ tool_calls = [])
    ∧ Forall2 (fun sent back =>
                 call_id back = call_id sent ∧ function_name back = function_name sent
                 ∧ ∃ input,
                     JSON_parse (or_else (Some (function_arguments sent)) "{}") = Some input
                     ∧ function_arguments back = JSON_stringify input)
        tool_calls (default [] (msg_tool_calls m)).
Proof.
  intros Hr message tool_calls. apply convertOpenAIToClaude_Return in Hr. cbv zeta in Hr.
  fold message in Hr. fold tool_calls in Hr.
  destruct Hr as (tool_part & Htools & Hc & _).
  destruct (tool_part_back _ _ Htools) as [Htexts Hback].
  eexists. split; [apply convert_assistant_blocks|]. cbv zeta.
  assert (Hlen : tool_part = [] ↔ tool_calls = []).
  { apply tool_use_blocks_Return in Htools. split; intros ->; by inversion Htools. }
  assert (Hshape :
    block_texts (resp_content r) =
      (if truthy_opt (message ≫= cm_content) then [default "" (message ≫= cm_content)]
       else match tool_part with [] => [""] | _ => [] end)
    ∧ block_tool_uses (resp_content r) = block_tool_uses tool_part).
  { rewrite Hc. destruct (message ≫= cm_content) as [c|]; [destruct (truthy c) eqn:Ec|];
      cbn [truthy_opt default app length Nat.eqb]; rewrite ?Ec.
    - split; [|done].
      change (block_texts (ClaudeTextBlock c :: tool_part)) with (c :: block_texts tool_part).
      by rewrite Htexts.
    - destruct tool_part; [done|]. by split.
    - destruct tool_part; [done|]. by split. }
  destruct Hshape as [-> ->].
  destruct tool_calls as [|tc tcs] eqn:Etc.
  - assert (tool_part = []) as -> by by apply Hlen. cbn.
    repeat split; try done.
    destruct (message ≫= cm_content) as [c|]; [|done]. simpl.
    destruct (truthy c); done.
  - destruct (block_tool_uses tool_part) as [|u us] eqn:Eu; [by inversion Hback|].
    destruct tool_part as [|b bs]; [done|].
    cbn [msg_role msg_content msg_tool_calls default].
    split; [done|]. split; [|by split].
    destruct (message ≫= cm_content) as [c|]; [|done]. simpl.
    destruct (truthy c) eqn:Ec; [|done]. simpl. unfold or_null. by rewrite Ec.
Qed.

End history.

(** A backend answer whose argument string is spaced out and writes its
    numbers with exponents: the string sent back is the compact text of the
    same input. *)
Lemma response_kept_in_history_witness :
  ∃ r m,
    convertOpenAIToClaude spaced_response "claude-sonnet-4" = Return r
    ∧ convertClaudeMessageToOpenAI
        {| role := role_assistant; content := ContentBlocks (resp_content r) |} = [m]
    ∧ msg_role m = assistant
    ∧ msg_content m = None
    ∧ msg_tool_calls m =
        Some [ {| call_id := "call_1"; function_name := "get_weather";
                  function_arguments := wire "{'7':true,'city':'Paris','days':25}" |} ].
Proof.
  destruct (convertOpenAIToClaude spaced_response "claude-sonnet-4") as [r|e] eqn:H.
  - destruct (response_kept_in_history spaced_response "claude-sonnet-4" r H)
      as (m & Hm & Hrole & Hcontent & _ & Hcalls).
    exists r, m. split; [reflexivity|]. split; [exact Hm|]. split; [exact Hrole|].
    split; [exact Hcontent|].
    vm_compute in H. injection H as <-. vm_compute in Hm. injection Hm as <-.
    vm_compute. reflexivity.
  - vm_compute in H. discriminate H.
Defined.

Section routed_model.

Lemma first_prefix_match_Some (routing : ModelRouting) (name v : string) :
  first_prefix_match routing name = Some v →
  ∃ pattern, (pattern, v) ∈ routing ∧ startsWith name pattern = true.
Proof.
  induction routing as [|[k w] rest IH]; simpl; [done|].
  destruct (startsWith name k) eqn:E.
  - intros [= ->]. exists k. split; [apply list_elem_of_here | done].
  - intros (pattern & Hin & Hp)%IH. exists pattern. split; [by apply list_elem_of_further | done].
Qed.

(** X17. [resolveModel] gives a model name, or a member of
    [Object.prototype]; it never gives [undefined].  When it gives a model
    name, with the override the server sets from it the model named in the
    backend request is the section's default model or the target of a routing
    entry whose key the requested name starts with; it is never empty unless
    the default is; and once the override is cleared the effective model is
    the default again.  It gives a member only for a requested name that is
    the member's name and no key of the table; the override is then no model
    name. *)
Theorem routed_model_sent (config : Config) (request : ClaudeRequest) :
  let routing := default [] (modelRouting (provider_config config)) in
  let fallback := model (provider_config config) in
  match resolveModel config (req_model request) with
  | str resolvedModel =>
      let routed := setModelOverride (createProvider config) resolvedModel in
      let sent := oa_model (convertClaudeToOpenAI routed request) in
      (sent = fallback
       ∨ ∃ pattern, (pattern, sent) ∈ routing ∧ startsWith (req_model request) pattern = true)
      ∧ (fallback ≠ "" → sent ≠ "")
      ∧ getEffectiveModel (clearModelOverride routed) = fallback
  | member name =>
      name = req_model request
      ∧ name ∈ Object_prototype_members
      ∧ Forall (fun kv => kv.1 ≠ name) routing
  | undefined => False
  end.
Proof.
  intros routing fallback.
  assert (Hlater : ∀ resolved,
    str (default fallback (first_prefix_match routing (req_model request))) = str resolved →
    resolved = fallback
    ∨ ∃ pattern, (pattern, resolved) ∈ routing ∧ startsWith (req_model request) pattern = true).
  { intros resolved [= <-].
    destruct (first_prefix_match routing (req_model request)) as [v|] eqn:Ep; [|by left].
    right. by apply first_prefix_match_Some. }
  assert (Hstr : ∀ resolved,
    (resolved = fallback
     ∨ ∃ pattern, (pattern, resolved) ∈ routing ∧ startsWith (req_model request) pattern = true) →
    let routed := setModelOverride (createProvider config) resolved in
    let sent := oa_model (convertClaudeToOpenAI routed request) in
    (sent = fallback
     ∨ ∃ pattern, (pattern, sent) ∈ routing ∧ startsWith (req_model request) pattern = true)
    ∧ (fallback ≠ "" → sent ≠ "")
    ∧ getEffectiveModel (clearModelOverride routed) = fallback).
  { intros resolved Hresolved routed sent.
    assert (Hsent : sent = if truthy resolved then resolved else fallback) by done.
    split; [|split; [|done]].
    - rewrite Hsent. destruct (truthy _); [exact Hresolved | by left].
    - intros Hfallback. rewrite Hsent.
      destruct (truthy _) eqn:Et; [by apply truthy_true|done]. }
  rewrite resolveModel_unfold. fold routing. fold fallback. cbv zeta.
  destruct (own_entry routing (req_model request)) as [v|] eqn:Eg.
  - destruct (truthy v).
    + apply Hstr. right. exists (req_model request).
      split; [by apply own_entry_Some | apply startsWith_self].
    + apply Hstr. by apply Hlater.
  - destruct (bool_decide_reflect (req_model request ∈ Object_prototype_members)) as [Hin|Hout].
    + split; [done|]. split; [done|]. by apply own_entry_None.
    + apply Hstr. by apply Hlater.
Qed.

End routed_model.

(** On the Ollama defaults: a request for [claude-3-opus] is sent for
    [llama3:70b], the target of an entry; a request for [constructor]
    resolves to the member every object inherits under that name. *)
Lemma routed_model_sent_witness :
  (oa_model (convertClaudeToOpenAI
               (setModelOverride (createProvider (with_provider ollama DEFAULT_CONFIG)) "llama3:70b")
               (request_for "claude-3-opus")) = "llama3:70b"
   ∧ resolveModel (with_provider ollama DEFAULT_CONFIG) "claude-3-opus" = str "llama3:70b"
   ∧ ("llama3:70b" = "llama3:8b"
      ∨ ∃ pattern,
          (pattern, "llama3:70b")
            ∈ default [] (modelRouting (provider_config (with_provider ollama DEFAULT_CONFIG)))
          ∧ startsWith "claude-3-opus" pattern = true))
  ∧ (resolveModel (with_provider ollama DEFAULT_CONFIG) "constructor" = member "constructor"
     ∧ "constructor" ∈ Object_prototype_members
     ∧ Forall (fun kv => kv.1 ≠ "constructor")
         (default [] (modelRouting (provider_config (with_provider ollama DEFAULT_CONFIG))))).
Proof.
  split.
  - split; [reflexivity|]. split; [reflexivity|].
    exact (proj1 (routed_model_sent (with_provider ollama DEFAULT_CONFIG)
                    (request_for "claude-3-opus"))).
  - split; [reflexivity|].
    exact (proj2 (routed_model_sent (with_provider ollama DEFAULT_CONFIG)
                    (request_for "constructor"))).
Defined.

Section text_content.

Lemma extractTextContent_blocks (blocks : list ClaudeContentBlock) :
  extractTextContent (ContentBlocks blocks) =
    join (String newline EmptyString) (block_texts blocks).
Proof.
  unfold extractTextContent. f_equal. unfold block_texts.
  induction blocks as [|b blocks IH]; [done|]. destruct b; simpl; by rewrite ?IH.
Qed.

(** X18. Every message the translator writes for a turn, tool results
    apart, has [extractTextContent] of the turn as its content; the one
    exception is an assistant turn with tool calls and no text, whose
    content is null. *)
Theorem text_message_carries_extractTextContent (msg : ClaudeMessage) (m : OpenAIMessage) :
  m ∈ convertClaudeMessageToOpenAI msg →
  msg_role m ≠ tool →
  msg_content m = Some (extractTextContent (content msg))
  ∨ (extractTextContent (content msg) = "" ∧ msg_content m = None
     ∧ msg_role m = assistant ∧ msg_tool_calls m ≠ None).
Proof.
  destruct msg as [r [s|blocks]].
  - intros Hin%list_elem_of_singleton _. subst m. by left.
  - cbn [content]. rewrite extractTextContent_blocks. destruct r.
    + rewrite convert_user_blocks. intros [Hin|Hin]%elem_of_app Hrole.
      * apply list_elem_of_fmap in Hin as (b & -> & _). done.
      * destruct (block_texts blocks) as [|t ts]; [by apply elem_of_nil in Hin|].
        apply list_elem_of_singleton in Hin. subst m. by left.
    + rewrite convert_assistant_blocks. cbv zeta.
      intros Hin%list_elem_of_singleton _. subst m.
      destruct (block_tool_uses blocks) as [|u us]; [by left|].
      cbn [msg_content msg_role msg_tool_calls]. unfold or_null.
      destruct (truthy (join _ _)) eqn:Ej; [by left|].
      right. apply truthy_false in Ej. by rewrite Ej.
Qed.

End text_content.

(** The assistant turn with text and a tool use: one message, with the
    text. *)
Lemma text_message_carries_extractTextContent_witness :
  ∃ m,
    convertClaudeMessageToOpenAI
      {| role := role_assistant; content := ContentBlocks weather_turn |} = [m]
    ∧ (msg_content m = Some (extractTextContent (ContentBlocks weather_turn))
       ∨ (extractTextContent (ContentBlocks weather_turn) = "" ∧ msg_content m = None
          ∧ msg_role m = assistant ∧ msg_tool_calls m ≠ None)).
Proof.
  eexists. split; [reflexivity|].
  apply (text_message_carries_extractTextContent
           {| role := role_assistant; content := ContentBlocks weather_turn |}).
  - apply list_elem_of_here.
  - discriminate.
Defined.

(** ** The token count *)

Import Server.

Section token_count.

Lemma Math_ceil_div_4 (n : nat) :
  n ≤ 4 * Math_ceil_div n 4 ∧ 4 * Math_ceil_div n 4 < n + 4.
Proof.
  unfold Math_ceil_div. change (4 - 1) with 3.
  pose proof (Nat.div_mod (n + 3) 4 ltac:(done)) as Hdiv.
  pose proof (Nat.mod_upper_bound (n + 3) 4 ltac:(done)) as Hmod. lia.
Qed.

Lemma String_length_ascii (s : string) :
  Forall (fun c => nat_of_ascii c < 128) (list_ascii_of_string s) →
  String_length s = String.length s.
Proof.
  induction s as [|c s IH]; [done|]. cbn [list_ascii_of_string String_length String.length].
  intros [Hc Hs]%Forall_cons. rewrite IH by done.
  replace (128 <=? nat_of_ascii c) with false by (symmetry; apply Nat.leb_gt; lia).
  replace (240 <=? nat_of_ascii c) with false by (symmetry; apply Nat.leb_gt; lia).
  done.
Qed.

(** X19. [estimateTokens] is the length divided by four, rounded up: four
    times the estimate is at least the length and less than the length plus
    four, and the estimate is 0 exactly for a text of length 0.  The length is in
    UTF-16 code units, which for a text of the Basic Latin block is its
    number of bytes. *)
Theorem estimateTokens_bounds (text : string) :
  String_length text ≤ 4 * estimateTokens text
  ∧ 4 * estimateTokens text < String_length text + 4
  ∧ (estimateTokens text = 0 ↔ String_length text = 0)
  ∧ (Forall (fun c => nat_of_ascii c < 128) (list_ascii_of_string text) →
     estimateTokens text = (String.length text + 3) / 4).
Proof.
  unfold estimateTokens. pose proof (Math_ceil_div_4 (String_length text)) as [Hlow Hhigh].
  split; [done|]. split; [done|]. split; [lia|].
  intros Hascii. by rewrite String_length_ascii.
Qed.

(** *** The count *)

Lemma fold_count_block (blocks : list ClaudeContentBlock) (total : nat) :
  fold_left count_block blocks total = total + fold_left count_block blocks 0.
Proof.
  revert total. induction blocks as [|b blocks IH]; intros total; [simpl; lia|].
  cbn [fold_left]. rewrite (IH (count_block total b)), (IH (count_block 0 b)).
  destruct b as [| | ? [|] ?| | | |]; simpl; lia.
Qed.

Lemma count_message_total (msg : ClaudeMessage) (total : nat) :
  count_message total msg = total + count_message 0 msg.
Proof.
  unfold count_message. destruct (content msg) as [s|blocks]; [lia|].
  rewrite fold_count_block. lia.
Qed.

Lemma fold_count_message (messages : list ClaudeMessage) (total : nat) :
  fold_left count_message messages total = total + fold_left count_message messages 0.
Proof.
  revert total. induction messages as [|msg messages IH]; intros total; [simpl; lia|].
  cbn [fold_left]. rewrite (IH (count_message total msg)), (IH (count_message 0 msg)).
  rewrite count_message_total. lia.
Qed.

Lemma fold_count_message_floor (messages : list ClaudeMessage) :
  4 * length messages ≤ fold_left count_message messages 0.
Proof.
  induction messages as [|msg messages IH]; [done|].
  cbn [fold_left length]. rewrite fold_count_message.
  assert (4 ≤ count_message 0 msg) by (unfold count_message; lia). lia.
Qed.

Lemma fold_count_tool (tools : list ClaudeTool) (total : nat) :
  fold_left count_tool tools total = total + fold_left count_tool tools 0.
Proof.
  revert total. induction tools as [|t tools IH]; intros total; [simpl; lia|].
  cbn [fold_left]. rewrite (IH (count_tool total t)), (IH (count_tool 0 t)).
  unfold count_tool. lia.
Qed.

(** The count as a sum of its three parts. *)
Lemma count_tokens_parts (countRequest : TokenCountRequest) :
  count_tokens countRequest =
    count_system_tokens 0 (count_system countRequest)
    + fold_left count_message (count_messages countRequest) 0
    + fold_left count_tool (default [] (count_tools countRequest)) 0.
Proof.
  unfold count_tokens. cbv zeta. destruct (count_tools countRequest) as [tools|]; simpl.
  - rewrite fold_count_tool, fold_count_message. lia.
  - rewrite fold_count_message. lia.
Qed.

Lemma fold_count_block_filter (blocks : list ClaudeContentBlock) :
  fold_left count_block (List.filter is_translated blocks) 0 = fold_left count_block blocks 0.
Proof.
  induction blocks as [|b blocks IH]; [done|].
  cbn [List.filter fold_left].
  destruct (is_translated b) eqn:Eb.
  - cbn [fold_left]. by rewrite fold_count_block, IH, <- fold_count_block.
  - rewrite IH. by destruct b.
Qed.

Lemma count_message_prune (msg : ClaudeMessage) :
  count_message 0 (prune_message msg) = count_message 0 msg.
Proof.
  destruct msg as [r [s|blocks]]; [done|].
  unfold prune_message, count_message. cbn [content]. by rewrite fold_count_block_filter.
Qed.

(** X20. The token count charges 4 for every message, grows by exactly the
    count of the messages appended to a conversation, and does not change
    when the blocks the translator drops (images, documents, thinking) are
    taken out of the messages. *)
Theorem count_tokens_of_messages (countRequest : TokenCountRequest) :
  4 * length (count_messages countRequest) ≤ count_tokens countRequest
  ∧ (∀ more,
       count_tokens (with_messages (count_messages countRequest ++ more) countRequest)
       = count_tokens countRequest + fold_left count_message more 0)
  ∧ count_tokens (with_messages (List.map prune_message (count_messages countRequest))
                    countRequest)
    = count_tokens countRequest.
Proof.
  split; [|split].
  - rewrite count_tokens_parts. pose proof (fold_count_message_floor (count_messages countRequest)).
    lia.
  - intros more. rewrite !count_tokens_parts. cbn [with_messages count_system count_messages count_tools].
    rewrite fold_left_app, (fold_count_message more). lia.
  - rewrite !count_tokens_parts. cbn [with_messages count_system count_messages count_tools].
    f_equal. f_equal.
    induction (count_messages countRequest) as [|msg messages IH]; [done|].
    cbn [List.map fold_left].
    rewrite fold_count_message, (fold_count_message messages), IH, count_message_prune. done.
Qed.

End token_count.

(** ** The configuration file *)

Import Config ConfigFile.

Section routing_tables.

Implicit Types (routing : ModelRouting) (key value name : string).

Lemma has_key_own_entry routing key :
  has_key routing key = true ↔ is_Some (own_entry routing key).
Proof.
  unfold has_key. induction routing as [|[k v] rest IH]; simpl.
  - split; [done | by intros [? ?]].
  - destruct (String.eqb k key); simpl; [split; eauto | exact IH].
Qed.

Lemma own_entry_replace_value routing key value name :
  own_entry (replace_value routing key value) name =
    if String.eqb key name then (fun _ => value) <$> own_entry routing name
    else own_entry routing name.
Proof.
  unfold replace_value. induction routing as [|[k v] rest IH]; simpl.
  - by destruct (String.eqb key name).
  - destruct (String.eqb_spec k key) as [->|Hk]; simpl.
    + destruct (String.eqb_spec key name) as [->|Hn]; [done|]. exact IH.
    + destruct (String.eqb_spec k name) as [->|Hn].
      * destruct (String.eqb_spec key name) as [->|_]; done.
      * exact IH.
Qed.

Lemma first_prefix_match_replace_value routing key value name :
  startsWith name key = false →
  first_prefix_match (replace_value routing key value) name = first_prefix_match routing name.
Proof.
  intros Hkey. unfold replace_value. induction routing as [|[k v] rest IH]; [done|]. simpl.
  destruct (String.eqb_spec k key) as [->|Hk]; simpl.
  - by rewrite Hkey.
  - by rewrite IH.
Qed.

Lemma own_entry_insert_index n routing key value name :
  own_entry routing key = None →
  own_entry (insert_index n key value routing) name =
    if String.eqb key name then Some value else own_entry routing name.
Proof.
  induction routing as [|[k v] rest IH]; simpl; [done|].
  destruct (String.eqb_spec k key) as [->|Hk]; [done|]. intros Hnone.
  destruct (array_index k) as [m|]; [destruct (m <? n)%N|]; simpl; try done.
  rewrite IH by done. destruct (String.eqb_spec key name) as [->|Hn]; [|done].
  by destruct (String.eqb_spec k name).
Qed.

Lemma first_prefix_match_insert_index n routing key value name :
  startsWith name key = false →
  first_prefix_match (insert_index n key value routing) name = first_prefix_match routing name.
Proof.
  intros Hkey. induction routing as [|[k v] rest IH]; simpl; [by rewrite Hkey|].
  destruct (array_index k) as [m|]; [destruct (m <? n)%N|]; simpl; rewrite ?Hkey; try done.
  by rewrite IH.
Qed.

Lemma own_entry_app routing key value name :
  own_entry (routing ++ [(key, value)]) name =
    match own_entry routing name with
    | Some v => Some v
    | None => if String.eqb key name then Some value else None
    end.
Proof.
  induction routing as [|[k v] rest IH]; simpl; [done|].
  by destruct (String.eqb k name).
Qed.

Lemma first_prefix_match_app routing key value name :
  first_prefix_match (routing ++ [(key, value)]) name =
    match first_prefix_match routing name with
    | Some v => Some v
    | None => if startsWith name key then Some value else None
    end.
Proof.
  induction routing as [|[k v] rest IH]; simpl; [done|].
  by destruct (startsWith name k).
Qed.

(** Lookup after assignment. *)
Lemma own_entry_routing_set routing key value name :
  key ≠ "__proto__" →
  own_entry (routing_set routing key value) name =
    if String.eqb key name then Some value else own_entry routing name.
Proof.
  intros Hproto. unfold routing_set.
  destruct (has_key routing key) eqn:Ehas.
  - apply has_key_own_entry in Ehas as [v Hv]. rewrite own_entry_replace_value.
    destruct (String.eqb_spec key name) as [<-|_]; [by rewrite Hv|done].
  - destruct (String.eqb_spec key "__proto__"); [done|].
    assert (Hnone : own_entry routing key = None).
    { destruct (own_entry routing key) eqn:E; [|done].
      assert (has_key routing key = true) by (apply has_key_own_entry; eauto). congruence. }
    destruct (array_index key) as [i|].
    + by apply own_entry_insert_index.
    + rewrite own_entry_app.
      destruct (String.eqb_spec key name) as [<-|_]; [by rewrite Hnone|].
      by destruct (own_entry routing name).
Qed.

Lemma own_entry_routing_set_other routing key value name :
  key ≠ name → own_entry (routing_set routing key value) name = own_entry routing name.
Proof.
  intros Hne. destruct (String.eqb_spec key "__proto__") as [Hproto|Hproto].
  - unfold routing_set. destruct (has_key routing key).
    + rewrite own_entry_replace_value. by destruct (String.eqb_spec key name).
    + by destruct (String.eqb_spec key "__proto__").
  - rewrite own_entry_routing_set by done. by destruct (String.eqb_spec key name).
Qed.

Lemma first_prefix_match_routing_set routing key value name :
  startsWith name key = false →
  first_prefix_match (routing_set routing key value) name = first_prefix_match routing name.
Proof.
  intros Hkey. unfold routing_set.
  destruct (has_key routing key); [by apply first_prefix_match_replace_value|].
  destruct (String.eqb key "__proto__"); [done|].
  destruct (array_index key) as [n|]; [by apply first_prefix_match_insert_index|].
  rewrite first_prefix_match_app, Hkey. by destruct (first_prefix_match routing name).
Qed.

End routing_tables.

Section config_file_proofs.

Variable yaml_parse : string → Completion Document.
Variable yaml_stringify : Config → string.

Local Abbreviation loadConfig := (ConfigFile.loadConfig yaml_parse).
Local Abbreviation saveConfig := (ConfigFile.saveConfig yaml_stringify).
Local Abbreviation setProvider := (ConfigFile.setProvider yaml_parse yaml_stringify).
Local Abbreviation setPort := (ConfigFile.setPort yaml_parse yaml_stringify).
Local Abbreviation setProviderUrl := (ConfigFile.setProviderUrl yaml_parse yaml_stringify).
Local Abbreviation setProviderModel := (ConfigFile.setProviderModel yaml_parse yaml_stringify).
Local Abbreviation setModelRouting := (ConfigFile.setModelRouting yaml_parse yaml_stringify).
Local Abbreviation apply_setting := (ConfigFile.apply_setting yaml_parse yaml_stringify).
Local Abbreviation readable := (ConfigFile.readable yaml_parse).

Implicit Types (w : World) (p q : Provider) (config : LoadedConfig).

Lemma section_with_section p s (c : Config) : section p (with_section p s c) = s.
Proof. by destruct p. Qed.

Lemma section_with_section_other p q s (c : Config) :
  q ≠ p → section q (with_section p s c) = section q c.
Proof. by destruct p, q. Qed.

Lemma section_value_loaded w p config :
  section p (value w config) = section_value (section p (defaults w)) (loaded_section p config).
Proof. by destruct p. Qed.

(** The three assignments, on the content of the config: they change what
    they are meant to and nothing else, whichever objects are shared. *)
Lemma assign_routing_value p f config w :
  value (assign_routing p f config w).2 (assign_routing p f config w).1 =
    with_section p
      (with_modelRouting (f (modelRouting (section p (value w config)))) (section p (value w config)))
      (value w config)
  ∧ file (assign_routing p f config w).2 = file w.
Proof.
  unfold assign_routing.
  destruct p, config as [pr po [|b m k [|r]] [|b' m' k' [|r']]]; cbn;
    repeat match goal with
           | |- context [match modelRouting ?d with _ => _ end] =>
               destruct (modelRouting d) eqn:?; cbn
           end; split; try done; unfold value; cbn;
    repeat match goal with
           | E : modelRouting _ = _ |- _ => rewrite E; clear E
           end; done.
Qed.

Lemma assign_model_value p m config w :
  value (assign_model p m config w).2 (assign_model p m config w).1 =
    with_section p (with_model m (section p (value w config))) (value w config)
  ∧ file (assign_model p m config w).2 = file w.
Proof.
  unfold assign_model.
  by destruct p, config as [pr po [|b m0 k r] [|b' m' k' r']].
Qed.

Lemma assign_baseUrl_value p url config w :
  value (assign_baseUrl p url config w).2 (assign_baseUrl p url config w).1 =
    with_section p (with_baseUrl url (section p (value w config))) (value w config)
  ∧ file (assign_baseUrl p url config w).2 = file w.
Proof.
  unfold assign_baseUrl.
  by destruct p, config as [pr po [|b m0 k r] [|b' m' k' r']].
Qed.

Lemma value_saveConfig config config' w :
  value (saveConfig config' w) config = value w config.
Proof. done. Qed.

(** What [setModelRouting] returns and saves. *)
Lemma setModelRouting_value p claudeModel localModel w :
  let before := value w (loadConfig w) in
  let after := value (setModelRouting p claudeModel localModel w).2
                 (setModelRouting p claudeModel localModel w).1 in
  after =
    with_section p
      (with_modelRouting (route claudeModel localModel (modelRouting (section p before)))
         (section p before)) before
  ∧ file (setModelRouting p claudeModel localModel w).2 = Some (yaml_stringify after).
Proof.
  cbv zeta. unfold ConfigFile.setModelRouting.
  pose proof (assign_routing_value p (route claudeModel localModel) (loadConfig w) w) as [Hv _].
  destruct (assign_routing p (route claudeModel localModel) (loadConfig w) w) as [config w1].
  cbn [fst snd] in *. split; [exact Hv | reflexivity].
Qed.

Lemma provider_config_with_provider p (c : Config) :
  provider_config (with_provider p c) = section p c.
Proof. by destruct p. Qed.

Lemma with_provider_with_section p q s (c : Config) :
  with_provider q (with_section p s c) = with_section p s (with_provider q c).
Proof. by destruct p. Qed.

(** X22. A route that was set is the route that is taken:
    after [setModelRouting p claudeModel localModel] with a non-empty local
    model, [resolveModel] on the saved configuration, with [p] as the
    provider, maps [claudeModel] to [localModel]; the saved configuration is
    the content of the file. *)
Theorem route_then_resolve p (claudeModel localModel : string) w :
  localModel ≠ "" →
  claudeModel ≠ "__proto__" →
  let saved := value (setModelRouting p claudeModel localModel w).2
                 (setModelRouting p claudeModel localModel w).1 in
  resolveModel (with_provider p saved) claudeModel = str localModel
  ∧ file (setModelRouting p claudeModel localModel w).2 = Some (yaml_stringify saved).
Proof.
  intros Hlocal Hproto saved.
  destruct (setModelRouting_value p claudeModel localModel w) as [Hsaved Hfile].
  split; [|exact Hfile]. unfold saved. rewrite Hsaved.
  rewrite resolveModel_unfold, provider_config_with_provider, section_with_section.
  cbn [with_modelRouting modelRouting route default]. unfold id.
  rewrite own_entry_routing_set by done. rewrite String.eqb_refl.
  apply truthy_true in Hlocal. by rewrite Hlocal.
Qed.

(** X23. Setting a route for [claudeModel] changes the resolution of no
    name that does not start with [claudeModel], and leaves the other
    backend's section, the provider, the port, and the URL, default model
    and API key of the section as they were. *)
Theorem route_leaves_other_names p (claudeModel localModel : string) w :
  let before := value w (loadConfig w) in
  let saved := value (setModelRouting p claudeModel localModel w).2
                 (setModelRouting p claudeModel localModel w).1 in
  (∀ name, startsWith name claudeModel = false →
     resolveModel (with_provider p saved) name = resolveModel (with_provider p before) name)
  ∧ (∀ q, q ≠ p → section q saved = section q before)
  ∧ provider saved = provider before
  ∧ port saved = port before
  ∧ baseUrl (section p saved) = baseUrl (section p before)
  ∧ model (section p saved) = model (section p before)
  ∧ apiKey (section p saved) = apiKey (section p before).
Proof.
  intros before saved.
  destruct (setModelRouting_value p claudeModel localModel w) as [Hsaved _].
  fold before in Hsaved. fold saved in Hsaved. rewrite Hsaved.
  split; [|split; [|by destruct p]].
  - intros name Hname.
    assert (Hne : claudeModel ≠ name).
    { intros ->. by rewrite startsWith_self in Hname. }
    rewrite !resolveModel_unfold, !provider_config_with_provider, section_with_section.
    cbn [with_modelRouting modelRouting model route default]. unfold id.
    by rewrite own_entry_routing_set_other, first_prefix_match_routing_set.
  - intros q Hq. by apply section_with_section_other.
Qed.


Lemma loadConfig_readable w :
  loadConfig w =
    match readable w with
    | Some parsed =>
        {| loaded_provider := default (provider (defaults w)) (doc_provider parsed);
           loaded_port := num_or_else (doc_port parsed) (port (defaults w));
           loaded_lmstudio := merge_section (Config_lmstudio (defaults w)) (doc_lmstudio parsed);
           loaded_ollama := merge_section (Config_ollama (defaults w)) (doc_ollama parsed) |}
    | None =>
        {| loaded_provider := provider (defaults w); loaded_port := port (defaults w);
           loaded_lmstudio := section_of_defaults; loaded_ollama := section_of_defaults |}
    end.
Proof.
  unfold ConfigFile.loadConfig, ConfigFile.readable. destruct (file w) as [content|]; [|done].
  by destruct (yaml_parse content).
Qed.

Lemma loaded_section_loadConfig p w :
  loaded_section p (loadConfig w) =
    match readable w with
    | Some parsed => merge_section (section p (defaults w)) (doc_section p parsed)
    | None => section_of_defaults
    end.
Proof. rewrite loadConfig_readable. destruct (readable w); by destruct p. Qed.

Lemma section_value_merge (d : ProviderConfig) (given : option ProviderDocument) :
  section_value d (merge_section d given) =
    {| baseUrl := default (baseUrl d) (given ≫= doc_baseUrl);
       model := default (model d) (given ≫= doc_model);
       apiKey := match given ≫= doc_apiKey with Some k => Some k | None => apiKey d end;
       modelRouting := match given ≫= doc_modelRouting with
                       | Some routing => Some routing
                       | None => modelRouting d
                       end |}.
Proof.
  unfold merge_section. destruct given as [[b m k r]|]; simpl.
  - destruct r; simpl; [done|]. by destruct (modelRouting d).
  - by destruct (modelRouting d).
Qed.

(** X21. [loadConfig] without a readable file (none, or one [yaml.parse]
    throws on) returns the defaults.  With one, the provider and the port
    come from the file where it gives them (a port of 0 counts as not
    given), and each backend section takes the file's fields one by one
    over the defaults: a routing table in the file replaces the default
    table as a whole. *)
Theorem loadConfig_merges_over_defaults w :
  (readable w = None → value w (loadConfig w) = defaults w)
  ∧ (file w = None → readable w = None)
  ∧ (∀ content e, file w = Some content → yaml_parse content = Throw e → readable w = None)
  ∧ (∀ parsed, readable w = Some parsed →
       provider (value w (loadConfig w)) = default (provider (defaults w)) (doc_provider parsed)
       ∧ port (value w (loadConfig w)) =
           match doc_port parsed with
           | Some n => if (n =? 0)%Z then port (defaults w) else n
           | None => port (defaults w)
           end
       ∧ ∀ p,
           let d := section p (defaults w) in
           let given := doc_section p parsed in
           section p (value w (loadConfig w)) =
             {| baseUrl := default (baseUrl d) (given ≫= doc_baseUrl);
                model := default (model d) (given ≫= doc_model);
                apiKey := match given ≫= doc_apiKey with Some k => Some k | None => apiKey d end;
                modelRouting := match given ≫= doc_modelRouting with
                                | Some routing => Some routing
                                | None => modelRouting d
                                end |}).
Proof.
  split; [|split; [|split]].
  - intros Hnone. rewrite loadConfig_readable, Hnone. unfold value. cbn.
    by destruct (defaults w).
  - unfold ConfigFile.readable. by intros ->.
  - unfold ConfigFile.readable. by intros content e -> ->.
  - intros parsed Hparsed. rewrite loadConfig_readable, Hparsed. repeat split.
    intros p d given. rewrite section_value_loaded. cbn [loaded_section].
    destruct p; apply section_value_merge.
Qed.

(** *** Sharing with [DEFAULT_CONFIG] *)

(** X25. What the setters do to [DEFAULT_CONFIG]: [setProvider] and
    [setPort] never change it.  [setProviderModel] and [setProviderUrl]
    write into its section exactly when there is no readable file.
    [setModelRouting] writes into its routing table when there is no
    readable file, and also when the file's section gives no table and
    [DEFAULT_CONFIG] has one. *)
Theorem setters_and_DEFAULT_CONFIG p w :
  (∀ q, defaults (setProvider q w).2 = defaults w)
  ∧ (∀ n, defaults (setPort n w).2 = defaults w)
  ∧ (∀ m url,
       match readable w with
       | None =>
           defaults (setProviderModel p m w).2
             = with_section p (with_model m (section p (defaults w))) (defaults w)
           ∧ defaults (setProviderUrl p url w).2
             = with_section p (with_baseUrl url (section p (defaults w))) (defaults w)
       | Some _ =>
           defaults (setProviderModel p m w).2 = defaults w
           ∧ defaults (setProviderUrl p url w).2 = defaults w
       end)
  ∧ (∀ claudeModel localModel,
       let shared :=
         match readable w with
         | None => true
         | Some parsed =>
             match doc_section p parsed ≫= doc_modelRouting, modelRouting (section p (defaults w)) with
             | None, Some _ => true
             | _, _ => false
             end
         end in
       defaults (setModelRouting p claudeModel localModel w).2 =
         if shared
         then with_section p
                (with_modelRouting
                   (route claudeModel localModel (modelRouting (section p (defaults w))))
                   (section p (defaults w))) (defaults w)
         else defaults w).
Proof.
  split; [done|]. split; [done|]. split.
  - intros m url. unfold ConfigFile.setProviderModel, ConfigFile.setProviderUrl, assign_model, assign_baseUrl.
    rewrite loaded_section_loadConfig.
    destruct (readable w) as [parsed|]; [|done].
    unfold merge_section. by destruct (doc_section p parsed).
  - intros claudeModel localModel shared. unfold shared, ConfigFile.setModelRouting, assign_routing.
    rewrite loaded_section_loadConfig.
    destruct (readable w) as [parsed|]; [|done].
    unfold merge_section.
    destruct (doc_section p parsed) as [[b m k [r|]]|]; simpl; try done;
      by destruct (modelRouting (section p (defaults w))).
Qed.

(** *** Reading back what was saved *)

Lemma covers_loadConfig w : covers w (loadConfig w).
Proof.
  intros p. rewrite section_value_loaded, loaded_section_loadConfig.
  destruct (readable w) as [parsed|]; [|done].
  rewrite section_value_merge. cbn [apiKey modelRouting].
  split.
  - by destruct (doc_section p parsed ≫= doc_apiKey).
  - by destruct (doc_section p parsed ≫= doc_modelRouting).
Qed.

Lemma covers_value w w' config config' :
  (∀ p, apiKey (section p (value w' config')) = apiKey (section p (value w config))
        ∧ apiKey (section p (defaults w')) = apiKey (section p (defaults w))
        ∧ (modelRouting (section p (value w' config')) = None →
           modelRouting (section p (value w config)) = None
           ∧ modelRouting (section p (defaults w')) = modelRouting (section p (defaults w)))) →
  covers w config → covers w' config'.
Proof.
  intros H Hc p. destruct (H p) as (Hk & Hdk & Hr). destruct (Hc p) as [Hck Hcr].
  split.
  - rewrite Hk, Hdk. exact Hck.
  - intros Hnone. destruct (Hr Hnone) as [Hr1 Hr2]. rewrite Hr2. by apply Hcr.
Qed.

Lemma reload_section (d s : ProviderConfig) :
  (apiKey s = None → apiKey d = None) →
  (modelRouting s = None → modelRouting d = None) →
  section_value d (merge_section d (Some (document_of_section s))) = s.
Proof.
  intros Hk Hr. rewrite section_value_merge. destruct s as [b m k r]. simpl in *.
  f_equal.
  - destruct k; [done|]. by apply Hk.
  - destruct r; [done|]. by apply Hr.
Qed.

(** A config that covers the defaults, once saved, is read back as it was
    written, but for a port of 0. *)
Lemma reload_saved w config :
  covers w config →
  yaml_parse (yaml_stringify (value w config)) = Return (document_of (value w config)) →
  value (saveConfig config w) (loadConfig (saveConfig config w)) =
    with_port (if (port (value w config) =? 0)%Z then port (defaults w) else port (value w config))
      (value w config).
Proof.
  intros Hc Hyaml. rewrite loadConfig_readable. unfold ConfigFile.readable. cbn [ConfigFile.saveConfig file].
  rewrite Hyaml. unfold value at 1. cbn [loaded_provider loaded_port loaded_lmstudio loaded_ollama
    defaults document_of doc_provider doc_port doc_lmstudio doc_ollama default num_or_else].
  unfold with_port. f_equal.
  - apply reload_section; apply (Hc lmstudio).
  - apply reload_section; apply (Hc ollama).
Qed.

Lemma apply_setting_saved (s : Setting) w :
  ∃ config w1,
    apply_setting s w = (config, saveConfig config w1) ∧ covers w1 config.
Proof.
  pose proof (covers_loadConfig w) as Hload.
  destruct s as [q|n|q url|q m|q claudeModel localModel]; cbn [ConfigFile.apply_setting].
  - eexists _, _. split; [reflexivity|]. exact Hload.
  - eexists _, _. split; [reflexivity|]. exact Hload.
  - unfold ConfigFile.setProviderUrl.
    pose proof (assign_baseUrl_value q url (loadConfig w) w) as [Hv _].
    destruct (assign_baseUrl q url (loadConfig w) w) as [config w1] eqn:Ea.
    eexists _, _. split; [reflexivity|]. cbn [fst snd] in Hv.
    eapply covers_value; [|exact Hload]. intros p. rewrite Hv.
    assert (Hd : defaults w1 = defaults w
                 ∨ defaults w1 = with_section q (with_baseUrl url (section q (defaults w))) (defaults w)).
    { unfold assign_baseUrl in Ea. destruct (loaded_section q (loadConfig w));
        injection Ea as <- <-; [by right | by left]. }
    assert (Hpq : p = q ∨ p ≠ q) by (destruct p, q; (by left) || (by right)).
    destruct Hpq as [->|Hne].
    + rewrite section_with_section. cbn [with_baseUrl apiKey modelRouting].
      destruct Hd as [->| ->]; [done|]. rewrite section_with_section. done.
    + rewrite section_with_section_other by done.
      destruct Hd as [->| ->]; [done|]. rewrite section_with_section_other by done. done.
  - unfold ConfigFile.setProviderModel.
    pose proof (assign_model_value q m (loadConfig w) w) as [Hv _].
    destruct (assign_model q m (loadConfig w) w) as [config w1] eqn:Ea.
    eexists _, _. split; [reflexivity|]. cbn [fst snd] in Hv.
    eapply covers_value; [|exact Hload]. intros p. rewrite Hv.
    assert (Hd : defaults w1 = defaults w
                 ∨ defaults w1 = with_section q (with_model m (section q (defaults w))) (defaults w)).
    { unfold assign_model in Ea. destruct (loaded_section q (loadConfig w));
        injection Ea as <- <-; [by right | by left]. }
    assert (Hpq : p = q ∨ p ≠ q) by (destruct p, q; (by left) || (by right)).
    destruct Hpq as [->|Hne].
    + rewrite section_with_section. cbn [with_model apiKey modelRouting].
      destruct Hd as [->| ->]; [done|]. rewrite section_with_section. done.
    + rewrite section_with_section_other by done.
      destruct Hd as [->| ->]; [done|]. rewrite section_with_section_other by done. done.
  - unfold ConfigFile.setModelRouting.
    pose proof (assign_routing_value q (route claudeModel localModel) (loadConfig w) w) as [Hv _].
    destruct (assign_routing q (route claudeModel localModel) (loadConfig w) w)
      as [config w1] eqn:Ea.
    eexists _, _. split; [reflexivity|]. cbn [fst snd] in Hv.
    eapply covers_value; [|exact Hload]. intros p. rewrite Hv.
    assert (Hd : defaults w1 = defaults w
                 ∨ defaults w1 =
                     with_section q
                       (with_modelRouting
                          (route claudeModel localModel (modelRouting (section q (defaults w))))
                          (section q (defaults w))) (defaults w)).
    { unfold assign_routing in Ea.
      destruct (loaded_section q (loadConfig w)) as [|b m k [|r]];
        [| destruct (modelRouting (section q (defaults w))) |];
        injection Ea as <- <-; (by right) || (by left). }
    assert (Hpq : p = q ∨ p ≠ q) by (destruct p, q; (by left) || (by right)).
    destruct Hpq as [->|Hne].
    + rewrite section_with_section. cbn [with_modelRouting apiKey modelRouting route].
      destruct Hd as [->| ->]; [done|]. rewrite section_with_section. done.
    + rewrite section_with_section_other by done.
      destruct Hd as [->| ->]; [done|]. rewrite section_with_section_other by done. done.
Qed.

(** X26. After any setter, the file holds the configuration the setter
    returned, and (where [yaml.parse] reads back what [yaml.stringify]
    wrote for it) the next [loadConfig] returns that configuration, but for
    a port of 0, which is read as the default port. *)
Theorem saved_setting_is_read_back (s : Setting) w :
  let saved := value (apply_setting s w).2 (apply_setting s w).1 in
  let w' := (apply_setting s w).2 in
  yaml_parse (yaml_stringify saved) = Return (document_of saved) →
  file w' = Some (yaml_stringify saved)
  ∧ value w' (loadConfig w') =
      with_port (if (port saved =? 0)%Z then port (defaults w') else port saved) saved.
Proof.
  intros saved w' Hyaml. subst saved w'.
  destruct (apply_setting_saved s w) as (config & w1 & Heq & Hc). rewrite Heq in *.
  cbn [fst snd] in *. split; [done|].
  exact (reload_saved w1 config Hc Hyaml).
Qed.

(** X27. [initConfig] writes the defaults once: without a file it creates
    one that holds [DEFAULT_CONFIG], which [loadConfig] then reads back as
    the defaults (where [yaml.parse] reads back what [yaml.stringify] wrote),
    and a second [initConfig] throws and changes nothing; with a file it
    throws and leaves the file as it is. *)
Theorem initConfig_writes_defaults_once (getConfigPath : string) w :
  (file w = None →
   yaml_parse (yaml_stringify (defaults w)) = Return (document_of (defaults w)) →
   ∃ w', ConfigFile.initConfig yaml_stringify getConfigPath w = (Return tt, w')
         ∧ defaults w' = defaults w
         ∧ file w' = Some (yaml_stringify (defaults w))
         ∧ value w' (loadConfig w') = defaults w
         ∧ ∃ e, ConfigFile.initConfig yaml_stringify getConfigPath w' = (Throw e, w'))
  ∧ (∀ content, file w = Some content →
       ∃ e, ConfigFile.initConfig yaml_stringify getConfigPath w = (Throw e, w)).
Proof.
  split.
  - intros Hfile Hyaml. unfold ConfigFile.initConfig at 1, ConfigFile.configExists. rewrite Hfile.
    eexists. split; [reflexivity|]. split; [done|]. split; [done|]. split.
    + rewrite loadConfig_readable. unfold ConfigFile.readable. cbn [file defaults]. rewrite Hyaml.
      unfold value.
      cbn [loaded_provider loaded_port loaded_lmstudio loaded_ollama defaults document_of
           doc_provider doc_port doc_lmstudio doc_ollama default].
      rewrite !reload_section by done.
      destruct (defaults w) as [pr po l o]. cbn [provider port Config_lmstudio Config_ollama].
      f_equal. unfold num_or_else. by destruct (Z.eqb_spec po 0).
    + eexists. unfold ConfigFile.initConfig, ConfigFile.configExists. cbn [file]. reflexivity.
  - intros content Hfile. eexists. unfold ConfigFile.initConfig, ConfigFile.configExists. by rewrite Hfile.
Qed.

End config_file_proofs.

(** A route for Ollama set where there is no file. *)
Lemma route_then_resolve_witness :
  resolveModel
    (with_provider ollama
       (value (setModelRouting (reads_as (document_of DEFAULT_CONFIG)) (written_as "")
                 ollama "claude-opus-4" "qwen2:72b" initial_world).2
              (setModelRouting (reads_as (document_of DEFAULT_CONFIG)) (written_as "")
                 ollama "claude-opus-4" "qwen2:72b" initial_world).1))
    "claude-opus-4" = str "qwen2:72b".
Proof.
  refine (proj1 (route_then_resolve (reads_as (document_of DEFAULT_CONFIG)) (written_as "")
                   ollama "claude-opus-4" "qwen2:72b" initial_world _ _)); discriminate.
Defined.


(** [initConfig] where there is no file, with a reader that finds the
    defaults in what was written. *)
Lemma initConfig_writes_defaults_once_witness :
  ∃ w',
    ConfigFile.initConfig (written_as "provider: lmstudio") "sona-router.config.yaml"
      initial_world = (Return tt, w')
    ∧ file w' = Some "provider: lmstudio"
    ∧ value w' (loadConfig (reads_as (document_of DEFAULT_CONFIG)) w') = DEFAULT_CONFIG
    ∧ ∃ e, ConfigFile.initConfig (written_as "provider: lmstudio") "sona-router.config.yaml" w'
             = (Throw e, w').
Proof.
  destruct (proj1 (initConfig_writes_defaults_once (reads_as (document_of DEFAULT_CONFIG))
                     (written_as "provider: lmstudio") "sona-router.config.yaml" initial_world)
              eq_refl eq_refl)
    as (w' & Hinit & _ & Hfile & Hload & Hagain).
  exists w'. split; [exact Hinit|]. split; [exact Hfile|]. split; [exact Hload | exact Hagain].
Defined.

(** The port set where there is no file, with a reader that finds the
    written document. *)
Lemma saved_setting_is_read_back_witness :
  value (apply_setting (reads_as (document_of (with_port 8080 DEFAULT_CONFIG))) (written_as "")
           (set_port 8080) initial_world).2
    (loadConfig (reads_as (document_of (with_port 8080 DEFAULT_CONFIG)))
       (apply_setting (reads_as (document_of (with_port 8080 DEFAULT_CONFIG))) (written_as "")
          (set_port 8080) initial_world).2)
  = with_port 8080 DEFAULT_CONFIG.
Proof.
  refine (eq_trans
            (proj2 (saved_setting_is_read_back
                      (reads_as (document_of (with_port 8080 DEFAULT_CONFIG))) (written_as "")
                      (set_port 8080) initial_world _)) _).
  - reflexivity.
  - reflexivity.
Defined.

(** ** Model availability *)

Import Ollama.

Section availability_proofs.

Variable toLowerCase : string → string.

Lemma before_colon_idem (s : string) : before_colon (before_colon s) = before_colon s.
Proof.
  induction s as [|c s IH]; [done|]. simpl.
  destruct (Ascii.eqb c ":") eqn:Ec; [done|]. simpl. by rewrite Ec, IH.
Qed.

Lemma before_colon_tag (name tag : string) :
  before_colon (before_colon name +:+ String ":" tag) = before_colon name.
Proof.
  induction name as [|c name IH]; [done|]. simpl.
  destruct (Ascii.eqb c ":") eqn:Ec; [done|].
  change (String c ?a +:+ ?b) with (String c (a +:+ b)). simpl. by rewrite Ec, IH.
Qed.

(** X28. [isModelAvailable] compares lower-cased names, whole or cut at
    their first colon: with a model list, the answer is true exactly when
    some installed model has, lower-cased, the requested name's part before
    the first colon as its own part before the first colon, or has the
    requested name as its whole name; without one the answer is false.  So
    when an installed model has the same lower-cased name before the colon,
    the requested name is available with any tag and with none. *)
Theorem isModelAvailable_ignores_tag (tags : option (list string)) (modelName : string) :
  (tags = None → isModelAvailable_answer toLowerCase tags modelName = false)
  ∧ (∀ models, tags = Some models →
       (isModelAvailable_answer toLowerCase tags modelName = true ↔
        ∃ installed, installed ∈ models
          ∧ (toLowerCase (before_colon installed) = toLowerCase (before_colon modelName)
             ∨ toLowerCase installed = toLowerCase modelName)))
  ∧ (∀ models installed, tags = Some models → installed ∈ models →
       toLowerCase (before_colon installed) = toLowerCase (before_colon modelName) →
       isModelAvailable_answer toLowerCase tags (before_colon modelName) = true
       ∧ ∀ tag, isModelAvailable_answer toLowerCase tags
                  (before_colon modelName +:+ String ":" tag) = true).
Proof.
  assert (Hform : ∀ models name,
    isModelAvailable_answer toLowerCase (Some models) name = true ↔
    ∃ installed, installed ∈ models
      ∧ (toLowerCase (before_colon installed) = toLowerCase (before_colon name)
         ∨ toLowerCase installed = toLowerCase name)).
  { intros models name. unfold isModelAvailable_answer. rewrite existsb_exists. split.
    - intros (installed & Hin & Hsame). exists installed.
      split; [by apply list_elem_of_In|].
      unfold same_model in Hsame. cbv zeta in Hsame.
      apply orb_true_iff in Hsame as [H|H]; apply String.eqb_eq in H; [by left | by right].
    - intros (installed & Hin & Hsame). exists installed.
      split; [by apply list_elem_of_In|].
      unfold same_model. cbv zeta. apply orb_true_iff.
      destruct Hsame as [H|H]; [left | right]; by apply String.eqb_eq. }
  split; [by intros ->|]. split.
  - intros models ->. apply Hform.
  - intros models installed -> Hin Hsame. split.
    + apply Hform. exists installed. split; [done|]. left. by rewrite before_colon_idem.
    + intros tag. apply Hform. exists installed. split; [done|]. left.
      by rewrite before_colon_tag.
Qed.

End availability_proofs.

(** With [llama3:8b] installed, [llama3:70b] counts as available, and so
    does [LLaMA3]; the names are Basic Latin, which [Latin_toLowerCase]
    lower-cases as [toLowerCase] does. *)
Lemma isModelAvailable_ignores_tag_witness :
  isModelAvailable_answer Latin_toLowerCase (Some ["llama3:8b"]) "llama3:70b" = true
  ∧ isModelAvailable_answer Latin_toLowerCase (Some ["llama3:8b"]) "LLaMA3" = true
  ∧ isModelAvailable_answer Latin_toLowerCase (Some ["llama3:8b"]) "mistral" = false
  ∧ isModelAvailable_answer Latin_toLowerCase None "llama3:8b" = false.
Proof.
  split; [|split; [|split]].
  - refine (proj2 (proj2 (proj2 (isModelAvailable_ignores_tag Latin_toLowerCase
              (Some ["llama3:8b"]) "llama3")) ["llama3:8b"] "llama3:8b" _ _ _) "70b").
    + reflexivity.
    + apply list_elem_of_here.
    + reflexivity.
  - refine (proj1 (proj2 (proj2 (isModelAvailable_ignores_tag Latin_toLowerCase
              (Some ["llama3:8b"]) "LLaMA3")) ["llama3:8b"] "llama3:8b" _ _ _)).
    + reflexivity.
    + apply list_elem_of_here.
    + reflexivity.
  - reflexivity.
  - refine (proj1 (isModelAvailable_ignores_tag Latin_toLowerCase None "llama3:8b") _).
    reflexivity.
Defined.
